(** * Jobs scraper: navigation and extraction engine

    A shallow embedding of [scraper_filters.py] and of the class
    [ExpertJobScraper] of [expert_job_scraper.py], with the properties of
    the engine stated and proved over it; and of what stands around the
    engine, the job table of [job_database.py] and the company search
    and the saving of profiles of [enhanced_serper_agent.py].

    Python strings are modelled as [string]: a character is a code point
    below 256 (Latin-1), which is enough for every constant the sources
    compare against.  Python sets are [gset string], the dictionary
    [used_selenium_for_url] is a [gmap string bool], and the dictionary of
    [_deduplicate_jobs], whose insertion order is its result, is an
    association list.

    Exceptions are part of the model.  The fetchers may raise: the
    start and the end of the crawler, [crawler.arun], and the browser
    session of [_extract_with_selenium], whose [driver.quit()] runs
    under [finally], outside the [try].  Of the library, [urljoin] and
    [urlparse] raise [ValueError] on a URL they cannot split, and
    string operations raise [TypeError] on a metadata value that is no
    string.  [print], the queries of BeautifulSoup on a parsed document
    and the operations of [str] and [re] on strings are taken not to
    raise. *)

From Stdlib Require Import String Ascii ZArith Lia Bool List.
From stdpp Require Import base gmap strings list.
Import ListNotations.

Local Open Scope list_scope.

(** ** Python string operations *)

Module PyStr.

(** [str.lower()] on one code point: A-Z and the upper-case letters of
    Latin-1 (U+00C0-U+00DE without the multiplication sign U+00D7). *)
Definition lower_char (c : ascii) : ascii :=
  let n := N_of_ascii c in
  if ((65 <=? n) && (n <=? 90) ||
      (192 <=? n) && (n <=? 222) && negb (n =? 215))%N
  then ascii_of_N (n + 32) else c.

Fixpoint lower (s : string) : string :=
  match s with
  | EmptyString => EmptyString
  | String c s' => String (lower_char c) (lower s')
  end.

(** [str.isspace()] on one code point below 256. *)
Definition is_space (c : ascii) : bool :=
  let n := N_of_ascii c in
  ((9 <=? n) && (n <=? 13) || (28 <=? n) && (n <=? 32) ||
   (n =? 133) || (n =? 160))%N.

Definition is_empty (s : string) : bool :=
  match s with EmptyString => true | _ => false end.

(** [s.startswith(p)] *)
Definition startswith (s p : string) : bool := String.prefix p s.

(** [s.startswith((p1, p2, ...))] *)
Definition startswith_any (s : string) (ps : list string) : bool :=
  existsb (startswith s) ps.

(** [sub in s] *)
Fixpoint str_in (sub s : string) : bool :=
  String.prefix sub s ||
  match s with
  | EmptyString => false
  | String _ s' => str_in sub s'
  end.

(** [any(t in s for t in terms)] *)
Definition any_in (terms : list string) (s : string) : bool :=
  existsb (fun t => str_in t s) terms.

(** [s in terms], for a list of strings *)
Definition mem (s : string) (terms : list string) : bool :=
  existsb (String.eqb s) terms.

Fixpoint lstrip (s : string) : string :=
  match s with
  | EmptyString => EmptyString
  | String c s' => if is_space c then lstrip s' else s
  end.

Fixpoint rstrip (s : string) : string :=
  match s with
  | EmptyString => EmptyString
  | String c s' =>
      match rstrip s' with
      | EmptyString => if is_space c then EmptyString else String c EmptyString
      | r => String c r
      end
  end.

(** [s.strip()] *)
Definition strip (s : string) : string := rstrip (lstrip s).

(** [s.split(sep)[0]] for a non-empty [sep]: the text before the first
    occurrence of [sep], the whole of [s] when there is none. *)
Fixpoint before (sep s : string) : string :=
  if String.prefix sep s then EmptyString
  else match s with
       | EmptyString => EmptyString
       | String c s' => String c (before sep s')
       end.

(** [len(s.split())]: the number of maximal runs of non-space
    characters.  [inword] tells whether the previous character belonged
    to a word. *)
Fixpoint count_words (inword : bool) (s : string) : nat :=
  match s with
  | EmptyString => 0
  | String c s' =>
      if is_space c then count_words false s'
      else (if inword then 0 else 1) + count_words true s'
  end.

Definition word_count (s : string) : nat := count_words false s.

(** [len(s)] *)
Definition len (s : string) : nat := String.length s.

(** [s[:n]] *)
Definition take (n : nat) (s : string) : string := String.substring 0 n s.

(** [sep.join(parts)] *)
Fixpoint join (sep : string) (parts : list string) : string :=
  match parts with
  | [] => EmptyString
  | [p] => p
  | p :: ps => p +:+ sep +:+ join sep ps
  end.

(** [s.replace(old, new)] for a non-empty [old]; [fuel] bounds the
    scan and is the length of [s] plus one in [replace]. *)
Fixpoint replace_go (fuel : nat) (old new s : string) : string :=
  match fuel with
  | O => s
  | S fuel' =>
      if String.prefix old s
      then new +:+ replace_go fuel' old new
                     (String.substring (String.length old)
                        (String.length s - String.length old) s)
      else match s with
           | EmptyString => EmptyString
           | String c s' => String c (replace_go fuel' old new s')
           end
  end.

Definition replace (old new s : string) : string :=
  replace_go (S (String.length s)) old new s.

(** A string without white space: what [strip] cannot cut into. *)
Fixpoint no_space (t : string) : bool :=
  match t with
  | EmptyString => true
  | String c t' => negb (is_space c) && no_space t'
  end.

End PyStr.

(** ** Python values and exceptions

    A value read from JSON metadata is a string or is not; of a value
    that is not a string (a number, a boolean, [None], a list or a
    dictionary) the code observes its truth value only. *)

Inductive pyval :=
| PStr (s : string)
| POther (truth : bool).

(** [bool(v)] *)
Definition truthy (v : pyval) : bool :=
  match v with
  | PStr EmptyString => false
  | PStr _ => true
  | POther truth => truth
  end.

(** The result of a call that has no effect on the scraper object: a
    value, or an exception. *)
Inductive raising (A : Type) : Type :=
| Returns (a : A)
| Raises.
Arguments Returns {A} a.
Arguments Raises {A}.

(** ** Job records

    The dictionary built by the extractor, with the keys the scraper sets.
    [job_id] is the optional key read by [_deduplicate_jobs]
    ([job.get('job_id')]); the keys [title] and [description], which
    [is_valid_job] falls back to, are never present.  [experience] holds
    the employment type, which metadata may give as a value that is not
    a string; no code reads it. *)

Record job := mk_job {
  job_title : string;
  company : string;
  location : string;
  experience : pyval;
  job_description : string;
  responsibilities : string;
  skills : list string;
  source_url : string;
  job_id : option string
}.

(** The dictionary as [_extract_single_job] returns it.  Built from
    metadata, its title and company are the values found there, strings
    or not; its other text fields are strings in every record that is
    returned. *)
Record record := mk_record {
  rec_title : pyval;
  rec_company : pyval;
  rec_location : string;
  rec_experience : pyval;
  rec_description : string;
  rec_responsibilities : string;
  rec_skills : list string;
  rec_source_url : string
}.

(** The record as a [job], when its title and company are strings. *)
Definition typed (r : record) : option job :=
  match rec_title r, rec_company r with
  | PStr title, PStr company =>
      Some {| job_title := title;
              company := company;
              location := rec_location r;
              experience := rec_experience r;
              job_description := rec_description r;
              responsibilities := rec_responsibilities r;
              skills := rec_skills r;
              source_url := rec_source_url r;
              job_id := None |}
  | _, _ => None
  end.

(** ** scraper_filters.py *)

Module ScraperFilters.
Import PyStr.

(** [sanitize_url]: [None] is Python's [None]. *)
Definition sanitize_url (url : string) : option string :=
  if is_empty url then None
  else
    let url := strip url in
    if startswith_any (lower url)
         ["mailto:"; "tel:"; "javascript:"; "data:"; "#"]
    then None
    else if negb (startswith_any (lower url) ["http://"; "https://"])
    then None
    else Some url.

Definition allowed_terms : list string :=
  ["intern"; "internship"; "co-op"; "trainee"; "graduate"; "student";
   "apprentice"; "fellowship"].

Definition forbidden_terms : list string :=
  ["senior"; "staff"; "lead"; "principal"; "architect";
   "manager"; "director"; "vp"; "head of"; "executive";
   "sr."; "sr "; "chief"; "partner"].

(** [matches_target_role(title, mode)] *)
Definition matches_target_role (title mode : string) : bool :=
  if is_empty title then false
  else
    let title_lower := lower title in
    if String.eqb mode "internship" then
      if negb (any_in allowed_terms title_lower) then false
      else if any_in forbidden_terms title_lower then false
      else true
    else true.

Definition junk_terms : list string :=
  ["youradchoices"; "privacy policy"; "cookie policy"; "terms of use";
   "do not sell my info"; "opt out"; "digital advertising alliance";
   "interest-based ads"; "browser cookies"; "javascript error"].

(** [is_valid_job(job_dict)].  A record is a non-empty dictionary, and
    [job_dict.get('job_title', '') or job_dict.get('title', '')] is its
    [job_title], the key [title] being absent (likewise for the
    description). *)
Definition is_valid_job (j : job) : bool :=
  let title := job_title j in
  let company := company j in
  let desc := job_description j in
  if is_empty title || is_empty company then false
  else if any_in junk_terms (lower (title +:+ " " +:+ company)) then false
  else if len desc <? 50 then false
  else if str_in "privacy policy" (lower desc) && (len desc <? 500)
          && negb (str_in "responsibilities" (lower desc))
  then false
  else true.

End ScraperFilters.


(** ** The page model: BeautifulSoup and the standard library

    The scraper reads pages only through BeautifulSoup.  A [node] is a
    parsed document, a tag or a text node; the operations the sources call
    on it are the fields of [Dom].  Calls of [find] and [find_all] are
    named by the search they make; [find] returns the first result that
    [find_all] returns for the same search. *)

Inductive bs_query :=
| Q_form          (* find_all('form') *)
| Q_anchor_href   (* find_all('a', href=True) *)
| Q_anchor        (* find('a') *)
| Q_inputs        (* find_all(['input', 'select']) *)
| Q_ul_jobs       (* find('ul', id='jobs') *)
| Q_testid_detail (* find(attrs={'data-testid': re.compile(r'job-detail', re.I)}) *)
| Q_section_main  (* find('section', role='main') *)
| Q_article       (* find('article') *)
| Q_div_detail    (* find('div', class_=re.compile(r'job-detail|position-detail|opening-detail', re.I)) *)
| Q_job_content   (* find_all(text=re.compile(r'responsibilities|requirements|qualifications|job description', re.I)) *)
| Q_content_divs  (* find_all('div', class_=re.compile(r'content|main|body', re.I)) *)
| Q_job_sections  (* find_all(text=re.compile(r'responsibilities|requirements|qualifications|about|role overview', re.I)) *)
| Q_resp_headers  (* find_all(['h2', 'h3', 'h4', 'b', 'strong'], string=re.compile(r'responsibilit', re.I)) *)
| Q_card_title.   (* find(['h2', 'h3', 'h4', 'a']) *)

(** Embedded [JobPosting] metadata, as [_create_job_from_json_ld] reads it.
    A key read with [get] is absent ([None]) or holds a value, a string
    or not; [PartOther], [AddrOther], [LocOther] and [OrgOther] stand for
    a value that is neither a string nor a dictionary (for a part, also
    for an absent key). *)

Inductive ld_part :=
| PartStr (s : string)
| PartDict (name : option pyval)
| PartOther.

Inductive ld_address :=
| AddrAbsent
| AddrDict (addressLocality addressRegion addressCountry : ld_part)
| AddrStr (s : string)
| AddrOther.

Inductive ld_location :=
| LocAbsent
| LocDict (address : ld_address)
| LocStr (s : string)
| LocOther.

Inductive ld_org :=
| OrgAbsent
| OrgDict (name : option pyval)
| OrgOther.

Record ld_posting := mk_ld {
  ld_title : option pyval;
  ld_jobLocation : ld_location;
  ld_hiringOrganization : ld_org;
  ld_description : option pyval;
  ld_employmentType : option pyval
}.

Class Dom (node : Type) := {
  (** [BeautifulSoup(html, 'html.parser')] *)
  parse : string -> node;
  (** [n.get_text()] *)
  get_text : node -> string;
  (** [n.get_text(separator=sep, strip=True)] *)
  get_text_sep : string -> node -> string;
  (** [n.select(selector)] *)
  select : node -> string -> list node;
  (** [n.find_all(...)] for the query named *)
  find_all : node -> bs_query -> list node;
  (** [n.get('href')] *)
  get_href : node -> option string;
  (** [str(n.attrs)] *)
  attrs_str : node -> string;
  (** [str(n.parent.get('class', []))] *)
  parent_class_str : node -> string;
  (** [n.find_next_sibling()] *)
  find_next_sibling : node -> option node;
  (** [n.find_next_sibling(['ul', 'div', 'p'])] *)
  find_next_block : node -> option node;
  (** [n.find_parent(['div', 'section', 'article'])] *)
  find_parent_block : node -> option node;
  (** [_extract_json_ld]: the first [JobPosting] object among the
      [application/ld+json] scripts that [json.loads] accepts *)
  _extract_json_ld : node -> option ld_posting
}.

(** What the scraper reads of [urlparse(url)]. *)
Record parse_result := mk_parse_result {
  url_netloc : string;
  url_query : string
}.

(** Functions of [urllib.parse], [re] and [str] that the scraper calls and
    that are taken as given.  [urlparse] raises [ValueError] on some
    strings (an unbalanced bracket in the host, for one), and [urljoin]
    with it. *)
Class PyLib := {
  (** [urljoin(base, url)] for a non-empty [base] and a non-empty [url],
      which parses both; [None] when it raises *)
  urljoin_parsed : string -> string -> option string;
  (** [urlparse(url)]; [None] when it raises *)
  urlparse : string -> option parse_result;
  (** [urlencode(params, doseq=True)] for a list of pairs in insertion
      order *)
  urlencode : list (string * string) -> string;
  (** [s.title()] *)
  str_title : string -> string;
  (** [re.search(pattern, s)], the text of group 1 of the match *)
  re_search : string -> string -> option string;
  (** [re.sub(pattern, repl, s)], with [re.IGNORECASE] when the flag is
      set *)
  re_sub : string -> string -> bool -> string -> string;
  (** [re.findall(pattern, s, re.IGNORECASE)] *)
  re_findall : string -> string -> list string;
  (** [list(set(l))], in whatever order the set iterates *)
  list_of_set : list string -> list string
}.

(** ** expert_job_scraper.py: functions of strings and records *)

Module ExpertJobScraper.
Import PyStr ScraperFilters.

(** [urljoin(base, url)]: it returns [url] for an empty [base] and
    [base] for an empty [url] before it parses anything. *)
Definition urljoin `{PyLib} (base url : string) : raising string :=
  if is_empty base then Returns url
  else if is_empty url then Returns base
  else match urljoin_parsed base url with
       | Some joined => Returns joined
       | None => Raises
       end.

(** A loop whose body may raise. *)
Fixpoint fold_raising {S A : Type} (step : S -> A -> raising S)
    (l : list A) (s : S) : raising S :=
  match l with
  | [] => Returns s
  | x :: l' =>
      match step s x with
      | Returns s' => fold_raising step l' s'
      | Raises => Raises
      end
  end.

Definition skipped_terms : list string :=
  ["login"; "sign-in"; "my-profile"; "benefits";
   "skip-to-main"; "candidateexperience";
   "auth"; "sso"; "oraclecloud.com";
   "privacy"; "terms"; "cookie"].

(** [should_skip_url]: [not url] holds for [None] and for the empty
    string. *)
Definition should_skip_url (url : string) : bool :=
  match sanitize_url url with
  | None => true
  | Some url => if is_empty url then true else any_in skipped_terms (lower url)
  end.

Definition spa_indicators : list string :=
  ["myworkdayjobs.com"; "taleo.net"; "icims.com"; "greenhouse.io";
   "lever.co"; "startup.jobs"; "#/job"; "#search"].

Definition _is_spa_url (url : string) : bool :=
  any_in spa_indicators (lower url).

(** [_get_job_detail_url] *)
Definition _get_job_detail_url (url : string) : string :=
  if str_in "/apply" url then before "/apply" url
  else if str_in "/application" url then before "/application" url
  else url.

Definition _is_apply_url (url : string) : bool :=
  str_in "/apply" url || str_in "/application" url.

Definition invalid_titles : list string :=
  ["apply"; "provide"; "upload resume"; "join us"; "login"; "create account";
   "careers"; "jobs"; "work with us"; "search"; "results"; "filter";
   "please wait"; "loading"; "application"; "job title not available";
   "profile"; "member"; "blog"; "news"; "events"].

Definition _is_invalid_title (title : string) : bool :=
  if is_empty title || (len title <? 3) then true
  else any_in invalid_titles (lower title).

Definition role_keywords : list string :=
  ["engineer"; "developer"; "manager"; "analyst"; "consultant";
   "specialist"; "director"; "intern"].

(** [_score_job]: the confidence score, a Python integer. *)
Definition _score_job (job_data : job) : Z :=
  let title := lower (job_title job_data) in
  let desc := lower (job_description job_data) in
  let score := 0%Z in
  let score :=
    if (3 <? len title) && negb (_is_invalid_title title)
    then (score + 2)%Z else score in
  let score := if 200 <? len desc then (score + 2)%Z else score in
  let score :=
    if 0 <? length (skills job_data) then (score + 1)%Z else score in
  let loc := location job_data in
  let score :=
    if negb (is_empty loc)
       && negb (String.eqb (lower loc) "location not specified")
    then (score + 1)%Z else score in
  let score := if any_in role_keywords title then (score + 1)%Z else score in
  let score :=
    if any_in ["employee benefits"; "our culture";
               "frequently asked questions"] desc
    then (score - 3)%Z else score in
  let score :=
    if str_in "application form" desc || str_in "upload resume" desc
    then (score - 5)%Z else score in
  score.

Definition _validate_country (job_data : job) (country : string) : bool :=
  let loc := lower (location job_data) in
  let country_lower := lower country in
  str_in country_lower loc || str_in "remote" loc
  || str_in "not specified" loc || str_in "worldwide" loc.

(** The class body defines [_validate_job] twice.  This is the first
    definition (line 856), which gates on the confidence score; the
    second definition rebinds the name, so no call reaches this one. *)
Definition _validate_job_scored (job_data : job) (country : string) : bool :=
  let score := _score_job job_data in
  if (score <? 3)%Z then false
  else if negb (is_empty country) && negb (_validate_country job_data country)
  then false
  else true.

(** The second definition of [_validate_job] (line 1195): the method the
    class ends up with, and the one every caller runs. *)
Definition _validate_job (job_data : job) (country : string) : bool :=
  if negb (is_valid_job job_data) then false
  else if negb (matches_target_role (job_title job_data) "internship")
  then false
  else _validate_country job_data country.

(** [job_data and self._validate_job(job_data, country)] for the
    dictionary that [_extract_single_job] returned: the record as a
    [job] when the validator accepts it.  On a dictionary whose title or
    company is not a string, [is_valid_job] returns [False] when one of
    the two is falsy, and raises [TypeError] at
    [title + " " + company] otherwise. *)
Definition accepted_job (job_data : record) (country : string)
  : raising (option job) :=
  match typed job_data with
  | Some j => Returns (if _validate_job j country then Some j else None)
  | None =>
      if negb (truthy (rec_title job_data))
         || negb (truthy (rec_company job_data))
      then Returns None
      else Raises
  end.

(** [_deduplicate_jobs].  [unique_jobs] is the dictionary in insertion
    order; [not key] holds for an absent and for an empty identifier. *)
Definition composite_key (j : job) : string :=
  job_title j +:+ "_" +:+ location j +:+ "_" +:+ company j.

Definition dict_has (key : string) (unique_jobs : list (string * job)) : bool :=
  existsb (fun kv => String.eqb key (fst kv)) unique_jobs.

Definition dedup_key (unique_jobs : list (string * job)) (j : job) : string :=
  match job_id j with
  | None => composite_key j
  | Some key =>
      if is_empty key || dict_has key unique_jobs then composite_key j else key
  end.

Definition dedup_step (unique_jobs : list (string * job)) (j : job)
  : list (string * job) :=
  let key := dedup_key unique_jobs j in
  if dict_has key unique_jobs then unique_jobs
  else unique_jobs ++ [(key, j)].

Definition dedup_dict (jobs : list job) : list (string * job) :=
  fold_left dedup_step jobs [].

Definition _deduplicate_jobs (jobs : list job) : list job :=
  map snd (dedup_dict jobs).



Definition _is_valid_location (location : string) : bool :=
  if is_empty location || (len location <? 3) then false
  else negb (mem (lower location)
               ["location"; "city"; "state"; "country"; "where"; "anywhere"]).

(** *** Page analysis *)

Inductive page_type :=
| JOB_DETAIL | JOB_LISTING | CAREER_GATEWAY | JOB_SEARCH_APP
| CAREER_INFO | OTHER.

(** A category link, [{'name': ..., 'url': ...}]. *)
Record category := mk_category { cat_name : string; cat_url : string }.

(** The selector written with ['] for the double quote that the source
    has inside its single-quoted literals. *)
Definition css (s : string) : string :=
  (fix go (s : string) : string :=
     match s with
     | EmptyString => EmptyString
     | String c s' =>
         String (if Ascii.eqb c "'"%char then "034"%char else c) (go s')
     end) s.

Definition card_selectors : list string :=
  map css
    ["ul[id='jobs'] li"; "li[class*='jobs-list-item']";
     "[data-testid*='job']"; "[class*='job-card']"; "[class*='job-item']";
     "[class*='position']"; "article"; "li[class*='job']";
     "div[class*='card']"; "div[class*='item']"; "div[class*='listing']";
     "tr[class*='job']"; ".job-list-item";
     "li"; ".search-result"; ".list-row"; ".row"].

Definition info_keywords : list string :=
  ["employee benefits"; "our culture"; "frequently asked questions";
   "diversity and inclusion"; "life at"; "why work here"].

Definition hub_keywords : list string :=
  ["explore all opportunities"; "explore all";
   "careers"; "career"; "career hub"; "career site"; "career portal";
   "career opportunities"; "job opportunities"; "work with us";
   "join us"; "life at"; "why join"; "your career"; "our people";
   "professionals"; "experienced professionals"; "experienced";
   "students"; "student opportunities";
   "graduates"; "graduate programs"; "graduate roles";
   "early careers"; "early talent"; "entry level"; "junior roles";
   "internships"; "interns"; "internship program";
   "apprenticeships"; "apprentice"; "trainees";
   "campus"; "campus hiring"; "university"; "college hiring";
   "new grads"; "freshers";
   "career paths"; "career tracks"; "career areas";
   "career options"; "career categories"; "job families";
   "job categories"; "role categories";
   "engineering"; "technology"; "software"; "it";
   "data"; "analytics"; "ai"; "machine learning";
   "product"; "design"; "ux"; "ui";
   "sales"; "marketing"; "growth";
   "customer service"; "customer support";
   "operations"; "business operations";
   "finance"; "accounting"; "audit";
   "hr"; "human resources"; "people";
   "legal"; "compliance";
   "administrative"; "admin";
   "supply chain"; "logistics";
   "manufacturing"; "production";
   "security"; "cybersecurity";
   "corporate"; "retail"; "store jobs";
   "warehouse"; "fulfillment"; "distribution";
   "drivers"; "delivery";
   "field jobs"; "field service";
   "healthcare"; "medical"; "clinical";
   "aviation"; "airlines";
   "banking"; "financial services";
   "insurance";
   "energy"; "utilities";
   "construction"; "infrastructure";
   "explore careers"; "explore jobs";
   "find your path"; "find your career";
   "search jobs"; "job search";
   "view all jobs"; "browse jobs";
   "see roles"; "see opportunities";
   "discover roles"; "open roles"].

Definition ats_domains : list string :=
  ["myworkdayjobs.com"; "taleo.net"; "icims.com"; "greenhouse.io";
   "lever.co"; "oraclecloud.com"].

(** The first result of a search, as [find] is to [find_all] and
    [select_one] to [select]. *)
Definition first_some {A B : Type} (f : A -> option B) : list A -> option B :=
  fix go (l : list A) : option B :=
    match l with
    | [] => None
    | x :: l' => match f x with Some y => Some y | None => go l' end
    end.

Section Pages.
Context {node : Type} `{Dom node} `{PyLib}.

Definition find (n : node) (q : bs_query) : option node :=
  head (find_all n q).

Definition select_one (n : node) (selector : string) : option node :=
  head (select n selector).

Definition is_some {A : Type} (o : option A) : bool :=
  match o with Some _ => true | None => false end.

Definition _is_definitely_job_card (element : node) : bool :=
  let text := lower (get_text element) in
  if 500 <? len text then false
  else any_in ["workplace type"; "location:"; "posted"; "apply";
               "job id"; "employment type"] text.

Definition _is_valid_job_card (element : node) : bool :=
  let text := lower (get_text element) in
  if len text <? 20 then false
  else if negb (is_some (find element Q_anchor)) then false
  else if any_in ["min read"; "read more"; "posted by"; "blog"; "article"]
            text
  then false
  else negb (any_in ["navigation"; "footer"; "header"; "menu"] text).

(** One iteration of the inner loop of [_find_job_cards]: the state is
    [(cards, seen_texts)]. *)
Definition card_step (sel : string) (st : list node * gset string)
    (elem : node) : list node * gset string :=
  let '(cards, seen_texts) := st in
  let is_generic := mem sel ["li"; ".row"; ".list-row"] in
  if is_generic && negb (_is_definitely_job_card elem) then st
  else
    let text := strip (get_text elem) in
    if negb (is_empty text) && negb (bool_decide (text ∈ seen_texts))
       && _is_valid_job_card elem
    then (cards ++ [elem], {[text]} ∪ seen_texts)
    else st.

Definition _find_job_cards (soup : node) : list node :=
  let '(cards, _) :=
    fold_left
      (fun st sel => fold_left (card_step sel) (select soup sel) st)
      card_selectors ([], ∅) in
  firstn 20 cards.

(** One iteration of the loop of [_find_category_links], once
    [urljoin] has returned [full_url]. *)
Definition category_pick (categories : list category) (link : node)
    (full_url : string) : list category :=
  let text := lower (strip (get_text link)) in
  let href := default EmptyString (get_href link) in
  if is_empty href || String.eqb href "#" || startswith href "javascript"
  then categories
  else if any_in ["login"; "signin"; "privacy"; "terms"] (lower href)
  then categories
  else
    let matched := any_in ats_domains (lower href) in
    let matched :=
      if any_in hub_keywords text && (len text <? 50) then true
      else matched in
    let matched :=
      if negb matched then
        let parent_classes := lower (parent_class_str link) in
        if (str_in "card" parent_classes || str_in "tile" parent_classes
            || str_in "category" parent_classes)
           && ((3 <? len text) && (len text <? 50))
        then true else matched
      else matched in
    if matched
       && negb (existsb (fun c => String.eqb (cat_url c) full_url) categories)
    then categories ++ [mk_category (str_title text) full_url]
    else categories.

(** One iteration of the loop of [_find_category_links]: [urljoin] is
    called on every [href], before any check of it. *)
Definition category_step (base_url : string) (categories : list category)
    (link : node) : raising (list category) :=
  let href := default EmptyString (get_href link) in
  match urljoin base_url href with
  | Returns full_url => Returns (category_pick categories link full_url)
  | Raises => Raises
  end.

Definition _find_category_links (soup : node) (base_url : string)
  : raising (list category) :=
  match fold_raising (category_step base_url) (find_all soup Q_anchor_href) []
  with
  | Returns categories => Returns (firstn 8 categories)
  | Raises => Raises
  end.

Definition _is_single_job_page (soup : node) : bool :=
  if is_some (find soup Q_ul_jobs)
     && (0 <? length (select soup (css "ul[id='jobs'] li")))
  then false
  else if is_some (find soup Q_testid_detail)
          || is_some (find soup Q_section_main)
          || is_some (find soup Q_article)
          || is_some (find soup Q_div_detail)
  then true
  else (2 <? length (find_all soup Q_job_content))
       && (length (_find_job_cards soup) =? 0).

(** [_classify_page_type]; its call of [_find_category_links] has the
    empty string for base. *)
Definition _classify_page_type (soup : node) (url : string)
  : raising page_type :=
  let text := lower (get_text soup) in
  if any_in info_keywords text && (length (_find_job_cards soup) =? 0)
  then Returns CAREER_INFO
  else if (str_in "#/job" url || str_in "#search" url
           || str_in "myworkday" url || str_in "taleo" url)
          && (length (_find_job_cards soup) =? 0)
  then Returns JOB_SEARCH_APP
  else if _is_single_job_page soup then Returns JOB_DETAIL
  else if 0 <? length (_find_job_cards soup) then Returns JOB_LISTING
  else
    match _find_category_links soup EmptyString with
    | Returns categories =>
        if 0 <? length categories then Returns CAREER_GATEWAY
        else Returns OTHER
    | Raises => Raises
    end.

(** *** Extraction of one record *)

Definition _is_apply_page (soup : node) : bool :=
  if 1 <? length (find_all soup Q_form) then true
  else any_in ["provide your contact information"; "upload resume";
               "application form"; "recaptcha"]
         (lower (get_text soup)).

(** [max(content_divs, key=lambda x: len(x.get_text()))]: the first
    of the longest. *)
Fixpoint max_by_text (best : node) (rest : list node) : node :=
  match rest with
  | [] => best
  | x :: rest' =>
      if len (get_text best) <? len (get_text x)
      then max_by_text x rest' else max_by_text best rest'
  end.

Definition _find_job_container (soup : node) : option node :=
  match first_some (select_one soup)
          (map css
             ["[data-testid*='job-detail']"; "section[role='main']";
              "article"; "main";
              "div[class*='job-detail']"; "div[class*='position-detail']";
              "div[class*='job-content']"; "div[class*='opening-detail']"])
  with
  | Some container => Some container
  | None =>
      match find_all soup Q_content_divs with
      | [] => None
      | d :: ds => Some (max_by_text d ds)
      end
  end.

(** The loops of [_extract_job_title]: the first selector whose
    element has a non-empty, valid stripped text. *)
Definition title_of (container : node) (selector : string) : option string :=
  match select_one container selector with
  | Some element =>
      let title := strip (get_text element) in
      if negb (is_empty title) && negb (_is_invalid_title title)
      then Some title else None
  | None => None
  end.

Definition _extract_job_title (container : node) : string :=
  match first_some (title_of container)
          (map css
             ["h1[data-automation-id='jobPostingHeader']";
              "h2[class*='JobTitle']";
              "[data-automation-id*='jobTitle']"])
  with
  | Some title => title
  | None =>
      match first_some (title_of container)
              (map css
                 ["h1[data-testid*='job-title']"; "h1[class*='job-title']";
                  "h1[class*='position-title']"; "[data-testid*='job-title']";
                  "h1"; "h2[class*='job']";
                  "[role='heading'][aria-level='1']"])
      with
      | Some title => title
      | None => "Job Title Not Available"
      end
  end.

Definition location_of (container : node) (selector : string)
  : option string :=
  match select_one container selector with
  | Some el =>
      let loc := strip (get_text el) in
      if _is_valid_location loc then Some loc else None
  | None => None
  end.

(** The proximity check of [_extract_location]: the sibling that
    follows the title element. *)
Definition sibling_location (container : node) : option string :=
  match first_some (select_one container)
          (map css ["h1"; "h2"; "h3"; "[data-testid*='job-title']";
                    "[class*='job-title']"])
  with
  | Some title_elem =>
      match find_next_sibling title_elem with
      | Some sib =>
          let sib_text := strip (get_text sib) in
          if (2 <? len sib_text) && (len sib_text <? 50)
             && negb (any_in ["apply"; "job"] (lower sib_text))
             && (str_in "," sib_text || _is_valid_location sib_text)
          then Some sib_text else None
      | None => None
      end
  | None => None
  end.

Definition _extract_location (container : node) : string :=
  match first_some (location_of container)
          (map css ["[data-automation-id='locations']";
                    "div[class*='Location']";
                    "span[data-automation-id*='location']"])
  with
  | Some loc => loc
  | None =>
      match sibling_location container with
      | Some sib_text => sib_text
      | None =>
          match first_some (location_of container)
                  (map css ["[data-testid*='location']"; "[class*='location']";
                            "[class*='job-location']";
                            "span[class*='location']";
                            "div[class*='location']"])
          with
          | Some loc => loc
          | None =>
              let text := get_text container in
              match first_some (fun p => re_search p text)
                      ["\b([A-Z][a-z]+,\s*[A-Z]{2})\b";
                       "\b([A-Z][a-z]+,\s*[A-Z][a-z]+)\b";
                       "\b(Remote)\b"]
              with
              | Some group1 => group1
              | None => "Location not specified"
              end
          end
      end
  end.

Definition _clean_description (text : string) : string :=
  let soup := parse text in
  let text := get_text_sep " " soup in
  let text := re_sub "\s+" " " false text in
  let text := re_sub "apply now.*?$" "" true text in
  strip text.

Definition _extract_description (container : node) : string :=
  match first_some (select_one container)
          (map css ["[data-automation-id='jobPostingDescription']";
                    "div[class*='JobDescription']";
                    "div[data-automation-id*='description']"])
  with
  | Some el => _clean_description (get_text_sep " " el)
  | None =>
      match first_some (select_one container)
              (map css ["[data-testid*='description']";
                        "[class*='job-description']";
                        "[class*='description']"; "[class*='job-details']";
                        "[class*='job-content']";
                        "div[id*='description']";
                        "section[id*='description']"])
      with
      | Some el => _clean_description (get_text_sep " " el)
      | None =>
          match find_all container Q_job_sections with
          | section :: _ =>
              match find_parent_block section with
              | Some parent => _clean_description (get_text_sep " " parent)
              | None => "Job description not available"
              end
          | [] => "Job description not available"
          end
      end
  end.

(** The separator of [_extract_responsibilities], a bullet (U+2022)
    between spaces, is outside Latin-1 and stands here as [" * "]. *)
Definition bullet_sep : string := " * ".

Definition _extract_responsibilities (container : node) : string :=
  match find_all container Q_resp_headers with
  | header :: _ =>
      match find_next_block header with
      | Some resp_section =>
          let text := get_text_sep bullet_sep resp_section in
          let soup := parse text in
          let text := get_text_sep bullet_sep soup in
          if 500 <? len text then take 500 text else text
      | None => EmptyString
      end
  | [] => EmptyString
  end.

Definition skills_patterns : list string :=
  ["\b(Python|Java|JavaScript|TypeScript|C\+\+|C#|Ruby|PHP|Go|Rust|Kotlin|Swift)\b";
   "\b(React|Angular|Vue|Django|Flask|Spring|Node\.js|Express)\b";
   "\b(AWS|Azure|GCP|Docker|Kubernetes|Git|Jenkins)\b";
   "\b(SQL|MySQL|PostgreSQL|MongoDB|Redis|Elasticsearch)\b"].

Definition _extract_skills (description : string) : list string :=
  list_of_set (flat_map (fun p => re_findall p description) skills_patterns).

Definition company_of (container : node) (selector : string) : option string :=
  match select_one container selector with
  | Some el =>
      if 1 <? len (get_text el) then Some (strip (get_text el)) else None
  | None => None
  end.

Definition _extract_company (container : node) (job_url : string)
  : raising string :=
  match first_some (company_of container)
          (map css ["[data-testid*='company']"; "[class*='company']";
                    "[class*='employer']"])
  with
  | Some c => Returns c
  | None =>
      match urlparse job_url with
      | Some parsed =>
          let domain := url_netloc parsed in
          Returns (str_title (before "." (replace "www." EmptyString domain)))
      | None => Raises
      end
  end.

Definition _extract_employment_type (container : node) (description : string)
  : string :=
  let text := lower (get_text container +:+ " " +:+ description) in
  if str_in "workplace type: remote" text then "Remote"
  else if str_in "workplace type: on-site" text
          || str_in "workplace type: onsite" text then "On-site"
  else if str_in "workplace type: hybrid" text then "Hybrid"
  else if str_in "remote" text then "Remote"
  else if str_in "part-time" text || str_in "part time" text then "Part-time"
  else if str_in "contract" text || str_in "temporary" text then "Contract"
  else "Full-time".

(** One address part of [_create_job_from_json_ld]: what the loop
    appends to [parts] for it, a non-empty string or the truthy [name]
    of a dictionary, whatever its type. *)
Definition ld_part_value (p : ld_part) : list pyval :=
  match p with
  | PartStr s => if is_empty s then [] else [PStr s]
  | PartDict (Some name) => if truthy name then [name] else []
  | PartDict None => []
  | PartOther => []
  end.

(** [", ".join(parts)], which raises [TypeError] when a part is not a
    string. *)
Fixpoint join_values (parts : list pyval) : raising (list string) :=
  match parts with
  | [] => Returns []
  | PStr s :: rest =>
      match join_values rest with
      | Returns strs => Returns (s :: strs)
      | Raises => Raises
      end
  | POther _ :: _ => Raises
  end.

Definition ld_location_text (job_location : ld_location) : raising string :=
  let of_address (address : ld_address) : raising string :=
    match address with
    | AddrAbsent => Returns (join ", " [])
    | AddrDict l r c =>
        match join_values (ld_part_value l ++ ld_part_value r
                           ++ ld_part_value c) with
        | Returns parts => Returns (join ", " parts)
        | Raises => Raises
        end
    | AddrStr s => Returns s
    | AddrOther => Returns "Location not specified"
    end in
  match job_location with
  | LocAbsent => of_address AddrAbsent
  | LocDict address => of_address address
  | LocStr s => Returns s
  | LocOther => Returns "Location not specified"
  end.

(** [_create_job_from_json_ld]: [_extract_skills(description)] raises
    [TypeError], from [re.findall], when the description is not a
    string. *)
Definition _create_job_from_json_ld (json_data : ld_posting)
    (job_url : string) : raising record :=
  let title := default (PStr EmptyString) (ld_title json_data) in
  match ld_location_text (ld_jobLocation json_data) with
  | Raises => Raises
  | Returns location =>
      let company :=
        match ld_hiringOrganization json_data with
        | OrgDict (Some name) => name
        | OrgDict None | OrgAbsent | OrgOther =>
            PStr "Company not specified"
        end in
      let description :=
        default (PStr "Job description not available")
          (ld_description json_data) in
      let employment_type :=
        default (PStr "Full-time") (ld_employmentType json_data) in
      match description with
      | PStr description =>
          Returns {| rec_title := title;
                     rec_company := company;
                     rec_location := location;
                     rec_experience := employment_type;
                     rec_description := description;
                     rec_responsibilities := EmptyString;
                     rec_skills := _extract_skills description;
                     rec_source_url := job_url |}
      | POther _ => Raises
      end
  end.

(** [_extract_job_url_from_card]: [None] also when the anchor has no
    or an empty [href]. *)
Definition _extract_job_url_from_card (card : node) (base_url : string)
  : raising (option string) :=
  match find card Q_anchor with
  | Some link =>
      match get_href link with
      | Some href =>
          if is_empty href then Returns None
          else match urljoin base_url href with
               | Returns url => Returns (Some (_get_job_detail_url url))
               | Raises => Raises
               end
      | None => Returns None
      end
  | None => Returns None
  end.

(** One iteration of the loop of [_find_job_links], once [urljoin] has
    returned [url]: the state is [(links, seen)]. *)
Definition job_link_pick (st : list string * gset string) (a : node)
    (url : string) : list string * gset string :=
  let '(links, seen) := st in
  let href := default EmptyString (get_href a) in
  if bool_decide (url ∈ seen) then st
  else if str_in "/job/" href || str_in "/career/" href
          || str_in "/position/" href || str_in "/vacancy/" href
  then (links ++ [_get_job_detail_url url], {[url]} ∪ seen)
  else if any_in ["engineer"; "manager"; "developer"] (lower (get_text a))
          && (len (get_text a) <? 50)
  then (links ++ [_get_job_detail_url url], {[url]} ∪ seen)
  else st.

Definition job_link_step (base_url : string)
    (st : list string * gset string) (a : node)
  : raising (list string * gset string) :=
  let href := default EmptyString (get_href a) in
  match urljoin base_url href with
  | Returns url => Returns (job_link_pick st a url)
  | Raises => Raises
  end.

Definition _find_job_links (soup : node) (base_url : string)
  : raising (list string) :=
  match fold_raising (job_link_step base_url) (find_all soup Q_anchor_href)
          ([], ∅)
  with
  | Returns st => Returns (fst st)
  | Raises => Raises
  end.

(** [_detect_and_fill_filters]: [query_params] is the dictionary in
    insertion order; [urlparse(base_url)] is called once filters are
    found. *)
Definition _detect_and_fill_filters (soup : node) (base_url country : string)
  : raising (option string) :=
  if is_empty country then Returns None
  else
    let attr_strs := map (fun i => lower (attrs_str i)) (find_all soup Q_inputs) in
    let has_location :=
      existsb (fun a => str_in "location" a || str_in "place" a
                        || str_in "country" a) attr_strs in
    let has_keyword :=
      existsb (fun a => str_in "keyword" a || str_in "search" a
                        || str_in "q=" a) attr_strs in
    if negb (has_location || has_keyword) then Returns None
    else
      match urlparse base_url with
      | None => Raises
      | Some parsed =>
          let query_params :=
            (if has_location
             then [("location", country); ("loc", country);
                   ("country", country)]
             else [])
            ++ (if has_keyword
                then [("q", country); ("keywords", country)] else []) in
          let new_query := urlencode query_params in
          if negb (is_empty (url_query parsed))
          then Returns (Some (base_url +:+ "&" +:+ new_query))
          else Returns (Some (base_url +:+ "?" +:+ new_query))
      end.

End Pages.

(** *** The scraper object, the fetchers and their effects

    [trace] is not a field of the Python object: it records, most recent
    first, each call of a fetcher and each entry into [_recursive_crawl],
    so that properties of a crawl session can be stated.  [EvScan],
    [EvLight] and [EvDetail] are the three call sites of the light tier
    ([crawler.arun] in [extract_jobs_from_site], [_recursive_crawl] and
    [_extract_single_job_from_url]); [EvHeavy] is a browser launch in
    [_extract_with_selenium]. *)

Inductive event :=
| EvScan (url : string)
| EvVisit (url : string) (depth : nat)
| EvLight (url : string)
| EvDetail (url : string)
| EvHeavy (url : string).

Record scraper := mk_scraper {
  seen_urls : gset string;
  visited_gateways : gset string;
  rejected_urls : gset string;
  visited_urls : gset string;
  visited_job_urls : gset string;
  used_selenium_for_url : gmap string bool;
  trace : list event
}.

(** What [await crawler.arun(...)] does: raise, or return a result with
    its [success] flag and [html]. *)
Inductive arun_result :=
| ArunRaises
| ArunResult (success : bool) (html : string).

(** What a browser session of [_extract_with_selenium] ends in: the
    function returns [driver.page_source], or the empty string when its
    [try] block failed; or an exception leaves it, raised by
    [driver.quit()] in the [finally] clause, which no [except] covers. *)
Inductive selenium_result :=
| SeleniumReturns (html : string)
| SeleniumRaises.

(** The web as the fetchers see it.  Every answer may depend on what the
    session has fetched so far. *)
Class World := {
  (** whether [AsyncWebCrawler.__aenter__] returns (rather than raises) *)
  crawler_enter : bool;
  (** whether [AsyncWebCrawler.__aexit__] returns *)
  crawler_exit : list event -> bool;
  (** [crawler.arun(url=url, word_count_threshold=n, ...)], with the
      JavaScript delay when the flag is set *)
  arun : list event -> string -> bool -> nat -> arun_result;
  (** the browser session of [_extract_with_selenium] for a URL *)
  selenium_session : list event -> string -> selenium_result
}.

(** A computation on the scraper object either returns a value, or
    raises a Python exception, or runs out of the fuel that bounds the
    recursion of [_recursive_crawl] in this model. *)
Inductive outcome (A : Type) :=
| Ok (a : A)
| Raised
| NoFuel.
Arguments Ok {A} a.
Arguments Raised {A}.
Arguments NoFuel {A}.

Definition M (A : Type) : Type := scraper -> outcome A * scraper.

Definition ret {A : Type} (a : A) : M A := fun s => (Ok a, s).

Definition bind {A B : Type} (m : M A) (k : A -> M B) : M B :=
  fun s =>
    match m s with
    | (Ok a, s') => k a s'
    | (Raised, s') => (Raised, s')
    | (NoFuel, s') => (NoFuel, s')
    end.

Definition get : M scraper := fun s => (Ok s, s).

Definition modify (f : scraper -> scraper) : M unit := fun s => (Ok tt, f s).

(** A call without effect on the scraper object, inside a
    computation. *)
Definition lift {A : Type} (r : raising A) : M A :=
  fun s =>
    match r with
    | Returns a => (Ok a, s)
    | Raises => (Raised, s)
    end.

(** [try: body except Exception: handler] *)
Definition try_except {A : Type} (body handler : M A) : M A :=
  fun s =>
    match body s with
    | (Raised, s') => handler s'
    | r => r
    end.

Notation "x <- c1 ;; c2" := (bind c1 (fun x => c2))
  (at level 100, c1 at next level, right associativity).
Notation "c1 ;; c2" := (bind c1 (fun _ => c2))
  (at level 100, right associativity).

Definition log (e : event) (s : scraper) : scraper :=
  {| seen_urls := seen_urls s; visited_gateways := visited_gateways s;
     rejected_urls := rejected_urls s; visited_urls := visited_urls s;
     visited_job_urls := visited_job_urls s;
     used_selenium_for_url := used_selenium_for_url s;
     trace := e :: trace s |}.

Definition add_seen_url (url : string) (s : scraper) : scraper :=
  {| seen_urls := {[url]} ∪ seen_urls s;
     visited_gateways := visited_gateways s;
     rejected_urls := rejected_urls s; visited_urls := visited_urls s;
     visited_job_urls := visited_job_urls s;
     used_selenium_for_url := used_selenium_for_url s;
     trace := trace s |}.

Definition add_visited_gateway (url : string) (s : scraper) : scraper :=
  {| seen_urls := seen_urls s;
     visited_gateways := {[url]} ∪ visited_gateways s;
     rejected_urls := rejected_urls s; visited_urls := visited_urls s;
     visited_job_urls := visited_job_urls s;
     used_selenium_for_url := used_selenium_for_url s;
     trace := trace s |}.

Definition add_visited_url (url : string) (s : scraper) : scraper :=
  {| seen_urls := seen_urls s; visited_gateways := visited_gateways s;
     rejected_urls := rejected_urls s;
     visited_urls := {[url]} ∪ visited_urls s;
     visited_job_urls := visited_job_urls s;
     used_selenium_for_url := used_selenium_for_url s;
     trace := trace s |}.

Definition add_visited_job_url (url : string) (s : scraper) : scraper :=
  {| seen_urls := seen_urls s; visited_gateways := visited_gateways s;
     rejected_urls := rejected_urls s; visited_urls := visited_urls s;
     visited_job_urls := {[url]} ∪ visited_job_urls s;
     used_selenium_for_url := used_selenium_for_url s;
     trace := trace s |}.

Definition mark_selenium (url : string) (s : scraper) : scraper :=
  {| seen_urls := seen_urls s; visited_gateways := visited_gateways s;
     rejected_urls := rejected_urls s; visited_urls := visited_urls s;
     visited_job_urls := visited_job_urls s;
     used_selenium_for_url := <[url := true]> (used_selenium_for_url s);
     trace := trace s |}.

(** The resets at the head of [extract_jobs_from_site];
    [visited_gateways] and [rejected_urls] are not reset there.  The
    trace starts afresh with the session. *)
Definition reset_guards (s : scraper) : scraper :=
  {| seen_urls := ∅; visited_gateways := visited_gateways s;
     rejected_urls := rejected_urls s; visited_urls := ∅;
     visited_job_urls := ∅; used_selenium_for_url := ∅;
     trace := [] |}.

(** [ExpertJobScraper()] *)
Definition new_scraper : scraper :=
  {| seen_urls := ∅; visited_gateways := ∅; rejected_urls := ∅;
     visited_urls := ∅; visited_job_urls := ∅;
     used_selenium_for_url := ∅; trace := [] |}.

Definition MAX_DEPTH : nat := 2.

Definition newline : string := String "010"%char EmptyString.

Section Crawl.
Context {node : Type} `{Dom node} `{PyLib} `{World}.

(** [await crawler.arun(...)] at the call site [site]. *)
Definition crawler_arun (site : string -> event) (url : string)
    (spa : bool) (word_count_threshold : nat) : M (bool * string) :=
  fun s =>
    match arun (trace s) url spa word_count_threshold with
    | ArunRaises => (Raised, log (site url) s)
    | ArunResult success html => (Ok (success, html), log (site url) s)
    end.

(** [async with AsyncWebCrawler(...) as crawler: body] *)
Definition async_with_crawler {A : Type} (body : M A) : M A :=
  fun s =>
    if crawler_enter then
      match body s with
      | (Ok a, s') =>
          if crawler_exit (trace s') then (Ok a, s') else (Raised, s')
      | r => r
      end
    else (Raised, s).

(** [_extract_with_selenium]: the guards, the mark, then the browser
    session. *)
Definition _extract_with_selenium (url : string) : M string :=
  fun s =>
    if should_skip_url url then (Ok EmptyString, s)
    else if bool_decide (used_selenium_for_url s !! url = Some true)
    then (Ok EmptyString, s)
    else
      match selenium_session (trace s) url with
      | SeleniumReturns html =>
          (Ok html, log (EvHeavy url) (mark_selenium url s))
      | SeleniumRaises => (Raised, log (EvHeavy url) (mark_selenium url s))
      end.

Definition _extract_single_job (job_url : string) (soup : node)
  : M (option record) :=
  s <- get ;;
  if bool_decide (job_url ∈ visited_job_urls s) then ret None
  else
    modify (add_visited_job_url job_url) ;;
    if _is_apply_page soup then ret None
    else
      let job_container := default soup (_find_job_container soup) in
      match _extract_json_ld soup with
      | Some json_ld_data =>
          job_data <- lift (_create_job_from_json_ld json_ld_data job_url) ;;
          ret (Some job_data)
      | None =>
          let title := _extract_job_title job_container in
          if _is_invalid_title title then ret None
          else
            let location := _extract_location job_container in
            let description := _extract_description job_container in
            let responsibilities := _extract_responsibilities job_container in
            let skills := _extract_skills description in
            company <- lift (_extract_company job_container job_url) ;;
            let employment_type :=
              _extract_employment_type job_container description in
            ret (Some {| rec_title := PStr title;
                         rec_company := PStr company;
                         rec_location := location;
                         rec_experience := PStr employment_type;
                         rec_description := description;
                         rec_responsibilities := responsibilities;
                         rec_skills := skills;
                         rec_source_url := job_url |})
      end.

(** [_extract_single_job_from_url]: the whole body is under [try],
    with a bare [except]. *)
Definition _extract_single_job_from_url (job_url : string)
  : M (option record) :=
  try_except
    (let is_spa := _is_spa_url job_url in
     result <- crawler_arun EvDetail job_url is_spa 50 ;;
     let '(success, html) := result in
     if success then _extract_single_job job_url (parse html)
     else ret None)
    (ret None).

(** The body shared by the two loops of [_extract_from_job_listing],
    once a candidate URL has passed their guards; the state is
    [(jobs, visited)].  The validator runs outside any [try]. *)
Definition scrape_candidate (country job_url : string)
    (st : list job * gset string) : M (list job * gset string) :=
  let '(jobs, visited) := st in
  job_data <- _extract_single_job_from_url job_url ;;
  match job_data with
  | Some job_data =>
      accepted <- lift (accepted_job job_data country) ;;
      ret (match accepted with
           | Some j => jobs ++ [j]
           | None => jobs
           end,
           {[job_url]} ∪ visited)
  | None => ret (jobs, {[job_url]} ∪ visited)
  end.

Fixpoint scrape_cards (site_url country : string) (cards : list node)
    (st : list job * gset string) : M (list job * gset string) :=
  match cards with
  | [] => ret st
  | card :: rest =>
      job_url <- lift (_extract_job_url_from_card card site_url) ;;
      match job_url with
      | Some job_url =>
          if negb (is_empty job_url)
             && negb (bool_decide (job_url ∈ snd st))
             && negb (_is_apply_url job_url)
          then st' <- scrape_candidate country job_url st ;;
               scrape_cards site_url country rest st'
          else scrape_cards site_url country rest st
      | None => scrape_cards site_url country rest st
      end
  end.

Fixpoint scrape_links (country : string) (links : list string)
    (st : list job * gset string) : M (list job * gset string) :=
  match links with
  | [] => ret st
  | link :: rest =>
      if negb (bool_decide (link ∈ snd st)) && negb (_is_apply_url link)
      then st' <- scrape_candidate country link st ;;
           scrape_links country rest st'
      else scrape_links country rest st
  end.

Definition _extract_from_job_listing (site_url : string) (soup : node)
    (country : string) : M (list job) :=
  let job_cards := _find_job_cards soup in
  st <- scrape_cards site_url country (firstn 15 job_cards) ([], ∅) ;;
  if length (fst st) <? 3 then
    links <- lift (_find_job_links soup site_url) ;;
    st' <- scrape_links country (firstn 10 links) st ;;
    ret (fst st')
  else ret (fst st).

(** *** The crawl controller *)

(** The loop [for cat in category_links] of [_recursive_crawl];
    [self] is the recursive call. *)
Fixpoint crawl_categories (self : string -> nat -> M (list job))
    (depth : nat) (category_links : list category) (all_jobs : list job)
  : M (list job) :=
  match category_links with
  | [] => ret all_jobs
  | cat :: rest =>
      s <- get ;;
      if negb (bool_decide (cat_url cat ∈ visited_gateways s))
      then jobs <- self (cat_url cat) (depth + 1) ;;
           crawl_categories self depth rest (all_jobs ++ jobs)
      else crawl_categories self depth rest all_jobs
  end.

(** Lines 396-435 of [_recursive_crawl]: the light fetch and the
    Selenium fallback.  [None] is the early [return []]. *)
Definition load_page (url : string) : M (option node) :=
  let is_spa := _is_spa_url url in
  result <- crawler_arun EvLight url is_spa 10 ;;
  let '(success, html) := result in
  if negb success then ret None
  else
    let soup := parse html in
    let text_content := get_text_sep EmptyString soup in
    let word_count := PyStr.word_count text_content in
    if is_spa || (word_count <? 100)
       || str_in "enable javascript" (lower text_content)
       || str_in "please enable" (lower text_content)
    then
      selenium_html <- _extract_with_selenium url ;;
      if negb (is_empty selenium_html)
      then ret (Some (parse selenium_html))
      else if word_count <? 50 then ret None
      else ret (Some soup)
    else ret (Some soup).

(** Lines 437-523 of [_recursive_crawl]: classification of the page
    and the branch for each page type. *)
Definition crawl_dispatch (self : string -> nat -> M (list job))
    (url country : string) (depth : nat) (soup : node) : M (list job) :=
  page_type <- lift (_classify_page_type soup url) ;;
  match page_type with
  | CAREER_INFO => ret []
  | JOB_SEARCH_APP => _extract_from_job_listing url soup country
  | JOB_DETAIL =>
      job_data <- _extract_single_job url soup ;;
      match job_data with
      | Some job_data =>
          accepted <- lift (accepted_job job_data country) ;;
          match accepted with
          | Some j => ret [j]
          | None => ret []
          end
      | None => ret []
      end
  | JOB_LISTING =>
      extracted_jobs <- _extract_from_job_listing url soup country ;;
      if length extracted_jobs =? 0 then
        category_links <- lift (_find_category_links soup url) ;;
        if 0 <? length category_links then
          all_jobs <- crawl_categories self depth category_links [] ;;
          ret (_deduplicate_jobs all_jobs)
        else ret extracted_jobs
      else ret extracted_jobs
  | CAREER_GATEWAY =>
      modify (add_visited_gateway url) ;;
      category_links <- lift (_find_category_links soup url) ;;
      all_jobs <- crawl_categories self depth category_links [] ;;
      direct_jobs <- _extract_from_job_listing url soup country ;;
      ret (_deduplicate_jobs (all_jobs ++ direct_jobs))
  | OTHER =>
      jobs <- _extract_from_job_listing url soup country ;;
      if length jobs =? 0 then
        category_links <- lift (_find_category_links soup url) ;;
        if 0 <? length category_links then
          all_jobs <- crawl_categories self depth category_links [] ;;
          ret (_deduplicate_jobs all_jobs)
        else ret jobs
      else ret jobs
  end.

(** The body of [_recursive_crawl], with [self] for the recursive
    call. *)
Definition crawl_body (self : string -> nat -> M (list job))
    (url country : string) (depth : nat) : M (list job) :=
  modify (log (EvVisit url depth)) ;;
  if MAX_DEPTH <? depth then ret []
  else
    s <- get ;;
    if bool_decide (url ∈ visited_urls s) then ret []
    else
      modify (add_visited_url url) ;;
      if should_skip_url url then ret []
      else if 3 <? depth then ret []
      else
        s <- get ;;
        if bool_decide (url ∈ seen_urls s)
           || bool_decide (url ∈ visited_gateways s)
        then ret []
        else
          modify (add_seen_url url) ;;
          try_except
            (page <- load_page url ;;
             match page with
             | Some soup => crawl_dispatch self url country depth soup
             | None => ret []
             end)
            (ret []).

Fixpoint crawl (fuel : nat) (country : string) (url : string) (depth : nat)
  : M (list job) :=
  match fuel with
  | O => fun s => (NoFuel, s)
  | S fuel' => crawl_body (crawl fuel' country) url country depth
  end.

(** [_recursive_crawl(url, country, crawler, depth)].  A call at depth
    [d] nests at most [MAX_DEPTH + 1 - d] further calls. *)
Definition _recursive_crawl (url country : string) (depth : nat)
  : M (list job) :=
  crawl (S (S MAX_DEPTH - depth)) country url depth.

(** *** The entry point *)

(** The record built for one card in the [except] branch of
    [extract_jobs_from_site]; the body of that loop is under [try] with
    a bare [except] that goes on to the next card. *)
Definition emergency_card_job (clean_url : string) (card : node)
  : option job :=
  let title := before newline (strip (get_text card)) in
  let title :=
    match find card Q_card_title with
    | Some title_el => strip (get_text title_el)
    | None => title
    end in
  match _extract_job_url_from_card card clean_url with
  | Returns (Some job_url) =>
      if is_empty job_url then None
      else Some {| job_title := title;
                   company := "Unknown - Extracted from Listing";
                   location := "See Job Link";
                   experience := PStr "See Job Link";
                   job_description :=
                     "Extracted via Selenium Fallback (Listing Only). Please visit link for details.";
                   responsibilities := EmptyString;
                   skills := [];
                   source_url := job_url;
                   job_id := None |}
  | Returns None | Raises => None
  end.

Definition emergency_link_job (link : string) : job :=
  {| job_title := "Job Link Found";
     company := "Unknown";
     location := "Unknown";
     experience := PStr "Unknown";
     job_description := "Link extracted via Selenium Fallback";
     responsibilities := EmptyString;
     skills := [];
     source_url := link;
     job_id := None |}.

(** The [except] branch of [extract_jobs_from_site]; nothing covers
    its calls of [_extract_with_selenium] and [_find_job_links]. *)
Definition emergency_extraction (site_url : string) : M (list job) :=
  let clean_url := _get_job_detail_url site_url in
  selenium_html <- _extract_with_selenium clean_url ;;
  if negb (is_empty selenium_html) then
    let soup := parse selenium_html in
    let job_cards := _find_job_cards soup in
    let fallback_jobs :=
      flat_map (fun card => option_list (emergency_card_job clean_url card))
        job_cards in
    if length fallback_jobs =? 0 then
      links <- lift (_find_job_links soup clean_url) ;;
      ret (map emergency_link_job (firstn 10 links))
    else ret fallback_jobs
  else ret [].

(** Lines 127-150: the filtered crawl, its rollback and the plain
    crawl. *)
Definition crawl_from (scan_soup : node) (clean_url country : string)
  : M (list job) :=
  search_url <- lift (_detect_and_fill_filters scan_soup clean_url country) ;;
  match search_url with
  | Some search_url =>
      jobs <- _recursive_crawl search_url country 0 ;;
      if length jobs =? 0 then _recursive_crawl clean_url country 0
      else ret jobs
  | None => _recursive_crawl clean_url country 0
  end.

(** The block under [async with] in [extract_jobs_from_site]. *)
Definition crawl_site (site_url country : string) : M (list job) :=
  let clean_url := _get_job_detail_url site_url in
  if should_skip_url clean_url then ret []
  else
    let is_spa := _is_spa_url clean_url in
    scan_result <- crawler_arun EvScan clean_url is_spa 10 ;;
    let '(success, html) := scan_result in
    scan_soup <-
      (if success then
         let scan_soup := parse html in
         let text_content := get_text_sep EmptyString scan_soup in
         let word_count := PyStr.word_count text_content in
         if (word_count <? 100) || (len text_content <? 500)
            || str_in "enable javascript" (lower text_content)
            || str_in "please enable" (lower text_content)
         then
           selenium_html <- _extract_with_selenium clean_url ;;
           if negb (is_empty selenium_html)
           then ret (Some (parse selenium_html))
           else ret (Some scan_soup)
         else ret (Some scan_soup)
       else ret None) ;;
    match scan_soup with
    | Some scan_soup => crawl_from scan_soup clean_url country
    | None =>
        selenium_html <- _extract_with_selenium clean_url ;;
        if negb (is_empty selenium_html)
        then crawl_from (parse selenium_html) clean_url country
        else ret []
    end.

(** [extract_jobs_from_site(site_url, country)] *)
Definition extract_jobs_from_site (site_url country : string)
  : M (list job) :=
  modify reset_guards ;;
  try_except
    (async_with_crawler (crawl_site site_url country))
    (emergency_extraction site_url).

End Crawl.
End ExpertJobScraper.

(** ** Vocabulary for properties of a crawl session *)

Module CrawlSpec.
Import ExpertJobScraper.

(** URLs fetched by [_recursive_crawl] itself, most recent first. *)
Fixpoint light_urls (t : list event) : list string :=
  match t with
  | [] => []
  | EvLight u :: t' => u :: light_urls t'
  | _ :: t' => light_urls t'
  end.

(** URLs given to [crawler.arun] at any of its three call sites. *)
Fixpoint arun_urls (t : list event) : list string :=
  match t with
  | [] => []
  | EvScan u :: t' | EvLight u :: t' | EvDetail u :: t' => u :: arun_urls t'
  | _ :: t' => arun_urls t'
  end.

(** URLs for which a browser was launched. *)
Fixpoint heavy_urls (t : list event) : list string :=
  match t with
  | [] => []
  | EvHeavy u :: t' => u :: heavy_urls t'
  | _ :: t' => heavy_urls t'
  end.

(** Every entry into [_recursive_crawl] is at depth [MAX_DEPTH + 1] at
    most, and every fetch of [_recursive_crawl] directly follows the
    entry of a call for the same URL at depth [MAX_DEPTH] at most. *)
Fixpoint trace_ok (t : list event) : Prop :=
  match t with
  | [] => True
  | EvVisit _ d :: t' => d <= S MAX_DEPTH /\ trace_ok t'
  | EvLight u :: t' =>
      match t' with
      | EvVisit u' d :: _ => u' = u /\ d <= MAX_DEPTH
      | _ => False
      end /\ trace_ok t'
  | _ :: t' => trace_ok t'
  end.

(** What holds of the scraper object throughout a session. *)
Record session_ok (s : scraper) : Prop := {
  ok_trace : trace_ok (trace s);
  ok_light_once : NoDup (light_urls (trace s));
  ok_light_visited :
    forall u, u ∈ light_urls (trace s) -> u ∈ visited_urls s;
  ok_heavy_once : NoDup (heavy_urls (trace s));
  ok_heavy_marked :
    forall u, u ∈ heavy_urls (trace s) ->
              used_selenium_for_url s !! u = Some true
}.

(** Every record of the list passed the validator. *)
Definition valid_jobs (country : string) (jobs : list job) : Prop :=
  Forall (fun j => _validate_job j country = true) jobs.

(** The computation returns a value that satisfies [Q]. *)
Definition returns {A : Type} (Q : A -> Prop) (o : outcome A) : Prop :=
  match o with
  | Ok a => Q a
  | Raised | NoFuel => False
  end.

(** The computation returns a value that satisfies [Q], or raises. *)
Definition may_raise {A : Type} (Q : A -> Prop) (o : outcome A) : Prop :=
  match o with
  | Ok a => Q a
  | Raised => True
  | NoFuel => False
  end.

(** Run from [s], the computation [m] ends in a state that satisfies
    [I] with an outcome that satisfies [post]. *)
Definition run_ok {A : Type} (I : scraper -> Prop) (m : M A)
    (post : outcome A -> Prop) (s : scraper) : Prop :=
  I (snd (m s)) /\ post (fst (m s)).

Definition triple {A : Type} (I : scraper -> Prop) (m : M A)
    (post : outcome A -> Prop) : Prop :=
  forall s, I s -> run_ok I m post s.

End CrawlSpec.

(** ** A small concrete web

    A table-driven page model for running the engine on explicit inputs.
    A page is given by the answers of the BeautifulSoup calls on it; the
    light tier returns, as the HTML of a URL, the key of its page in
    [site_pages]; the browser of the heavy tier gets no page in
    [test_world], and renders the page of the URL in [browser_world]. *)

Module TestWeb.
Import PyStr ScraperFilters ExpertJobScraper.

#[warnings="-register-all"]
Inductive cnode :=
| CNode (text : string)
        (selected : list (string * list cnode))
        (found : list (bs_query * list cnode))
        (href : option string)
        (json_ld : option ld_posting).

#[global] Instance bs_query_eq_dec : EqDecision bs_query.
Proof. solve_decision. Defined.

Definition c_text (n : cnode) : string :=
  match n with CNode text _ _ _ _ => text end.

Definition c_select (n : cnode) (selector : string) : list cnode :=
  match n with
  | CNode _ selected _ _ _ =>
      match List.find (fun p => String.eqb (fst p) selector) selected with
      | Some p => snd p
      | None => []
      end
  end.

Definition c_find_all (n : cnode) (q : bs_query) : list cnode :=
  match n with
  | CNode _ _ found _ _ =>
      match List.find (fun p => bool_decide (fst p = q)) found with
      | Some p => snd p
      | None => []
      end
  end.

Definition c_href (n : cnode) : option string :=
  match n with CNode _ _ _ href _ => href end.

Definition c_json_ld (n : cnode) : option ld_posting :=
  match n with CNode _ _ _ _ json_ld => json_ld end.

(** A link [<a href=...>text</a>]. *)
Definition anchor (text href : string) : cnode :=
  CNode text [] [] (Some href) None.

(** A page with the given text and links, and nothing else. *)
Definition link_page (text : string) (links : list cnode) : cnode :=
  CNode text [] [(Q_anchor_href, links); (Q_anchor, links)] None None.

Definition empty_page : cnode := CNode EmptyString [] [] None None.

(** A hundred words, six hundred characters. *)
Definition filler : string := String.concat EmptyString (repeat "words " 100).

Definition posting : ld_posting :=
  {| ld_title := Some (PStr "Data Intern");
     ld_jobLocation := LocStr "Remote";
     ld_hiringOrganization := OrgDict (Some (PStr "Acme"));
     ld_description := Some (PStr filler);
     ld_employmentType := None |}.

(** Metadata that names the type [JobPosting] and nothing else of use:
    no title, an organization and a description that are empty. *)
Definition bare_posting : ld_posting :=
  {| ld_title := None;
     ld_jobLocation := LocAbsent;
     ld_hiringOrganization := OrgDict (Some (PStr EmptyString));
     ld_description := Some (PStr EmptyString);
     ld_employmentType := None |}.

(** A job-detail page: an [article] without links, and metadata. *)
Definition detail_page : cnode :=
  CNode filler [] [(Q_article, [CNode filler [] [] None None])] None
    (Some posting).

Definition bare_detail_page : cnode :=
  CNode filler [] [(Q_article, [CNode filler [] [] None None])] None
    (Some bare_posting).

(** A job-detail page without metadata: a heading, a company element
    that holds two spaces and a description element without text. *)
Definition blank_fields_page : cnode :=
  CNode ("Data Intern " +:+ filler)
    [("h1", [CNode "Data Intern" [] [] None None]);
     (css "[class*='company']", [CNode "  " [] [] None None]);
     (css "[class*='description']", [CNode EmptyString [] [] None None])]
    [] None None.

(** A marketing page with two links. *)
Definition culture_page : cnode :=
  link_page ("Our culture " +:+ filler)
    [anchor "careers" "https://x.com/hub"; anchor "students" "https://x.com/b"].

Definition site_pages : list (string * cnode) :=
  [("https://x.com", detail_page);
   ("https://x.com/bare", bare_detail_page);
   ("https://x.com/blank", blank_fields_page);
   ("https://x.com/culture", culture_page);
   ("https://x.com/hub",
    link_page ("careers " +:+ filler) [anchor "careers" "https://x.com/a"]);
   ("https://x.com/a",
    link_page ("students " +:+ filler) [anchor "students" "https://x.com/b"]);
   ("https://x.com/b",
    link_page ("graduates " +:+ filler) [anchor "graduates" "https://x.com/c"]);
   ("https://x.com/c", link_page filler []);
   ("https://x.com/broken", link_page filler [anchor "next" "http://["])].


(** The same record with application-form text in its description. *)
Definition application_form_job : job :=
  {| job_title := "Data Intern";
     company := "Acme";
     location := "Remote";
     experience := PStr "Full-time";
     job_description :=
       String.concat EmptyString (repeat "words " 50)
       +:+ "Please fill in the application form.";
     responsibilities := EmptyString;
     skills := ["Python"];
     source_url := "https://x.com/job/2";
     job_id := None |}.


(** The record that [detail_page] yields at "https://x.com". *)
Definition posted_job : job :=
  {| job_title := "Data Intern";
     company := "Acme";
     location := "Remote";
     experience := PStr "Full-time";
     job_description := filler;
     responsibilities := EmptyString;
     skills := [];
     source_url := "https://x.com";
     job_id := None |}.


Definition c_parse (html : string) : cnode :=
  match List.find (fun p => String.eqb (fst p) html) site_pages with
  | Some p => snd p
  | None => empty_page
  end.

#[global] Instance test_dom : Dom cnode := {|
  parse := c_parse;
  get_text := c_text;
  get_text_sep := fun _ n => strip (c_text n);
  select := c_select;
  find_all := c_find_all;
  get_href := c_href;
  attrs_str := fun _ => EmptyString;
  parent_class_str := fun _ => "[]";
  find_next_sibling := fun _ => None;
  find_next_block := fun _ => None;
  find_parent_block := fun _ => None;
  _extract_json_ld := c_json_ld
|}.

(** The library functions on the strings of this web: every [href] is
    absolute, no URL has a query, and no text matches a pattern; a URL
    with a bracket does not parse. *)
#[global] Instance test_lib : PyLib := {|
  urljoin_parsed := fun _ href =>
    if str_in "[" href then None else Some href;
  urlparse := fun url =>
    if str_in "[" url then None
    else Some {| url_netloc := before "/" (replace "https://" EmptyString url);
                 url_query := EmptyString |};
  urlencode := fun params =>
    join "&" (map (fun kv => fst kv +:+ "=" +:+ snd kv) params);
  str_title := fun s => s;
  re_search := fun _ _ => None;
  re_sub := fun _ _ _ s => s;
  re_findall := fun _ _ => [];
  list_of_set := fun l => l
|}.

#[global] Instance test_world : World := {|
  crawler_enter := true;
  crawler_exit := fun _ => true;
  arun := fun _ url _ _ => ArunResult true url;
  selenium_session := fun _ _ => SeleniumReturns EmptyString
|}.

(** The same web behind a crawler that cannot start. *)
Definition broken_world : World := {|
  crawler_enter := false;
  crawler_exit := fun _ => true;
  arun := fun _ url _ _ => ArunRaises;
  selenium_session := fun _ _ => SeleniumReturns EmptyString
|}.

(** The same web behind a light tier whose every fetch raises and a
    browser that renders the pages: the HTML of a URL is again the key
    of its page. *)
Definition browser_world : World := {|
  crawler_enter := true;
  crawler_exit := fun _ => true;
  arun := fun _ url _ _ => ArunRaises;
  selenium_session := fun _ url => SeleniumReturns url
|}.

(** ... and behind a browser whose session ends in an exception, as
    when [driver.quit()] raises. *)
Definition failing_browser_world : World := {|
  crawler_enter := true;
  crawler_exit := fun _ => true;
  arun := fun _ url _ _ => ArunRaises;
  selenium_session := fun _ _ => SeleniumRaises
|}.

End TestWeb.

(** ** Vocabulary for further properties *)

Module Invariants.
Import PyStr ScraperFilters ExpertJobScraper CrawlSpec.

Section Pages.
Context {node : Type} `{Dom node} `{PyLib}.

(** What holds of the pair [(cards, seen_texts)] throughout the loops of
    [_find_job_cards]. *)
Definition cards_ok (soup : node) (st : list node * gset string) : Prop :=
  Forall (fun e => _is_valid_job_card e = true
                   /\ strip (get_text e) <> EmptyString
                   /\ strip (get_text e) ∈ snd st
                   /\ exists sel, In sel card_selectors /\ e ∈ select soup sel)
    (fst st)
  /\ NoDup (map (fun e => strip (get_text e)) (fst st)).

(** What [category_step] requires of an anchor before it records it. *)
Definition category_href_ok (href : string) : Prop :=
  href <> EmptyString /\ href <> "#" /\ startswith href "javascript" = false
  /\ any_in ["login"; "signin"; "privacy"; "terms"] (lower href) = false.

(** The page has an anchor whose [href] makes [urljoin] raise. *)
Definition bad_href (soup : node) (base_url : string) : Prop :=
  exists a href,
    a ∈ find_all soup Q_anchor_href
    /\ get_href a = Some href /\ urljoin base_url href = Raises.

(** What makes [_extract_single_job] raise on a page that is new and
    no apply page: metadata from which no record can be built, or,
    without metadata and with a valid title, a job URL that
    [urlparse] refuses when no company element is found. *)
Definition single_job_raises (job_url : string) (soup : node) : Prop :=
  match _extract_json_ld soup with
  | Some json_ld_data =>
      _create_job_from_json_ld json_ld_data job_url = Raises
  | None =>
      _is_invalid_title
        (_extract_job_title (default soup (_find_job_container soup))) = false
      /\ _extract_company (default soup (_find_job_container soup)) job_url
         = Raises
  end.

End Pages.

Section Fetches.
Context {node : Type} `{Dom node} `{PyLib} `{World}.

(** What makes the emergency extraction raise: the browser session,
    or, on a page that gave no card record, an [href] on which
    [urljoin] raises. *)
Definition emergency_raises (site_url : string) (s : scraper) : Prop :=
  let clean_url := _get_job_detail_url site_url in
  fst (_extract_with_selenium clean_url s) = Raised
  \/ exists html,
       fst (_extract_with_selenium clean_url s) = Ok html
       /\ html <> EmptyString
       /\ flat_map (fun card => option_list (emergency_card_job clean_url card))
            (_find_job_cards (parse html)) = []
       /\ bad_href (parse html) clean_url.

(** What can make a listing extraction raise: a card whose link
    [urljoin] refuses, an anchor of the page of that kind, or a job
    page that gave a record which the validator cannot handle, its
    title or company being no string. *)
Definition listing_raise_cause (site_url country : string) (soup : node)
  : Prop :=
  (exists card,
      card ∈ _find_job_cards soup
      /\ _extract_job_url_from_card card site_url = Raises)
  \/ bad_href soup site_url
  \/ (exists job_url s r,
        fst (_extract_single_job_from_url job_url s) = Ok (Some r)
        /\ accepted_job r country = Raises).

End Fetches.

(** What holds between the state [s0] in which a listing extraction
    starts and a later state [s] of its loops, [fetched] being the URLs
    fetched so far, most recent first, and [st] the pair
    [(jobs, visited)]. *)
Definition listing_inv (s0 : scraper) (fetched : list string)
    (st : list job * gset string) (s : scraper) : Prop :=
  trace s = map EvDetail fetched ++ trace s0
  /\ NoDup fetched
  /\ (forall u, u ∈ fetched -> u ∈ snd st)
  /\ Forall (fun u => _is_apply_url u = false) fetched
  /\ length (fst st) <= length fetched
  /\ used_selenium_for_url s = used_selenium_for_url s0
  /\ visited_urls s = visited_urls s0.

(** The part of [listing_inv] that is about the scraper object. *)
Definition listing_trace (s0 : scraper) (fetched : list string)
    (s : scraper) : Prop :=
  trace s = map EvDetail fetched ++ trace s0
  /\ NoDup fetched
  /\ Forall (fun u => _is_apply_url u = false) fetched
  /\ used_selenium_for_url s = used_selenium_for_url s0
  /\ visited_urls s = visited_urls s0.

(** The result of a loop of a listing extraction: [listing_inv] when
    it returns, and [cause] when it raises. *)
Definition listing_step (s0 : scraper) (fetched : list string) (cause : Prop)
    (r : outcome (list job * gset string) * scraper) : Prop :=
  listing_trace s0 fetched (snd r)
  /\ match fst r with
     | Ok st => listing_inv s0 fetched st (snd r)
     | Raised => cause
     | NoFuel => False
     end.

(** From any state, the computation [m] gives at most [a] URLs to
    [crawler.arun] and launches at most [h] browsers, whatever its
    outcome. *)
Definition costs {A : Type} (m : M A) (a h : nat) : Prop :=
  forall s, exists new,
    trace (snd (m s)) = new ++ trace s
    /\ length (arun_urls new) <= a /\ length (heavy_urls new) <= h.

(** The number of pages that a crawl loads when [n] levels of calls
    are left to it, each page giving at most 8 category links. *)
Fixpoint pages (n : nat) : nat :=
  match n with
  | O => 0
  | S n' => 1 + 8 * pages n'
  end.

End Invariants.

(** ** The job table: [job_database.py]

    The table [jobs] is a list of rows in order of insertion.  Every row
    is written by [save_jobs], which binds Python strings to every
    column, so a column holds text.  [sqlite3] is taken to work: a file
    that cannot be opened or written is outside the model. *)

Module JobDatabase.
Import PyStr.

(** A row of [jobs]; [col_id] is the [AUTOINCREMENT] key. *)
Record row := mk_row {
  col_id : nat;
  col_job_id : string;
  col_company : string;
  col_title : string;
  col_location : string;
  col_experience : string;
  col_job_type : string;
  col_description : string;
  col_skills : string;
  col_apply_link : string;
  col_country : string;
  col_extraction_date : string;
  col_created_at : string
}.

(** The dictionary that [_save_job_profiles] builds and hands to
    [save_jobs]: these nine keys, a string under each.  For such a
    dictionary [job.get('title', job.get('job_title', ''))] is
    [job['title']], and likewise for the other keys with a fallback;
    [skills] is a string and is stored as it is. *)
Record job_data := mk_job_data {
  jd_job_id : string;
  jd_company : string;
  jd_title : string;
  jd_location : string;
  jd_experience : string;
  jd_type : string;
  jd_description : string;
  jd_skills : string;
  jd_apply_link : string
}.

(** The two clocks the code reads, as functions of the instant. *)
Class Clock := {
  strftime_now : nat -> string;
  current_timestamp : nat -> string
}.

(** The database file: the table, the largest [id] given so far
    (the table [sqlite_sequence]) and the instant, which advances with every
    statement that writes. *)
Record database := mk_database {
  jobs : list row;
  sqlite_sequence : nat;
  instant : nat
}.

Definition empty_database : database :=
  {| jobs := []; sqlite_sequence := 0; instant := 0 |}.

(** [WHERE job_id = ? AND company = ?] *)
Definition same_job (job_id company : string) (r : row) : bool :=
  String.eqb (col_job_id r) job_id && String.eqb (col_company r) company.

(** The pair that [UNIQUE(job_id, company)] ranges over. *)
Definition row_key (r : row) : string * string :=
  (col_job_id r, col_company r).

Definition job_key (job : job_data) : string * string :=
  (jd_job_id job, jd_company job).

(** The row [r] holds what [save_jobs] writes for [job] and [country]. *)
Definition stored (job : job_data) (country : string) (r : row) : Prop :=
  col_job_id r = jd_job_id job /\ col_company r = jd_company job
  /\ col_title r = jd_title job /\ col_location r = jd_location job
  /\ col_experience r = jd_experience job /\ col_job_type r = jd_type job
  /\ col_description r = jd_description job /\ col_skills r = jd_skills job
  /\ col_apply_link r = jd_apply_link job /\ col_country r = country.

(** The [n] identifiers that follow [last]. *)
Fixpoint seq_ids (last n : nat) : list nat :=
  match n with
  | O => []
  | S n' => S last :: seq_ids (S last) n'
  end.

Section Statements.
Context `{Clock}.

(** The [UPDATE] of [save_jobs] on one row. *)
Definition update_row (job : job_data) (country extraction_date : string)
    (now : nat) (r : row) : row :=
  if same_job (jd_job_id job) (jd_company job) r then
    {| col_id := col_id r;
       col_job_id := col_job_id r;
       col_company := col_company r;
       col_title := jd_title job;
       col_location := jd_location job;
       col_experience := jd_experience job;
       col_job_type := jd_type job;
       col_description := jd_description job;
       col_skills := jd_skills job;
       col_apply_link := jd_apply_link job;
       col_country := country;
       col_extraction_date := extraction_date;
       col_created_at := current_timestamp now |}
  else r.

(** The row of the [INSERT] of [save_jobs]. *)
Definition insert_row (job : job_data) (country extraction_date : string)
    (new_id now : nat) : row :=
  {| col_id := new_id;
     col_job_id := jd_job_id job;
     col_company := jd_company job;
     col_title := jd_title job;
     col_location := jd_location job;
     col_experience := jd_experience job;
     col_job_type := jd_type job;
     col_description := jd_description job;
     col_skills := jd_skills job;
     col_apply_link := jd_apply_link job;
     col_country := country;
     col_extraction_date := extraction_date;
     col_created_at := current_timestamp now |}.

(** One iteration of the loop of [save_jobs]; the state is
    [(saved_count, updated_count, db)]. *)
Definition save_job (country extraction_date : string)
    (st : nat * nat * database) (job : job_data) : nat * nat * database :=
  let '(saved_count, updated_count, db) := st in
  let existing :=
    List.find (same_job (jd_job_id job) (jd_company job)) (jobs db) in
  match existing with
  | Some _ =>
      (saved_count, updated_count + 1,
       {| jobs := map (update_row job country extraction_date (instant db))
                    (jobs db);
          sqlite_sequence := sqlite_sequence db;
          instant := S (instant db) |})
  | None =>
      (saved_count + 1, updated_count,
       {| jobs := jobs db
                  ++ [insert_row job country extraction_date (S (sqlite_sequence db))
                        (instant db)];
          sqlite_sequence := S (sqlite_sequence db);
          instant := S (instant db) |})
  end.

(** [save_jobs(jobs, country)]: the number of rows inserted, and the
    database afterwards. *)
Definition save_jobs (job_list : list job_data) (country : string)
    (db : database) : nat * database :=
  let extraction_date := strftime_now (instant db) in
  let db := {| jobs := jobs db; sqlite_sequence := sqlite_sequence db; instant := S (instant db) |} in
  let '(saved_count, _, db) :=
    fold_left (save_job country extraction_date) job_list (0, 0, db) in
  (saved_count, db).

(** [clear_all_jobs_for_country(country)]: the number of rows deleted,
    and the database afterwards. *)
Definition clear_all_jobs_for_country (country : string) (db : database)
  : nat * database :=
  let kept :=
    List.filter (fun r => negb (String.eqb (col_country r) country))
      (jobs db) in
  (length (jobs db) - length kept,
   {| jobs := kept; sqlite_sequence := sqlite_sequence db; instant := S (instant db) |}).

End Statements.
End JobDatabase.

(** ** The agent: [enhanced_serper_agent.py]

    The company search and the saving of profiles of the class
    [EnhancedJobExtractionAgent]. *)

Module EnhancedJobExtractionAgent.
Import PyStr ScraperFilters JobDatabase.

(** [str.isalpha()] on one code point below 256. *)
Definition is_alpha (c : ascii) : bool :=
  let n := N_of_ascii c in
  ((65 <=? n) && (n <=? 90) || (97 <=? n) && (n <=? 122)
   || (n =? 170) || (n =? 181) || (n =? 186)
   || (192 <=? n) && (n <=? 214) || (216 <=? n) && (n <=? 246)
   || (248 <=? n))%N.

Fixpoint all_alpha (s : string) : bool :=
  match s with
  | EmptyString => true
  | String c s' => is_alpha c && all_alpha s'
  end.

(** [s.isalpha()] *)
Definition isalpha (s : string) : bool := negb (is_empty s) && all_alpha s.

(** [s.split()]: the maximal runs of non-space characters; [word] is
    the run being read, its characters last first. *)
Fixpoint split_go (word : list ascii) (s : string) : list string :=
  let flush (rest : list string) :=
    match word with
    | [] => rest
    | _ => string_of_list_ascii (rev word) :: rest
    end in
  match s with
  | EmptyString => flush []
  | String c s' =>
      if is_space c then flush (split_go [] s')
      else split_go (c :: word) s'
  end.

Definition str_split (s : string) : list string := split_go [] s.

(** The dictionary [{'name': ..., 'url': ..., 'domain': ...}]. *)
Record company_site := mk_company_site {
  co_name : string;
  co_url : string;
  co_domain : string
}.

(** What the search reads from outside.  [post_search calls q num start]
    is the list under [organic] of the JSON that the request number
    [calls] returns for the payload, each result by its [link] and its
    [title], the empty string for a key that is absent; it is [None]
    when [requests.post], [raise_for_status] or [json] raises. *)
Class Serper := {
  post_search : nat -> string -> Z -> Z -> option (list (string * string))
}.

Definition _is_career_site (title link : string) : bool :=
  let title_lower := lower title in
  let link_lower := lower link in
  if any_in ["career"; "job"; "hiring"; "work"; "employment"; "opportunity"]
       title_lower
  then true
  else if any_in ["career"; "job"; "hiring"] link_lower then true
  else false.

Section Search.
Context `{PyLib} `{Serper}.

Definition _extract_company_name (domain title : string) : string :=
  let domain_clean := before "." (replace "www." EmptyString domain) in
  let title_words := str_split title in
  match List.find (fun word => (3 <? len word) && isalpha word) title_words
  with
  | Some word => str_title word
  | None => str_title domain_clean
  end.

(** The state of the loops of [_find_companies]. *)
Record search_state := mk_search_state {
  companies : list company_site;
  seen_domains : gset string;
  new_companies_found : bool;
  raised : bool
}.

(** One iteration of [for result in data.get('organic', [])]; after
    the [break], and after an exception, the remaining results are
    passed over. *)
Definition result_step (limit : Z) (st : search_state)
    (result : string * string) : search_state :=
  if raised st then st
  else if (limit <=? Z.of_nat (length (companies st)))%Z then st
  else
    let '(link, title) := result in
    match urlparse link with
    | None =>
        {| companies := companies st; seen_domains := seen_domains st;
           new_companies_found := new_companies_found st; raised := true |}
    | Some parsed =>
        let domain := lower (url_netloc parsed) in
        if negb (bool_decide (domain ∈ seen_domains st))
           && _is_career_site title link
        then
          {| companies :=
               companies st
               ++ [{| co_name := _extract_company_name domain title;
                      co_url := link; co_domain := domain |}];
             seen_domains := {[domain]} ∪ seen_domains st;
             new_companies_found := true; raised := false |}
        else st
    end.

(** The [while] loop of [_find_companies]; [calls] counts the requests
    made.  The result is the list returned and the number of requests,
    or [None] when [fuel] iterations do not end the loop. *)
Fixpoint search_loop (fuel : nat) (base_query : string) (limit : Z)
    (calls : nat) (start : Z) (found : list company_site)
    (seen : gset string) : option (list company_site * nat) :=
  match fuel with
  | O => None
  | S fuel' =>
      if (Z.of_nat (length found) <? limit)%Z then
        let remaining := (limit - Z.of_nat (length found))%Z in
        let num_to_fetch := Z.min (remaining * 2) 20 in
        match post_search calls base_query num_to_fetch start with
        | None => Some (found, S calls)
        | Some organic =>
            let st :=
              fold_left (result_step limit) organic
                {| companies := found; seen_domains := seen;
                   new_companies_found := false; raised := false |} in
            if raised st then Some (companies st, S calls)
            else if negb (new_companies_found st)
                    && (Z.of_nat (length organic) <? num_to_fetch)%Z
            then Some (companies st, S calls)
            else
              let start := (start + num_to_fetch)%Z in
              if (limit * 5 <? start)%Z then Some (companies st, S calls)
              else search_loop fuel' base_query limit (S calls) start
                     (companies st) (seen_domains st)
        end
      else Some (found, calls)
  end.

(** [_find_companies(country, limit)], with the number of requests
    made.  Every iteration that does not end the loop adds at least 2
    to [start], and the loop ends when [start] exceeds [limit * 5]. *)
Definition _find_companies (country : string) (limit : Z)
  : option (list company_site * nat) :=
  let base_query :=
    "jobs careers hiring " +:+ country +:+ " site:careers OR site:jobs" in
  search_loop (S (Z.to_nat (limit * 5))) base_query limit 0 0%Z [] ∅.

(** A company of the list comes from a result that one of the
    requests for [base_query] returned, with a link and a title that
    [_is_career_site] accepts; its domain is the lower-case host of the
    link and its name is taken from that title. *)
Definition site_from (base_query : string) (c : company_site) : Prop :=
  exists calls num start organic title parsed,
    post_search calls base_query num start = Some organic
    /\ (co_url c, title) ∈ organic
    /\ _is_career_site title (co_url c) = true
    /\ urlparse (co_url c) = Some parsed
    /\ co_domain c = lower (url_netloc parsed)
    /\ co_name c = _extract_company_name (co_domain c) title.

Definition search_inv (base_query : string) (limit : Z) (st : search_state)
  : Prop :=
  NoDup (map co_domain (companies st))
  /\ (forall d, d ∈ map co_domain (companies st) -> d ∈ seen_domains st)
  /\ Forall (site_from base_query) (companies st)
  /\ (Z.of_nat (length (companies st)) <= Z.max 0 limit)%Z.

End Search.
Section Saving.
Context `{Clock}.

(** The dictionary [job_data] that [_save_job_profiles] builds from a
    profile.  A record of the scraper has no key [employment_type] and
    no key [apply_url], so [profile.get] gives the empty string for
    them; it has the key [job_id] when its field is [Some]. *)
Definition job_data_of (profile : job) : job_data :=
  {| jd_job_id := default EmptyString (job_id profile);
     jd_company := company profile;
     jd_title := job_title profile;
     jd_location := location profile;
     jd_experience := EmptyString;
     jd_type := EmptyString;
     jd_description := job_description profile;
     jd_skills := join ", " (skills profile);
     jd_apply_link := default EmptyString (sanitize_url EmptyString) |}.

(** One iteration of the loop of [_save_job_profiles]; the state is
    [(saved_count, db)]. *)
Definition save_profile (country : string) (st : nat * database)
    (profile : job) : nat * database :=
  let '(saved_count, db) := st in
  if negb (is_valid_job profile) then st
  else
    let title := job_title profile in
    if negb (matches_target_role title "internship") then st
    else
      let '(saved, db) := save_jobs [job_data_of profile] country db in
      (saved_count + saved, db).

(** [_save_job_profiles(job_profiles, country)] *)
Definition _save_job_profiles (job_profiles : list job) (country : string)
    (db : database) : nat * database :=
  fold_left (save_profile country) job_profiles (0, db).

(** The row [r] holds what [_save_job_profiles] writes for one of the
    [profiles], one that passes both of its checks. *)
Definition from_profile (country : string) (profiles : list job) (r : row)
  : Prop :=
  exists p, p ∈ profiles /\ is_valid_job p = true
            /\ matches_target_role (job_title p) "internship" = true
            /\ stored (job_data_of p) country r.

End Saving.
End EnhancedJobExtractionAgent.

(** ** A small table

    A clock that stands still, and two profiles of one company. *)

Module TestTable.
Import PyStr ScraperFilters JobDatabase EnhancedJobExtractionAgent TestWeb.

#[global] Instance test_clock : Clock := {|
  strftime_now := fun _ => "2025-01-01 00:00:00";
  current_timestamp := fun _ => "2025-01-01 00:00:00"
|}.

(** A second record of the company of [posted_job]. *)
Definition second_posted_job : job :=
  {| job_title := "Software Intern";
     company := "Acme";
     location := "Berlin";
     experience := PStr "Full-time";
     job_description := filler;
     responsibilities := EmptyString;
     skills := ["Python"; "SQL"];
     source_url := "https://x.com/job/2";
     job_id := None |}.

End TestTable.

(** * Properties *)

(** ** Strings *)

Section StringFacts.
Import PyStr.

Lemma prefix_app (p s : string) : String.prefix p (p +:+ s) = true.
Proof.
  induction p as [|c p IH].
  - by destruct s.
  - change (String c p +:+ s) with (String c (p +:+ s)). simpl.
    destruct (ascii_dec c c); [exact IH | congruence].
Qed.

Lemma prefix_split (p s : string) :
  String.prefix p s = true -> exists r, s = p +:+ r.
Proof.
  revert s; induction p as [|c p IH]; intros s Hp.
  - by exists s.
  - destruct s as [|d s]; simpl in Hp; [discriminate|].
    destruct (ascii_dec c d) as [->|]; [|discriminate].
    destruct (IH _ Hp) as [r ->]. by exists r.
Qed.

Lemma prefix_empty (s : string) : String.prefix EmptyString s = true.
Proof. by destruct s. Qed.

Lemma str_app_cons (c : ascii) (a b : string) :
  String c a +:+ b = String c (a +:+ b).
Proof. reflexivity. Qed.

Lemma str_app_nil_l (a : string) : EmptyString +:+ a = a.
Proof. reflexivity. Qed.

Lemma str_app_assoc (a b c : string) : a +:+ b +:+ c = (a +:+ b) +:+ c.
Proof.
  induction a as [|x a IH]; [done|]. by rewrite !str_app_cons, IH.
Qed.

Lemma prefix_app_r (p a b : string) :
  String.prefix p a = true -> String.prefix p (a +:+ b) = true.
Proof.
  intros [r ->]%prefix_split. rewrite <- str_app_assoc. apply prefix_app.
Qed.

Lemma str_in_nil (sub : string) :
  str_in sub EmptyString = String.prefix sub EmptyString.
Proof. cbn [str_in]. apply orb_false_r. Qed.

Lemma str_in_cons (sub : string) (c : ascii) (s : string) :
  str_in sub (String c s) = String.prefix sub (String c s) || str_in sub s.
Proof. reflexivity. Qed.

(** [sub in s] holds exactly when [s] splits around an occurrence. *)
Lemma str_in_split (sub s : string) :
  str_in sub s = true <-> exists a b, s = a +:+ sub +:+ b.
Proof.
  split.
  - induction s as [|c s IH]; intros Hs.
    + rewrite str_in_nil in Hs. apply prefix_split in Hs as [r ->].
      by exists EmptyString, r.
    + rewrite str_in_cons in Hs. apply orb_true_iff in Hs as [Hs|Hs].
      * apply prefix_split in Hs as [r ->]. by exists EmptyString, r.
      * destruct (IH Hs) as (a & b & ->). by exists (String c a), b.
  - intros (a & b & ->). induction a as [|c a IH].
    + rewrite str_app_nil_l.
      destruct (sub +:+ b) eqn:E.
      * rewrite str_in_nil, <- E. apply prefix_app.
      * rewrite str_in_cons, <- E, prefix_app. done.
    + rewrite str_app_cons, str_in_cons, IH. apply orb_true_r.
Qed.

Lemma before_cons (sep : string) (c : ascii) (s : string) :
  before sep (String c s) =
  if String.prefix sep (String c s) then EmptyString
  else String c (before sep s).
Proof. reflexivity. Qed.

Lemma before_nil (sep : string) : before sep EmptyString = EmptyString.
Proof. cbn [before]. by destruct (String.prefix _ _). Qed.

(** [s.split(sep)[0]] is a prefix of [s] ... *)
Lemma before_is_prefix (sep s : string) :
  exists rest, s = before sep s +:+ rest.
Proof.
  induction s as [|c s [rest IH]].
  - exists EmptyString. by rewrite before_nil.
  - rewrite before_cons. destruct (String.prefix _ _).
    + by exists (String c s).
    + exists rest. by rewrite str_app_cons, <- IH.
Qed.

(** ... followed by [sep] when [sep] occurs in [s] ... *)
Lemma before_split (sep s : string) :
  str_in sep s = true ->
  exists rest, s = before sep s +:+ sep +:+ rest.
Proof.
  induction s as [|c s IH]; intros Hs.
  - rewrite str_in_nil in Hs. rewrite before_nil.
    apply prefix_split in Hs as [r Hr]. by exists r.
  - rewrite str_in_cons in Hs. rewrite before_cons.
    destruct (String.prefix sep (String c s)) eqn:Hp.
    + apply prefix_split in Hp as [r Hr]. by exists r.
    + simpl in Hs. destruct (IH Hs) as [rest Hrest].
      exists rest. by rewrite str_app_cons, <- Hrest.
Qed.

(** ... and holding no occurrence of [sep] itself: the occurrence cut
    at is the first one. *)
Lemma before_free (sep s : string) :
  sep <> EmptyString -> str_in sep (before sep s) = false.
Proof.
  intros Hsep. induction s as [|c s IH].
  - rewrite before_nil, str_in_nil. by destruct sep.
  - rewrite before_cons. destruct (String.prefix sep (String c s)) eqn:Hp.
    + rewrite str_in_nil. by destruct sep.
    + rewrite str_in_cons, IH, orb_false_r.
      destruct (String.prefix sep (String c (before sep s))) eqn:Hq; [|done].
      destruct (before_is_prefix sep s) as [rest Hrest].
      apply (prefix_app_r _ _ rest) in Hq.
      rewrite str_app_cons, <- Hrest in Hq. congruence.
Qed.

Lemma before_absent (sep s : string) :
  str_in sep s = false -> before sep s = s.
Proof.
  induction s as [|c s IH]; intros Hs.
  - apply before_nil.
  - rewrite str_in_cons in Hs. apply orb_false_iff in Hs as [Hp Hs].
    rewrite before_cons, Hp, IH; done.
Qed.


Lemma lower_char_space (c : ascii) : is_space (lower_char c) = is_space c.
Proof. by destruct c as [[] [] [] [] [] [] [] []]. Qed.

Lemma lower_lstrip (s : string) : lower (lstrip s) = lstrip (lower s).
Proof.
  induction s as [|c s IH]; [done|]. simpl.
  rewrite lower_char_space. by destruct (is_space c).
Qed.

Lemma lower_rstrip (s : string) : lower (rstrip s) = rstrip (lower s).
Proof.
  induction s as [|c s IH]; [done|]. simpl. rewrite <- IH, lower_char_space.
  destruct (rstrip s); simpl; [by destruct (is_space c)|done].
Qed.

Lemma lower_strip (s : string) : lower (strip s) = strip (lower s).
Proof. unfold strip. by rewrite lower_rstrip, lower_lstrip. Qed.

Lemma prefix_rstrip (t s : string) :
  t <> EmptyString -> no_space t = true ->
  String.prefix t s = true -> String.prefix t (rstrip s) = true.
Proof.
  revert s. induction t as [|c t IH]; intros s Hne Hns Hp; [done|].
  destruct s as [|d s]; [done|]. simpl in Hp.
  destruct (ascii_dec c d) as [<-|]; [|done].
  simpl in Hns. apply andb_true_iff in Hns as [Hc Hns].
  apply negb_true_iff in Hc. simpl. rewrite Hc.
  destruct t as [|c' t].
  - destruct (rstrip s); simpl; by destruct (ascii_dec c c).
  - specialize (IH s ltac:(done) Hns Hp).
    destruct (rstrip s) as [|e r]; [done|].
    cbn [String.prefix]. by destruct (ascii_dec c c).
Qed.

Lemma str_in_rstrip (t s : string) :
  t <> EmptyString -> no_space t = true ->
  str_in t s = true -> str_in t (rstrip s) = true.
Proof.
  intros Hne Hns. induction s as [|c s IH]; intros Hs.
  - rewrite str_in_nil in Hs. by destruct t.
  - rewrite str_in_cons in Hs. apply orb_true_iff in Hs as [Hp|Hs].
    + apply (prefix_rstrip t _ Hne Hns) in Hp.
      destruct (rstrip (String c s)); [by rewrite str_in_nil|].
      by rewrite str_in_cons, Hp.
    + specialize (IH Hs). cbn [rstrip].
      destruct (rstrip s) as [|e r]; [rewrite str_in_nil in IH; by destruct t|].
      rewrite str_in_cons, IH. apply orb_true_r.
Qed.

Lemma str_in_lstrip (t s : string) :
  t <> EmptyString -> no_space t = true ->
  str_in t s = true -> str_in t (lstrip s) = true.
Proof.
  intros Hne Hns. induction s as [|c s IH]; intros Hs; [done|].
  cbn [lstrip]. destruct (is_space c) eqn:Hc; [|done].
  rewrite str_in_cons in Hs. apply orb_true_iff in Hs as [Hp|Hs]; [|auto].
  destruct t as [|d t]; [done|]. simpl in Hp, Hns.
  destruct (ascii_dec d c) as [->|]; [|done]. by rewrite Hc in Hns.
Qed.

(** Stripping keeps every occurrence of a string without white space. *)
Lemma str_in_strip (t s : string) :
  t <> EmptyString -> no_space t = true ->
  str_in t s = true -> str_in t (strip s) = true.
Proof.
  intros Hne Hns Hs. unfold strip.
  by apply str_in_rstrip, str_in_lstrip.
Qed.

Lemma any_in_true (terms : list string) (s t : string) :
  In t terms -> str_in t s = true -> any_in terms s = true.
Proof.
  intros Hin Hs. unfold any_in. apply existsb_exists. by exists t.
Qed.

Lemma any_in_iff (terms : list string) (s : string) :
  any_in terms s = true <-> exists t, In t terms /\ str_in t s = true.
Proof. unfold any_in. apply existsb_exists. Qed.

Lemma any_in_false_iff (terms : list string) (s : string) :
  any_in terms s = false <-> forall t, In t terms -> str_in t s = false.
Proof.
  rewrite <- not_true_iff_false, any_in_iff. split.
  - intros Hn t Hin. apply not_true_iff_false. intros Ht. apply Hn. by exists t.
  - intros Hall (t & Hin & Ht). rewrite (Hall t Hin) in Ht. done.
Qed.

Lemma is_empty_true (s : string) : is_empty s = true <-> s = EmptyString.
Proof. by destruct s. Qed.

Lemma is_empty_false (s : string) : is_empty s = false <-> s <> EmptyString.
Proof. by destruct s. Qed.

End StringFacts.

(** ** The role matcher and the URL guard *)

Section FilterFacts.
Import PyStr ScraperFilters ExpertJobScraper.

(** C8.  In internship mode the role matcher accepts a title exactly
    when its lower-case form contains one of the allow-listed terms
    (intern, internship, co-op, trainee, graduate, student, apprentice,
    fellowship) and none of the seniority terms of [forbidden_terms].
    It accepts "Software Engineering Intern" and rejects "Software
    Engineer", "Senior Software Intern" and "Intern Manager". *)
Theorem matches_target_role_internship (title : string) :
  (matches_target_role title "internship" = true <->
     (exists t, In t allowed_terms /\ str_in t (lower title) = true) /\
     (forall t, In t forbidden_terms -> str_in t (lower title) = false))
  /\ allowed_terms =
       ["intern"; "internship"; "co-op"; "trainee"; "graduate"; "student";
        "apprentice"; "fellowship"]
  /\ matches_target_role "Software Engineering Intern" "internship" = true
  /\ matches_target_role "Software Engineer" "internship" = false
  /\ matches_target_role "Senior Software Intern" "internship" = false
  /\ matches_target_role "Intern Manager" "internship" = false.
Proof.
  split; [|by vm_compute].
  rewrite <- any_in_iff, <- any_in_false_iff.
  unfold matches_target_role.
  destruct (is_empty title) eqn:He.
  - apply is_empty_true in He as ->. by vm_compute; split; [|intros []].
  - change (String.eqb "internship" "internship") with true. cbv iota.
    destruct (any_in allowed_terms (lower title)),
      (any_in forbidden_terms (lower title)); simpl; intuition congruence.
Qed.

(** The seniority terms of the source are the twelve of the design
    text and two abbreviations. *)
Lemma forbidden_terms_listed :
  forbidden_terms =
    ["senior"; "staff"; "lead"; "principal"; "architect"; "manager";
     "director"; "vp"; "head of"; "executive"]
    ++ ["sr."; "sr "] ++ ["chief"; "partner"]
  /\ matches_target_role "Sr. Intern" "internship" = false.
Proof. by vm_compute. Qed.

(** What [sanitize_url] returns is the stripped input, and it starts
    with an http scheme. *)
Lemma sanitize_url_some (url u : string) :
  sanitize_url url = Some u ->
  u = strip url /\ startswith_any (lower u) ["http://"; "https://"] = true.
Proof.
  unfold sanitize_url. destruct (is_empty url); [done|].
  destruct (startswith_any (lower (strip url)) _); [done|].
  destruct (startswith_any (lower (strip url)) _) eqn:E; [|done].
  intros [= <-]. done.
Qed.

(** C9, counterexample.  The cut is made at the first occurrence of
    the text "/apply", not at an apply path segment: the first URL
    below ends in the segment "apply" and is cut inside its first
    segment "apply-now", down to the host; the second keeps its
    "/application" part, and the result is an apply URL still. *)
Lemma detail_url_cuts_at_text :
  _get_job_detail_url "https://x.com/apply-now/job/123/apply"
  = "https://x.com"
  /\ _get_job_detail_url "https://x.com/application/1/apply"
     = "https://x.com/application/1"
  /\ _is_apply_url "https://x.com/application/1" = true.
Proof. by vm_compute. Qed.

(** C9, as amended.  A URL that contains the text "/apply" is cut by
    [_get_job_detail_url] just before its first occurrence; a URL that
    does not, and contains the text "/application", just before the
    first occurrence of that; any other URL is returned as it is.
    [sanitize_url] rejects every URL that, stripped and in lower case,
    starts with mailto:, tel:, javascript:, data: or #, and returns an
    accepted URL stripped of surrounding white space. *)
Theorem url_guard :
  (forall url,
      str_in "/apply" url = true \/ str_in "/application" url = true ->
      exists seg rest,
        (seg = "/apply" \/
         seg = "/application" /\ str_in "/apply" url = false) /\
        url = _get_job_detail_url url +:+ seg +:+ rest /\
        str_in seg (_get_job_detail_url url) = false)
  /\ _get_job_detail_url "https://x.com/job/123/apply" = "https://x.com/job/123"
  /\ sanitize_url "javascript:void(0)" = None
  /\ (forall u,
        startswith_any (lower (strip u))
          ["mailto:"; "tel:"; "javascript:"; "data:"; "#"] = true ->
        sanitize_url u = None)
  /\ (forall u v, sanitize_url u = Some v -> v = strip u)
  /\ sanitize_url "  https://x.com  " = Some "https://x.com"
  /\ (forall url,
        str_in "/apply" url = false -> str_in "/application" url = false ->
        _get_job_detail_url url = url).
Proof.
  split; [|split; [by vm_compute|split; [by vm_compute
                                        |split; [|split; [|split]]]]].
  - intros url Happly. unfold _get_job_detail_url.
    destruct (str_in "/apply" url) eqn:Ha.
    + destruct (before_split _ _ Ha) as [rest Hrest].
      exists "/apply", rest. split; [by left|]. split; [done|].
      by apply before_free.
    + destruct Happly as [|Hb]; [done|]. rewrite Hb.
      destruct (before_split _ _ Hb) as [rest Hrest].
      exists "/application", rest. split; [by right|]. split; [done|].
      by apply before_free.
  - intros u Hu. unfold sanitize_url.
    destruct (is_empty u); [done|]. by rewrite Hu.
  - intros u v Hv. by apply sanitize_url_some in Hv as [-> _].
  - by vm_compute.
  - intros url Ha Hb. unfold _get_job_detail_url. by rewrite Ha, Hb.
Qed.

Lemma url_guard_witness :
  str_in "/apply" "https://x.com/job/123/apply" = true
  /\ (exists seg rest,
        (seg = "/apply" \/
         seg = "/application"
         /\ str_in "/apply" "https://x.com/job/123/apply" = false) /\
        "https://x.com/job/123/apply" =
          _get_job_detail_url "https://x.com/job/123/apply" +:+ seg +:+ rest /\
        str_in seg (_get_job_detail_url "https://x.com/job/123/apply") = false)
  /\ startswith_any (lower (strip " MAILTO:someone@x.com"))
       ["mailto:"; "tel:"; "javascript:"; "data:"; "#"] = true
  /\ sanitize_url " MAILTO:someone@x.com" = None.
Proof.
  destruct url_guard as (Hcut & _ & _ & Hreject & _).
  assert (Ha : str_in "/apply" "https://x.com/job/123/apply" = true)
    by by vm_compute.
  assert (Hm : startswith_any (lower (strip " MAILTO:someone@x.com"))
                 ["mailto:"; "tel:"; "javascript:"; "data:"; "#"] = true)
    by by vm_compute.
  split; [exact Ha|]. split; [apply Hcut; by left|].
  split; [exact Hm|]. by apply Hreject.
Defined.

End FilterFacts.

(** ** The validator and the scorer *)

Section ValidatorFacts.
Import PyStr ScraperFilters ExpertJobScraper TestWeb.






(** X27.  The class defines [_validate_job] twice, and the second
    definition (line 1195) replaces the score-gated one of line 856:
    the validator that every caller runs does not consult the score.
    It accepts a record exactly when the record passes the schema and
    advertisement filter, the internship role matcher and the country
    gate; so it accepts the record below, which has application-form
    text in its description and a score of 2, and which the
    score-gated validator rejects. *)
Theorem running_validator_ignores_score (r : job) (country : string) :
  (_validate_job r country = true <->
     is_valid_job r = true
     /\ matches_target_role (job_title r) "internship" = true
     /\ _validate_country r country = true)
  /\ _score_job application_form_job = 2%Z
  /\ _validate_job_scored application_form_job "Germany" = false
  /\ _validate_job application_form_job "Germany" = true.
Proof.
  split; [|by vm_compute].
  unfold _validate_job.
  destruct (is_valid_job r); simpl; [|split; [done|by intros [? _]]].
  destruct (matches_target_role _ _); simpl;
    [|split; [done|by intros (_ & ? & _)]].
  split; [done|by intros (_ & _ & ?)].
Qed.

End ValidatorFacts.

(** ** Deduplication *)

Section DedupFacts.
Import PyStr ScraperFilters ExpertJobScraper TestWeb.


(** A step either drops the record or stores it last, under a key
    that was free. *)
Lemma dedup_step_cases (d : list (string * job)) (j : job) :
  dedup_step d j = d /\ dict_has (dedup_key d j) d = true
  \/ dedup_step d j = d ++ [(dedup_key d j, j)]
     /\ dict_has (dedup_key d j) d = false.
Proof.
  unfold dedup_step. cbv zeta. destruct (dict_has _ d); [by left|by right].
Qed.



Lemma dedup_sublist (jobs : list job) (d : list (string * job)) :
  sublist (map snd (fold_left dedup_step jobs d)) (map snd d ++ jobs).
Proof.
  revert d. induction jobs as [|j jobs IH]; intros d.
  - by rewrite app_nil_r.
  - simpl. etrans; [apply IH|].
    destruct (dedup_step_cases d j) as [[-> _]|[-> _]].
    + apply sublist_app; [done|]. by apply sublist_cons.
    + rewrite map_app, <- app_assoc. done.
Qed.

Lemma dedup_key_cases (d : list (string * job)) (j : job) :
  dedup_key d j = composite_key j
  \/ job_id j = Some (dedup_key d j) /\ dedup_key d j <> EmptyString.
Proof.
  unfold dedup_key. destruct (job_id j) as [key|]; [|by left].
  destruct (is_empty key) eqn:He; [by left|].
  destruct (dict_has key d); [by left|].
  right. split; [done|]. by apply is_empty_false.
Qed.

Lemma dedup_keys_origin (jobs : list job) (d : list (string * job)) :
  Forall (fun kv => fst kv = composite_key (snd kv)
                    \/ job_id (snd kv) = Some (fst kv)) d ->
  Forall (fun kv => fst kv = composite_key (snd kv)
                    \/ job_id (snd kv) = Some (fst kv))
    (fold_left dedup_step jobs d).
Proof.
  revert d. induction jobs as [|j jobs IH]; intros d Hd; [done|].
  simpl. apply IH. destruct (dedup_step_cases d j) as [[-> _]|[-> _]]; [done|].
  apply Forall_app. split; [done|]. apply Forall_singleton. simpl.
  destruct (dedup_key_cases d j) as [?|[? _]]; [by left|by right].
Qed.








End DedupFacts.

(** ** Rules for computations on the scraper object *)

Section Rules.
Import ExpertJobScraper CrawlSpec.
Context {A B : Type} (I : scraper -> Prop).

Lemma run_ret (a : A) (Q : A -> Prop) (s : scraper) :
  I s -> Q a -> run_ok I (ret a) (returns Q) s.
Proof. by split. Qed.

Lemma triple_ret (a : A) (Q : A -> Prop) : Q a -> triple I (ret a) (returns Q).
Proof. intros HQ s Hs. by apply run_ret. Qed.

Lemma run_weaken (m : M A) (post post' : outcome A -> Prop) (s : scraper) :
  (forall o, post o -> post' o) -> run_ok I m post s -> run_ok I m post' s.
Proof. intros Himp [HI Hp]. split; auto. Qed.

Lemma returns_may_raise (Q : A -> Prop) (o : outcome A) :
  returns Q o -> may_raise Q o.
Proof. by destruct o. Qed.

Lemma returns_mono (P Q : A -> Prop) (o : outcome A) :
  (forall a, P a -> Q a) -> returns P o -> returns Q o.
Proof. destruct o; simpl; auto. Qed.

Lemma may_raise_mono (P Q : A -> Prop) (o : outcome A) :
  (forall a, P a -> Q a) -> may_raise P o -> may_raise Q o.
Proof. destruct o; simpl; auto. Qed.

Lemma run_bind_returns (m : M A) (k : A -> M B) (P : A -> Prop)
    (Q : B -> Prop) (s : scraper) :
  run_ok I m (returns P) s ->
  (forall a, P a -> triple I (k a) (returns Q)) ->
  run_ok I (bind m k) (returns Q) s.
Proof.
  unfold run_ok, bind. destruct (m s) as [[a| |] s']; simpl;
    intros [HI HP] Hk; try done. by apply Hk.
Qed.

Lemma run_bind_may_raise (m : M A) (k : A -> M B) (P : A -> Prop)
    (Q : B -> Prop) (s : scraper) :
  run_ok I m (may_raise P) s ->
  (forall a, P a -> triple I (k a) (may_raise Q)) ->
  run_ok I (bind m k) (may_raise Q) s.
Proof.
  unfold run_ok, bind. destruct (m s) as [[a| |] s']; simpl;
    intros [HI HP] Hk; try done. by apply Hk.
Qed.

Lemma triple_bind_returns (m : M A) (k : A -> M B) (P : A -> Prop)
    (Q : B -> Prop) :
  triple I m (returns P) ->
  (forall a, P a -> triple I (k a) (returns Q)) ->
  triple I (bind m k) (returns Q).
Proof. intros Hm Hk s Hs. eapply run_bind_returns; eauto. Qed.

Lemma triple_bind_may_raise (m : M A) (k : A -> M B) (P : A -> Prop)
    (Q : B -> Prop) :
  triple I m (may_raise P) ->
  (forall a, P a -> triple I (k a) (may_raise Q)) ->
  triple I (bind m k) (may_raise Q).
Proof. intros Hm Hk s Hs. eapply run_bind_may_raise; eauto. Qed.

Lemma triple_weaken (m : M A) (Q : A -> Prop) :
  triple I m (returns Q) -> triple I m (may_raise Q).
Proof.
  intros Hm s Hs. eapply run_weaken; [apply returns_may_raise|]. by apply Hm.
Qed.

Lemma triple_weaken_bind (m : M A) (k : A -> M B) (P : A -> Prop)
    (Q : B -> Prop) :
  triple I m (returns P) ->
  (forall a, P a -> triple I (k a) (may_raise Q)) ->
  triple I (bind m k) (may_raise Q).
Proof.
  intros Hm Hk. eapply triple_bind_may_raise; [|exact Hk].
  by apply triple_weaken.
Qed.

(** An exception is caught: what the handler returns is returned. *)
Lemma run_try_except (body handler : M A) (Q : A -> Prop) (s : scraper) :
  run_ok I body (may_raise Q) s ->
  triple I handler (returns Q) ->
  run_ok I (try_except body handler) (returns Q) s.
Proof.
  unfold run_ok, try_except. destruct (body s) as [[a| |] s']; simpl;
    intros [HI HP] Hh; try done. by apply Hh.
Qed.

(** An exception is caught by a handler that may raise in turn. *)
Lemma run_try_except_may_raise (body handler : M A) (Q : A -> Prop)
    (s : scraper) :
  run_ok I body (may_raise Q) s ->
  triple I handler (may_raise Q) ->
  run_ok I (try_except body handler) (may_raise Q) s.
Proof.
  unfold run_ok, try_except. destruct (body s) as [[a| |] s']; simpl;
    intros [HI HP] Hh; try done. by apply Hh.
Qed.

Lemma triple_lift (r : raising A) (Q : A -> Prop) :
  (forall a, r = Returns a -> Q a) -> triple I (lift r) (may_raise Q).
Proof. intros HQ s Hs. unfold run_ok, lift. destruct r; simpl; auto. Qed.

Lemma run_get (k : scraper -> M B) (post : outcome B -> Prop) (s : scraper) :
  run_ok I (k s) post s -> run_ok I (bind get k) post s.
Proof. done. Qed.

Lemma run_modify (f : scraper -> scraper) (k : M B)
    (post : outcome B -> Prop) (s : scraper) :
  run_ok I k post (f s) -> run_ok I (bind (modify f) (fun _ => k)) post s.
Proof. done. Qed.

Lemma triple_get (k : scraper -> M B) (post : outcome B -> Prop) :
  (forall s0, triple I (k s0) post) -> triple I (bind get k) post.
Proof. intros Hk s Hs. unfold run_ok, bind, get. by apply Hk. Qed.

Lemma triple_modify (f : scraper -> scraper) (k : M B)
    (post : outcome B -> Prop) :
  (forall s, I s -> I (f s)) -> triple I k post ->
  triple I (bind (modify f) (fun _ => k)) post.
Proof. intros Hf Hk s Hs. unfold run_ok, bind, modify. apply Hk. auto. Qed.

End Rules.

(** ** The crawl preserves an invariant and returns validated records

    [I] is any property of the scraper object that the state changes of
    the engine preserve, [Dok] any property of depths that holds of the
    depths a crawl is entered with. *)

Section CrawlInvariant.
Import PyStr ScraperFilters ExpertJobScraper CrawlSpec.
Context {node : Type} `{Dom node} `{PyLib} `{World}.
Variable I : scraper -> Prop.
Variable Dok : nat -> Prop.
Variable country : string.

Hypothesis I_visit : forall s u d, I s -> Dok d -> I (log (EvVisit u d) s).
Hypothesis Dok_next : forall d, Dok d -> d <= MAX_DEPTH -> Dok (d + 1).
Hypothesis I_light : forall s u d,
  I s -> Dok d -> d <= MAX_DEPTH -> u ∉ visited_urls s ->
  I (log (EvLight u) (add_seen_url u (add_visited_url u (log (EvVisit u d) s)))).
Hypothesis I_add_visited_url : forall s u, I s -> I (add_visited_url u s).
Hypothesis I_add_visited_gateway :
  forall s u, I s -> I (add_visited_gateway u s).
Hypothesis I_add_visited_job_url :
  forall s u, I s -> I (add_visited_job_url u s).
Hypothesis I_scan : forall s u, I s -> I (log (EvScan u) s).
Hypothesis I_detail : forall s u, I s -> I (log (EvDetail u) s).
Hypothesis I_heavy : forall s u,
  I s -> used_selenium_for_url s !! u <> Some true ->
  I (log (EvHeavy u) (mark_selenium u s)).

Local Abbreviation valid_jobs := (CrawlSpec.valid_jobs country).

Lemma valid_jobs_dedup (jobs : list job) :
  valid_jobs jobs -> valid_jobs (_deduplicate_jobs jobs).
Proof.
  unfold valid_jobs. rewrite !Forall_forall. intros Hall j Hj.
  apply Hall. eapply elem_of_sublist; [exact Hj|].
  apply (dedup_sublist jobs []).
Qed.

Lemma accepted_job_valid (job_data : record) (j : job) :
  accepted_job job_data country = Returns (Some j) ->
  typed job_data = Some j /\ _validate_job j country = true.
Proof.
  unfold accepted_job. destruct (typed job_data) as [j'|].
  - destruct (_validate_job j' country) eqn:Hv; [|done]. by intros [= ->].
  - by destruct (_ || _).
Qed.

Lemma extract_with_selenium_triple (url : string) :
  triple I (_extract_with_selenium url) (may_raise (fun _ => True)).
Proof.
  intros s Hs. unfold run_ok, _extract_with_selenium.
  destruct (should_skip_url url); [done|].
  case_bool_decide; [done|].
  destruct (selenium_session _ _); simpl; (split; [|done]); by apply I_heavy.
Qed.

Lemma extract_single_job_triple (job_url : string) (soup : node) :
  triple I (_extract_single_job job_url soup) (may_raise (fun _ => True)).
Proof.
  unfold _extract_single_job. apply triple_get. intros s0.
  destruct (bool_decide _); [by apply triple_weaken, triple_ret|].
  apply triple_modify; [auto|].
  destruct (_is_apply_page soup); [by apply triple_weaken, triple_ret|].
  cbv zeta. destruct (_extract_json_ld soup) as [json_ld_data|].
  - eapply triple_bind_may_raise; [by apply (triple_lift _ _ (fun _ => True))|].
    intros job_data _. by apply triple_weaken, triple_ret.
  - destruct (_is_invalid_title _); [by apply triple_weaken, triple_ret|].
    eapply triple_bind_may_raise; [by apply (triple_lift _ _ (fun _ => True))|].
    intros company _. by apply triple_weaken, triple_ret.
Qed.

Lemma crawler_arun_triple (site : string -> event) (url : string)
    (spa : bool) (n : nat) :
  (forall s u, I s -> I (log (site u) s)) ->
  triple I (crawler_arun site url spa n) (may_raise (fun _ => True)).
Proof.
  intros Hsite s Hs. unfold run_ok, crawler_arun.
  destruct (arun _ _ _ _); simpl; auto.
Qed.

Lemma extract_single_job_from_url_triple (job_url : string) :
  triple I (_extract_single_job_from_url job_url) (returns (fun _ => True)).
Proof.
  intros s Hs. unfold _extract_single_job_from_url.
  apply run_try_except; [|by apply triple_ret].
  eapply run_bind_may_raise; [by apply crawler_arun_triple|].
  intros [success html] _.
  destruct success;
    [apply extract_single_job_triple|by apply triple_weaken, triple_ret].
Qed.

Lemma scrape_candidate_triple (job_url : string)
    (st : list job * gset string) :
  valid_jobs (fst st) ->
  triple I (scrape_candidate country job_url st)
    (may_raise (fun st' => valid_jobs (fst st'))).
Proof.
  intros Hst. destruct st as [jobs visited]. unfold scrape_candidate.
  apply triple_weaken_bind with (P := fun _ => True);
    [apply extract_single_job_from_url_triple|].
  intros [job_data|] _; [|by apply triple_weaken, triple_ret].
  eapply triple_bind_may_raise;
    [apply (triple_lift _ _ (fun a => accepted_job job_data country
                                      = Returns a)); auto|].
  intros [j|] Hj; apply triple_weaken, triple_ret; [|done]. simpl in *.
  apply Forall_app. split; [done|]. apply Forall_singleton.
  by destruct (accepted_job_valid _ _ Hj).
Qed.

Lemma scrape_cards_triple (site_url : string) (cards : list node)
    (st : list job * gset string) :
  valid_jobs (fst st) ->
  triple I (scrape_cards site_url country cards st)
    (may_raise (fun st' => valid_jobs (fst st'))).
Proof.
  revert st. induction cards as [|card rest IH]; intros st Hst.
  - by apply triple_weaken, triple_ret.
  - cbn [scrape_cards].
    eapply triple_bind_may_raise; [by apply (triple_lift _ _ (fun _ => True))|].
    intros [job_url|] _; [|auto].
    destruct (_ && _); [|auto].
    eapply triple_bind_may_raise; [by apply scrape_candidate_triple|].
    intros st' Hst'. by apply IH.
Qed.

Lemma scrape_links_triple (links : list string)
    (st : list job * gset string) :
  valid_jobs (fst st) ->
  triple I (scrape_links country links st)
    (may_raise (fun st' => valid_jobs (fst st'))).
Proof.
  revert st. induction links as [|link rest IH]; intros st Hst.
  - by apply triple_weaken, triple_ret.
  - cbn [scrape_links]. destruct (_ && _); [|auto].
    eapply triple_bind_may_raise; [by apply scrape_candidate_triple|].
    intros st' Hst'. by apply IH.
Qed.

Lemma extract_from_job_listing_triple (site_url : string) (soup : node) :
  triple I (_extract_from_job_listing site_url soup country)
    (may_raise valid_jobs).
Proof.
  unfold _extract_from_job_listing. cbv zeta.
  eapply triple_bind_may_raise.
  { apply scrape_cards_triple. constructor. }
  intros st Hst. cbv beta. destruct (_ <? 3).
  - eapply triple_bind_may_raise; [by apply (triple_lift _ _ (fun _ => True))|].
    intros links _.
    eapply triple_bind_may_raise; [by apply scrape_links_triple|].
    intros st' Hst'. by apply triple_weaken, triple_ret.
  - by apply triple_weaken, triple_ret.
Qed.

Section Recursion.
Variable self : string -> nat -> M (list job).
Variable depth : nat.
Hypothesis self_ok :
  forall u, triple I (self u (depth + 1)) (returns valid_jobs).

Lemma crawl_categories_triple (category_links : list category)
    (all_jobs : list job) :
  valid_jobs all_jobs ->
  triple I (crawl_categories self depth category_links all_jobs)
    (returns valid_jobs).
Proof.
  revert all_jobs.
  induction category_links as [|cat rest IH]; intros all_jobs Hall.
  - by apply triple_ret.
  - cbn [crawl_categories]. apply triple_get. intros s0.
    destruct (negb _); [|auto].
    eapply triple_bind_returns; [apply self_ok|].
    intros jobs Hjobs. apply IH. by apply Forall_app.
Qed.

Lemma category_crawl_triple (soup : node) (url : string)
    (jobs : list job) :
  valid_jobs jobs ->
  triple I
    (category_links <- lift (_find_category_links soup url) ;;
     if 0 <? length category_links then
       all_jobs <- crawl_categories self depth category_links [] ;;
       ret (_deduplicate_jobs all_jobs)
     else ret jobs)
    (may_raise valid_jobs).
Proof.
  intros Hjobs.
  eapply triple_bind_may_raise; [by apply (triple_lift _ _ (fun _ => True))|].
  intros category_links _.
  destruct (0 <? _); [|by apply triple_weaken, triple_ret].
  apply triple_weaken.
  eapply triple_bind_returns; [apply crawl_categories_triple; constructor|].
  intros all_jobs Hall. apply triple_ret. by apply valid_jobs_dedup.
Qed.

Lemma crawl_dispatch_triple (url : string) (soup : node) :
  triple I (crawl_dispatch self url country depth soup)
    (may_raise valid_jobs).
Proof.
  unfold crawl_dispatch.
  eapply triple_bind_may_raise; [by apply (triple_lift _ _ (fun _ => True))|].
  intros page_type _. destruct page_type.
  - eapply triple_bind_may_raise; [apply extract_single_job_triple|].
    intros [job_data|] _; [|apply triple_weaken, triple_ret; constructor].
    eapply triple_bind_may_raise;
      [apply (triple_lift _ _ (fun a => accepted_job job_data country
                                        = Returns a)); auto|].
    intros [j|] Hj; apply triple_weaken, triple_ret; [|constructor].
    apply Forall_singleton. by destruct (accepted_job_valid _ _ Hj).
  - eapply triple_bind_may_raise; [apply extract_from_job_listing_triple|].
    intros extracted Hex.
    destruct (_ =? 0); [|by apply triple_weaken, triple_ret].
    by apply category_crawl_triple.
  - apply triple_modify; [auto|].
    eapply triple_bind_may_raise;
      [by apply (triple_lift _ _ (fun _ => True))|].
    intros category_links _.
    apply triple_weaken_bind with (P := valid_jobs);
      [apply crawl_categories_triple; constructor|].
    intros all_jobs Hall.
    eapply triple_bind_may_raise; [apply extract_from_job_listing_triple|].
    intros direct Hdirect. apply triple_weaken, triple_ret.
    apply valid_jobs_dedup. by apply Forall_app.
  - apply extract_from_job_listing_triple.
  - apply triple_weaken, triple_ret. constructor.
  - eapply triple_bind_may_raise; [apply extract_from_job_listing_triple|].
    intros jobs Hjobs.
    destruct (_ =? 0); [|by apply triple_weaken, triple_ret].
    by apply category_crawl_triple.
Qed.

End Recursion.

(** The light fetch of [_recursive_crawl] and what follows it, from a
    state in which the fetch may be recorded. *)
Lemma load_page_run (url : string) (s : scraper) :
  I (log (EvLight url) s) ->
  run_ok I (load_page url) (may_raise (fun _ => True)) s.
Proof.
  intros Hs. unfold load_page. cbv zeta.
  eapply (run_bind_may_raise _ _ _ (fun _ => True)).
  { unfold run_ok, crawler_arun.
    destruct (arun _ _ _ _); simpl; split; first [exact Hs | done]. }
  intros [success html] _. cbv beta iota.
  destruct (negb success); [by apply triple_weaken, triple_ret|].
  destruct (_ || _); [|by apply triple_weaken, triple_ret].
  eapply triple_bind_may_raise; [apply extract_with_selenium_triple|].
  intros selenium_html _. apply triple_weaken.
  repeat first [ by apply triple_ret | case_match ].
Qed.

Lemma crawl_body_triple (self : string -> nat -> M (list job))
    (url : string) (depth : nat) :
  Dok depth ->
  (depth <= MAX_DEPTH ->
   forall u, triple I (self u (depth + 1)) (returns valid_jobs)) ->
  triple I (crawl_body self url country depth) (returns valid_jobs).
Proof.
  intros Hd Hself s Hs. unfold crawl_body.
  apply run_modify.
  destruct (Nat.ltb_spec MAX_DEPTH depth) as [Hdeep|Hshallow].
  { apply run_ret; [by apply I_visit|constructor]. }
  apply run_get.
  change (visited_urls (log (EvVisit url depth) s)) with (visited_urls s).
  case_bool_decide as Hvisited.
  { apply run_ret; [by apply I_visit|constructor]. }
  apply run_modify.
  destruct (should_skip_url url).
  { apply run_ret; [by apply I_add_visited_url, I_visit|constructor]. }
  destruct (3 <? depth).
  { apply run_ret; [by apply I_add_visited_url, I_visit|constructor]. }
  apply run_get. destruct (_ || _).
  { apply run_ret; [by apply I_add_visited_url, I_visit|constructor]. }
  apply run_modify.
  apply run_try_except; [|apply triple_ret; constructor].
  eapply run_bind_may_raise.
  { apply load_page_run. by apply I_light. }
  intros [soup|] _; [|apply triple_weaken, triple_ret; constructor].
  apply crawl_dispatch_triple. by apply Hself.
Qed.

Lemma crawl_triple (fuel : nat) (url : string) (depth : nat) :
  Dok depth -> S MAX_DEPTH - depth < fuel ->
  triple I (crawl fuel country url depth) (returns valid_jobs).
Proof.
  revert url depth. induction fuel as [|fuel IH]; intros url depth Hd Hfuel.
  - lia.
  - cbn [crawl]. apply crawl_body_triple; [done|].
    intros Hshallow u. apply IH; [by apply Dok_next|lia].
Qed.

Lemma recursive_crawl_triple (url : string) (depth : nat) :
  Dok depth ->
  triple I (_recursive_crawl url country depth) (returns valid_jobs).
Proof. intros Hd. apply crawl_triple; [done|lia]. Qed.

Lemma crawl_from_triple (scan_soup : node) (clean_url : string) :
  Dok 0 ->
  triple I (crawl_from scan_soup clean_url country) (may_raise valid_jobs).
Proof.
  intros Hd. unfold crawl_from.
  eapply triple_bind_may_raise; [by apply (triple_lift _ _ (fun _ => True))|].
  intros [search_url|] _;
    [|by apply triple_weaken, recursive_crawl_triple].
  apply triple_weaken.
  eapply triple_bind_returns; [by apply recursive_crawl_triple|].
  intros jobs Hjobs. destruct (_ =? 0);
    [by apply recursive_crawl_triple|by apply triple_ret].
Qed.

Lemma crawl_site_triple (site_url : string) :
  Dok 0 ->
  triple I (crawl_site site_url country) (may_raise valid_jobs).
Proof.
  intros Hd. unfold crawl_site. cbv zeta.
  destruct (should_skip_url _);
    [apply triple_weaken, triple_ret; constructor|].
  eapply triple_bind_may_raise; [by apply crawler_arun_triple|].
  intros [success html] _. cbv beta iota.
  eapply (triple_bind_may_raise _ _ _ (fun _ => True)).
  { destruct success; [|by apply triple_weaken, triple_ret].
    destruct (_ || _); [|by apply triple_weaken, triple_ret].
    eapply triple_bind_may_raise; [apply extract_with_selenium_triple|].
    intros selenium_html _.
    destruct (negb _); by apply triple_weaken, triple_ret. }
  intros [scan_soup|] _; [by apply crawl_from_triple|].
  eapply triple_bind_may_raise; [apply extract_with_selenium_triple|].
  intros selenium_html _.
  destruct (negb _);
    [by apply crawl_from_triple|apply triple_weaken, triple_ret; constructor].
Qed.

Lemma async_with_crawler_run {A : Type} (body : M A) (Q : A -> Prop)
    (s : scraper) :
  I s -> run_ok I body (may_raise Q) s ->
  run_ok I (async_with_crawler body) (may_raise Q) s.
Proof.
  intros Hs. unfold run_ok, async_with_crawler.
  destruct crawler_enter; [|done].
  destruct (body s) as [[a| |] s'] eqn:E; simpl; try done.
  intros [HI HQ]. by destruct (crawler_exit _).
Qed.

Lemma emergency_extraction_triple (site_url : string) :
  triple I (emergency_extraction site_url) (may_raise (fun _ => True)).
Proof.
  unfold emergency_extraction. cbv zeta.
  eapply triple_bind_may_raise; [apply extract_with_selenium_triple|].
  intros selenium_html _.
  destruct (negb _); [|by apply triple_weaken, triple_ret].
  destruct (_ =? 0); [|by apply triple_weaken, triple_ret].
  eapply triple_bind_may_raise; [by apply (triple_lift _ _ (fun _ => True))|].
  intros links _. by apply triple_weaken, triple_ret.
Qed.

(** The entry point, from any state of the scraper object: it returns
    or raises, and does not run out of fuel. *)
Lemma extract_jobs_from_site_run (site_url : string) (s : scraper) :
  Dok 0 -> I (reset_guards s) ->
  run_ok I (extract_jobs_from_site site_url country)
    (may_raise (fun _ => True)) s.
Proof.
  intros Hd Hs. unfold extract_jobs_from_site. apply run_modify.
  apply run_try_except_may_raise; [|apply emergency_extraction_triple].
  apply async_with_crawler_run; [done|].
  eapply run_weaken; [|by apply crawl_site_triple].
  intros o. by apply may_raise_mono.
Qed.

End CrawlInvariant.

(** ** The session invariant *)

Section SessionFacts.
Import PyStr ScraperFilters ExpertJobScraper CrawlSpec.

Lemma session_ok_reset (s : scraper) : session_ok (reset_guards s).
Proof. split; simpl; try done; try constructor; by intros u ?%elem_of_nil. Qed.

Lemma session_ok_visit (s : scraper) (u : string) (d : nat) :
  session_ok s -> d <= S MAX_DEPTH -> session_ok (log (EvVisit u d) s).
Proof. intros [] Hd. split; simpl; auto. Qed.

Lemma session_ok_scan (s : scraper) (u : string) :
  session_ok s -> session_ok (log (EvScan u) s).
Proof. intros []. split; simpl; auto. Qed.

Lemma session_ok_detail (s : scraper) (u : string) :
  session_ok s -> session_ok (log (EvDetail u) s).
Proof. intros []. split; simpl; auto. Qed.

Lemma session_ok_add_visited_url (s : scraper) (u : string) :
  session_ok s -> session_ok (add_visited_url u s).
Proof. intros []. split; simpl; auto. intros v Hv. set_solver. Qed.

Lemma session_ok_add_visited_gateway (s : scraper) (u : string) :
  session_ok s -> session_ok (add_visited_gateway u s).
Proof. intros []. split; simpl; auto. Qed.

Lemma session_ok_add_visited_job_url (s : scraper) (u : string) :
  session_ok s -> session_ok (add_visited_job_url u s).
Proof. intros []. split; simpl; auto. Qed.

(** The fetch of [_recursive_crawl] is recorded after the guards: the
    URL was not in [visited_urls], so it was never fetched there. *)
Lemma session_ok_light (s : scraper) (u : string) (d : nat) :
  session_ok s -> d <= S MAX_DEPTH -> d <= MAX_DEPTH -> u ∉ visited_urls s ->
  session_ok
    (log (EvLight u)
       (add_seen_url u (add_visited_url u (log (EvVisit u d) s)))).
Proof.
  intros [] Hd Hd' Hnew. split; simpl; auto.
  - apply NoDup_cons. split; [|done]. intros Hin. by apply Hnew, ok_light_visited0.
  - intros v [->|Hv]%elem_of_cons; set_solver.
Qed.

(** A browser is launched only for a URL that is not marked, hence one
    for which none was launched. *)
Lemma session_ok_heavy (s : scraper) (u : string) :
  session_ok s -> used_selenium_for_url s !! u <> Some true ->
  session_ok (log (EvHeavy u) (mark_selenium u s)).
Proof.
  intros [] Hnew. split; simpl; auto.
  - apply NoDup_cons. split; [|done]. intros Hin. by apply Hnew, ok_heavy_marked0.
  - intros v [->|Hv]%elem_of_cons.
    + apply lookup_insert_eq.
    + destruct (decide (u = v)) as [->|Hne];
        [apply lookup_insert_eq|rewrite lookup_insert_ne; auto].
Qed.

Lemma trace_ok_visit (t : list event) (u : string) (d : nat) :
  trace_ok t -> EvVisit u d ∈ t -> d <= S MAX_DEPTH.
Proof.
  induction t as [|e t IH]; intros Hok Hin; [by apply elem_of_nil in Hin|].
  apply elem_of_cons in Hin as [<-|Hin]; [by destruct Hok|].
  apply IH; [|done]. destruct e; simpl in Hok; tauto.
Qed.

Lemma trace_ok_light (t pre post : list event) (u : string) :
  trace_ok t -> t = pre ++ EvLight u :: post ->
  exists d post', post = EvVisit u d :: post' /\ d <= MAX_DEPTH.
Proof.
  revert t. induction pre as [|e pre IH]; intros t Hok ->.
  - simpl in Hok. destruct Hok as [Hhead _].
    destruct post as [|[] post']; try done.
    destruct Hhead as [-> Hd]. eauto.
  - apply (IH (pre ++ EvLight u :: post)); [|done].
    destruct e; simpl in Hok; tauto.
Qed.

Lemma light_urls_sub (t : list event) (u : string) :
  u ∈ light_urls t -> u ∈ arun_urls t.
Proof.
  induction t as [|[] t IH]; simpl; rewrite ?elem_of_cons; tauto.
Qed.

End SessionFacts.

(** ** The crawl controller *)

Section CrawlFacts.
Import PyStr ScraperFilters ExpertJobScraper CrawlSpec.
Context {node : Type} `{Dom node} `{PyLib} `{World}.

(** The entry point keeps the session invariant, whether it returns or
    raises. *)
Lemma extract_jobs_session_ok (site_url country : string) (s : scraper) :
  run_ok session_ok (extract_jobs_from_site site_url country)
    (may_raise (fun _ => True)) s.
Proof.
  apply (extract_jobs_from_site_run session_ok (fun d => d <= S MAX_DEPTH));
    eauto using session_ok_visit, session_ok_light,
      session_ok_add_visited_url, session_ok_add_visited_gateway,
      session_ok_add_visited_job_url, session_ok_scan, session_ok_detail,
      session_ok_heavy, session_ok_reset.
  - intros d _ Hd. lia.
  - lia.
Qed.

(** From any state and at any depth, [_recursive_crawl] returns a list
    of validated records: it neither raises nor runs out of fuel. *)
Lemma recursive_crawl_returns (url country : string) (depth : nat)
    (s : scraper) :
  exists jobs,
    fst (_recursive_crawl url country depth s) = Ok jobs
    /\ valid_jobs country jobs.
Proof.
  destruct (recursive_crawl_triple (fun _ => True) (fun _ => True) country)
    with (url := url) (depth := depth) (s := s) as [_ Hret]; try done.
  destruct (fst _) as [jobs| |]; [|done..]. by exists jobs.
Qed.

Lemma crawl_body_deep (self : string -> nat -> M (list job))
    (url country : string) (depth : nat) (s : scraper) :
  MAX_DEPTH < depth ->
  crawl_body self url country depth s = (Ok [], log (EvVisit url depth) s).
Proof.
  intros Hd. unfold crawl_body, bind, modify.
  by destruct (Nat.ltb_spec MAX_DEPTH depth); [|lia].
Qed.

(** A call that a guard stops returns the empty list; it has recorded
    its entry and at most added the URL to [visited_urls]. *)
Lemma crawl_body_stopped (self : string -> nat -> M (list job))
    (url country : string) (depth : nat) (s : scraper) :
  MAX_DEPTH < depth \/ url ∈ visited_urls s \/ should_skip_url url = true
  \/ url ∈ seen_urls s \/ url ∈ visited_gateways s ->
  exists s',
    crawl_body self url country depth s = (Ok [], s')
    /\ (s' = log (EvVisit url depth) s
        \/ s' = add_visited_url url (log (EvVisit url depth) s)).
Proof.
  intros Hstop. unfold crawl_body, bind, modify, get, ret.
  destruct (MAX_DEPTH <? depth) eqn:Hd; [eauto|].
  cbn [visited_urls log]. case_bool_decide as Hv; [eauto|].
  destruct (should_skip_url url) eqn:Hskip; [eauto|].
  destruct (3 <? depth); [eauto|].
  cbn [seen_urls visited_gateways add_visited_url log].
  destruct Hstop as [Hdeep|[?|[?|[Hseen|Hgate]]]]; try done.
  - apply Nat.ltb_ge in Hd. lia.
  - rewrite (bool_decide_eq_true_2 _ Hseen). eauto.
  - rewrite (bool_decide_eq_true_2 _ Hgate), orb_true_r. eauto.
Qed.

(** A call that passes every guard records the URL and goes on to the
    fetch, under the [try]. *)
Lemma crawl_body_guarded (self : string -> nat -> M (list job))
    (url country : string) (depth : nat) (s : scraper) :
  depth <= MAX_DEPTH -> url ∉ visited_urls s -> should_skip_url url = false ->
  url ∉ seen_urls s -> url ∉ visited_gateways s ->
  crawl_body self url country depth s =
  try_except
    (page <- load_page url ;;
     match page with
     | Some soup => crawl_dispatch self url country depth soup
     | None => ret []
     end)
    (ret [])
    (add_seen_url url (add_visited_url url (log (EvVisit url depth) s))).
Proof.
  intros Hd Hv Hskip Hseen Hgate. unfold crawl_body at 1.
  unfold bind at 1, modify at 1. cbv beta iota.
  destruct (Nat.ltb_spec MAX_DEPTH depth); [lia|].
  unfold bind at 1, get at 1. cbv beta iota. cbn [visited_urls log].
  rewrite (bool_decide_eq_false_2 _ Hv).
  unfold bind at 1, modify at 1. cbv beta iota. rewrite Hskip.
  destruct (Nat.ltb_spec 3 depth); [unfold MAX_DEPTH in *; lia|].
  unfold bind at 1, get at 1. cbv beta iota.
  cbn [seen_urls visited_gateways add_visited_url log].
  rewrite (bool_decide_eq_false_2 _ Hseen), (bool_decide_eq_false_2 _ Hgate).
  cbn [orb]. unfold bind at 1, modify at 1. done.
Qed.

Lemma recursive_crawl_unfold (url country : string) (depth : nat) :
  _recursive_crawl url country depth =
  crawl_body (crawl (S MAX_DEPTH - depth) country) url country depth.
Proof. reflexivity. Qed.

(** The recursive call is used at the next depth only, and only by a
    call that is not too deep. *)
Lemma bind_ext {A B : Type} (m : M A) (k1 k2 : A -> M B) (s : scraper) :
  (forall a s', k1 a s' = k2 a s') -> bind m k1 s = bind m k2 s.
Proof. intros Hk. unfold bind. by destruct (m s) as [[a| |] s']. Qed.

Lemma crawl_categories_ext (self1 self2 : string -> nat -> M (list job))
    (depth : nat) (category_links : list category) (all_jobs : list job)
    (s : scraper) :
  (forall u s', self1 u (depth + 1) s' = self2 u (depth + 1) s') ->
  crawl_categories self1 depth category_links all_jobs s
  = crawl_categories self2 depth category_links all_jobs s.
Proof.
  intros Hself. revert all_jobs s.
  induction category_links as [|cat rest IH]; intros all_jobs s; [done|].
  cbn [crawl_categories]. apply bind_ext. intros s0 s'.
  destruct (negb _); [|apply IH].
  unfold bind. rewrite Hself.
  destruct (self2 _ _ _) as [[jobs| |] s'']; [apply IH|done..].
Qed.

Lemma crawl_dispatch_ext (self1 self2 : string -> nat -> M (list job))
    (url country : string) (depth : nat) (soup : node) (s : scraper) :
  (forall u s', self1 u (depth + 1) s' = self2 u (depth + 1) s') ->
  crawl_dispatch self1 url country depth soup s
  = crawl_dispatch self2 url country depth soup s.
Proof.
  intros Hself. unfold crawl_dispatch.
  apply bind_ext. intros page_type s0. destruct page_type; try done.
  - apply bind_ext. intros extracted s'.
    destruct (_ =? 0); [|done].
    apply bind_ext. intros category_links s1. destruct (0 <? _); [|done].
    unfold bind. by rewrite (crawl_categories_ext self1 self2).
  - apply bind_ext. intros [] s'.
    apply bind_ext. intros category_links s1.
    unfold bind at 1 3. by rewrite (crawl_categories_ext self1 self2).
  - apply bind_ext. intros jobs s'.
    destruct (_ =? 0); [|done].
    apply bind_ext. intros category_links s1. destruct (0 <? _); [|done].
    unfold bind. by rewrite (crawl_categories_ext self1 self2).
Qed.

Lemma crawl_body_ext (self1 self2 : string -> nat -> M (list job))
    (url country : string) (depth : nat) (s : scraper) :
  (depth <= MAX_DEPTH ->
   forall u s', self1 u (depth + 1) s' = self2 u (depth + 1) s') ->
  crawl_body self1 url country depth s = crawl_body self2 url country depth s.
Proof.
  intros Hself. destruct (Nat.ltb_spec MAX_DEPTH depth) as [Hdeep|Hshallow].
  { by rewrite !crawl_body_deep. }
  specialize (Hself Hshallow). unfold crawl_body.
  apply bind_ext. intros [] s1. destruct (_ <? _); [done|].
  apply bind_ext. intros s2 s3. destruct (bool_decide _); [done|].
  apply bind_ext. intros [] s4. destruct (should_skip_url url); [done|].
  destruct (3 <? depth); [done|].
  apply bind_ext. intros s5 s6. destruct (_ || _); [done|].
  apply bind_ext. intros [] s7. unfold try_except.
  assert (Hbody :
    bind (load_page url)
      (fun page => match page with
                   | Some soup => crawl_dispatch self1 url country depth soup
                   | None => ret []
                   end) s7
    = bind (load_page url)
        (fun page => match page with
                     | Some soup => crawl_dispatch self2 url country depth soup
                     | None => ret []
                     end) s7).
  { apply bind_ext. intros [soup|] s8; [|done]. by apply crawl_dispatch_ext. }
  by rewrite Hbody.
Qed.

(** Fuel beyond the nesting of the calls changes nothing: with enough
    fuel [crawl] is [_recursive_crawl]. *)
Lemma crawl_fuel_enough (fuel : nat) (url country : string) (depth : nat)
    (s : scraper) :
  S MAX_DEPTH - depth < fuel ->
  crawl fuel country url depth s = _recursive_crawl url country depth s.
Proof.
  unfold _recursive_crawl.
  revert url depth s. induction fuel as [|fuel IH]; intros url depth s Hfuel.
  - lia.
  - cbn [crawl]. apply crawl_body_ext. intros Hshallow u s'.
    rewrite IH by lia. unfold _recursive_crawl.
    replace (S MAX_DEPTH - depth) with (S (S MAX_DEPTH - (depth + 1))) by lia.
    done.
Qed.

End CrawlFacts.

(** ** Properties of the engine *)

Section EngineProperties.
Import PyStr ScraperFilters ExpertJobScraper CrawlSpec.
Context {node : Type} `{Dom node} `{PyLib} `{World}.

(** The entry point returns a list or raises; it raises only when the
    block under [async with] raised and the emergency extraction, run
    in the state the crash left, raised in turn. *)
Lemma extract_jobs_from_site_outcome (site_url country : string)
    (s : scraper) :
  ((exists jobs, fst (extract_jobs_from_site site_url country s) = Ok jobs)
   \/ fst (extract_jobs_from_site site_url country s) = Raised)
  /\ (fst (extract_jobs_from_site site_url country s) = Raised ->
      exists s1,
        async_with_crawler (crawl_site site_url country) (reset_guards s)
          = (Raised, s1)
        /\ fst (emergency_extraction site_url s1) = Raised).
Proof.
  split.
  - destruct (extract_jobs_session_ok site_url country s) as [_ Hret].
    destruct (fst _) as [jobs| |]; [left; by exists jobs|by right|done].
  - pose proof (extract_jobs_session_ok site_url country s) as [_ Hret].
    revert Hret.
    unfold extract_jobs_from_site, bind, modify, try_except.
    destruct (async_with_crawler _ _) as [[jobs| |] s1]; cbn [fst];
      [done| |done].
    intros _ Hraise. by exists s1.
Qed.

(** X26.  From any state of the scraper object and in any web, every
    call of [_recursive_crawl] returns a list: it does not raise, whatever the
    fetchers and the library raise or fail to load under its [try],
    and its recursion is bounded.  A call whose fetch raises returns
    the empty list, and the loop over category links then goes on with
    the next link.  When the block under [async with] raises, or the
    crawler cannot start, the result of the entry point is that of the
    emergency extraction, run in the state the crash left; the entry
    point returns a list or raises, and raises only when that
    extraction does. *)
Theorem recursive_crawl_total (site_url country : string) (s : scraper) :
  (forall url depth s',
      exists jobs, fst (_recursive_crawl url country depth s') = Ok jobs)
  /\ (forall url depth s',
        depth <= MAX_DEPTH -> url ∉ visited_urls s' ->
        should_skip_url url = false ->
        url ∉ seen_urls s' -> url ∉ visited_gateways s' ->
        arun (EvVisit url depth :: trace s') url (_is_spa_url url) 10
          = ArunRaises ->
        fst (_recursive_crawl url country depth s') = Ok [])
  /\ (forall self depth cat rest all_jobs s' s'',
        cat_url cat ∉ visited_gateways s' ->
        self (cat_url cat) (depth + 1) s' = (Ok [], s'') ->
        crawl_categories self depth (cat :: rest) all_jobs s'
        = crawl_categories self depth rest all_jobs s'')
  /\ (forall s1,
        async_with_crawler (crawl_site site_url country) (reset_guards s)
          = (Raised, s1) ->
        extract_jobs_from_site site_url country s
        = emergency_extraction site_url s1)
  /\ (crawler_enter = false ->
      extract_jobs_from_site site_url country s
      = emergency_extraction site_url (reset_guards s))
  /\ ((exists jobs, fst (extract_jobs_from_site site_url country s) = Ok jobs)
      \/ fst (extract_jobs_from_site site_url country s) = Raised)
  /\ (fst (extract_jobs_from_site site_url country s) = Raised ->
      exists s1,
        async_with_crawler (crawl_site site_url country) (reset_guards s)
          = (Raised, s1)
        /\ fst (emergency_extraction site_url s1) = Raised).
Proof.
  split; [|split; [|split; [|split; [|split]]]].
  - intros url depth s'.
    destruct (recursive_crawl_returns url country depth s') as (jobs & ? & _).
    by exists jobs.
  - intros url depth s' Hd Hv Hskip Hseen Hgate Hraise.
    rewrite recursive_crawl_unfold, crawl_body_guarded by done.
    unfold try_except, bind at 1, load_page, bind at 1, crawler_arun.
    cbn [trace log add_seen_url add_visited_url]. by rewrite Hraise.
  - intros self depth cat rest all_jobs s' s'' Hgate Hself.
    cbn [crawl_categories]. unfold bind at 1, get. cbv beta iota.
    rewrite (bool_decide_eq_false_2 _ Hgate). cbn [negb].
    unfold bind at 1. rewrite Hself. by rewrite app_nil_r.
  - intros s1 Hcrash. unfold extract_jobs_from_site, bind, modify, try_except.
    by rewrite Hcrash.
  - intros Henter.
    unfold extract_jobs_from_site, bind, modify, try_except,
      async_with_crawler. by rewrite Henter.
  - apply extract_jobs_from_site_outcome.
Qed.

(** C3, as amended.  In every session each entry into
    [_recursive_crawl] is at depth [MAX_DEPTH + 1] = 3 at most, and each
    of its fetches follows the entry of a call at depth [MAX_DEPTH] = 2
    at most.  A call at a depth above [MAX_DEPTH] returns the empty
    list and changes nothing but the record of its entry; a call
    stopped by the depth check, the visited-URL check, the URL guard
    or the visited-gateway check returns the empty list without any
    fetch, light or heavy. *)
Theorem recursion_depth_bounded (site_url country : string) (s : scraper) :
  (forall u d,
      EvVisit u d ∈ trace (snd (extract_jobs_from_site site_url country s)) ->
      d <= S MAX_DEPTH)
  /\ (forall pre post u,
        trace (snd (extract_jobs_from_site site_url country s))
          = pre ++ EvLight u :: post ->
        exists d post', post = EvVisit u d :: post' /\ d <= MAX_DEPTH)
  /\ MAX_DEPTH = 2
  /\ (forall url depth s',
        MAX_DEPTH < depth ->
        _recursive_crawl url country depth s'
        = (Ok [], log (EvVisit url depth) s'))
  /\ (forall url depth s',
        MAX_DEPTH < depth \/ url ∈ visited_urls s'
        \/ should_skip_url url = true
        \/ url ∈ seen_urls s' \/ url ∈ visited_gateways s' ->
        exists s'',
          _recursive_crawl url country depth s' = (Ok [], s'')
          /\ arun_urls (trace s'') = arun_urls (trace s')
          /\ heavy_urls (trace s'') = heavy_urls (trace s')).
Proof.
  destruct (extract_jobs_session_ok site_url country s) as [[Hok _ _ _ _] _].
  split; [|split; [|split; [done|split]]].
  - intros u d. by apply trace_ok_visit.
  - intros pre post u. by apply trace_ok_light.
  - intros url depth s' Hd. by apply crawl_body_deep.
  - intros url depth s' Hstop. rewrite recursive_crawl_unfold.
    destruct (crawl_body_stopped (crawl (S MAX_DEPTH - depth) country)
                url country depth s' Hstop) as (s'' & -> & [->| ->]);
      by eexists.
Qed.

(** C4, as amended.  In every session [_recursive_crawl] fetches no URL
    twice, each URL it fetched being in [visited_urls], and a browser
    is launched at most once per URL, each such URL being marked in
    [used_selenium_for_url].  (The scan of the root URL at the entry
    point and the fetches of job links are further calls of the light
    tier that [visited_urls] does not cover.) *)
Theorem fetch_once_per_session (site_url country : string) (s : scraper) :
  let s' := snd (extract_jobs_from_site site_url country s) in
  NoDup (light_urls (trace s'))
  /\ (forall u, u ∈ light_urls (trace s') -> u ∈ visited_urls s')
  /\ NoDup (heavy_urls (trace s'))
  /\ (forall u, u ∈ heavy_urls (trace s') ->
                used_selenium_for_url s' !! u = Some true).
Proof.
  by destruct (extract_jobs_session_ok site_url country s) as [[] _].
Qed.

End EngineProperties.

Section ExtractionProperties.
Import PyStr ScraperFilters ExpertJobScraper CrawlSpec.
Context {node : Type} `{Dom node} `{PyLib} `{World}.





(** C7.  A page whose text contains one of the marker phrases of
    [info_keywords] and on which no job card is found is classified
    [CAREER_INFO], whatever its URL and whatever else the page holds:
    the rule comes first.  The crawl controller returns the empty list
    for such a page and leaves the scraper object as the page load left
    it: it follows none of the links of the page. *)
Theorem career_info_hard_stop (soup : node) (url : string)
    (Hmarker : any_in info_keywords (lower (get_text soup)) = true)
    (Hcards : length (_find_job_cards soup) = 0) :
  _classify_page_type soup url = Returns CAREER_INFO
  /\ (forall self country depth s,
        crawl_dispatch self url country depth soup s = (Ok [], s))
  /\ (forall country depth s s1,
        depth <= MAX_DEPTH -> url ∉ visited_urls s ->
        should_skip_url url = false ->
        url ∉ seen_urls s -> url ∉ visited_gateways s ->
        load_page url
          (add_seen_url url (add_visited_url url (log (EvVisit url depth) s)))
        = (Ok (Some soup), s1) ->
        _recursive_crawl url country depth s = (Ok [], s1)).
Proof.
  assert (Hclass : _classify_page_type soup url = Returns CAREER_INFO).
  { unfold _classify_page_type. cbv zeta. by rewrite Hmarker, Hcards. }
  assert (Hstop : forall self country depth s,
             crawl_dispatch self url country depth soup s = (Ok [], s)).
  { intros. unfold crawl_dispatch. by rewrite Hclass. }
  split; [done|]. split; [done|].
  intros country depth s s1 Hd Hv Hskip Hseen Hgate Hload.
  rewrite recursive_crawl_unfold, crawl_body_guarded by done.
  unfold try_except, bind at 1. rewrite Hload. by rewrite Hstop.
Qed.

Lemma should_skip_blocked_term (url t : string) :
  In t ["benefits"; "my-profile"; "candidateexperience"; "skip-to-main"] ->
  str_in t (lower url) = true ->
  should_skip_url url = true.
Proof.
  intros Hterm Hin. unfold should_skip_url.
  destruct (sanitize_url url) as [u|] eqn:Hu; [|done].
  apply sanitize_url_some in Hu as [-> _].
  destruct (is_empty (strip url)); [done|].
  rewrite lower_strip. apply (any_in_true _ _ t).
  - simpl in Hterm. unfold skipped_terms. simpl.
    decompose [or] Hterm; subst; tauto.
  - simpl in Hterm.
    apply str_in_strip; [| |done]; decompose [or] Hterm; by subst.
Qed.

(** From a blocked root, the entry point returns the empty list and
    leaves the scraper object as the resets left it, whether or not the
    crawler starts and stops. *)
Lemma extract_jobs_blocked_root (site_url country : string) (s : scraper) :
  should_skip_url (_get_job_detail_url site_url) = true ->
  extract_jobs_from_site site_url country s = (Ok [], reset_guards s).
Proof.
  intros Hskip.
  assert (Hsite : forall s0, crawl_site site_url country s0 = (Ok [], s0)).
  { intros s0. unfold crawl_site. cbv zeta. by rewrite Hskip. }
  assert (Hem : forall s0, emergency_extraction site_url s0 = (Ok [], s0)).
  { intros s0. unfold emergency_extraction, bind, _extract_with_selenium.
    cbv zeta. by rewrite Hskip. }
  unfold extract_jobs_from_site, bind, modify, try_except, async_with_crawler.
  rewrite Hsite. destruct crawler_enter; [|apply Hem].
  destruct (crawler_exit _); [done|apply Hem].
Qed.

(** C10, as amended.  A URL whose lower-case form contains "benefits",
    "my-profile", "candidateexperience" or "skip-to-main" is blocked by
    [should_skip_url]; every call of [_recursive_crawl] on it returns
    the empty list without any fetch, light or heavy; and the entry
    point returns the empty list without any fetch for every root URL
    that [_get_job_detail_url] maps to it, the URL itself when it has
    no "/apply" or "/application" part. *)
Theorem blocked_terms_stop_crawl (url t : string)
    (Hterm : In t ["benefits"; "my-profile"; "candidateexperience";
                   "skip-to-main"])
    (Hin : str_in t (lower url) = true) :
  should_skip_url url = true
  /\ (forall country depth s,
        exists s',
          _recursive_crawl url country depth s = (Ok [], s')
          /\ arun_urls (trace s') = arun_urls (trace s)
          /\ heavy_urls (trace s') = heavy_urls (trace s))
  /\ (forall site_url country s,
        _get_job_detail_url site_url = url ->
        extract_jobs_from_site site_url country s = (Ok [], reset_guards s)
        /\ trace (reset_guards s) = []).
Proof.
  pose proof (should_skip_blocked_term url t Hterm Hin) as Hskip.
  split; [done|]. split.
  - intros country depth s. rewrite recursive_crawl_unfold.
    destruct (crawl_body_stopped (crawl (S MAX_DEPTH - depth) country)
                url country depth s) as (s' & -> & [->| ->]);
      [tauto|by eexists..].
  - intros site_url country s Hsite. split; [|done].
    apply extract_jobs_blocked_root. by rewrite Hsite.
Qed.

End ExtractionProperties.

(** ** Runs on the concrete web *)

Section ConcreteRuns.
Import PyStr ScraperFilters ExpertJobScraper CrawlSpec TestWeb.

(** C2, failing input.  The light tier raises at the scan of the root
    URL, so the [except] branch of the entry point runs; the browser
    renders the page, which has no job card and one link, whose [href]
    "http://[" makes [urljoin] raise [ValueError] in [_find_job_links],
    a call that no [try] covers: [extract_jobs_from_site] raises.  It
    raises too when the browser session of that branch ends in an
    exception. *)
Theorem extract_jobs_from_site_raises :
  @arun browser_world [] "https://x.com/broken" false 45 = ArunRaises
  /\ map get_href (find_all (parse "https://x.com/broken") Q_anchor_href)
     = [Some "http://["]
  /\ _find_job_cards (parse "https://x.com/broken") = []
  /\ urljoin "https://x.com/broken" "http://[" = Raises
  /\ _find_job_links (parse "https://x.com/broken") "https://x.com/broken"
     = Raises
  /\ fst (@extract_jobs_from_site cnode test_dom test_lib browser_world
            "https://x.com/broken" "Germany" new_scraper) = Raised
  /\ fst (@extract_jobs_from_site cnode test_dom test_lib
            failing_browser_world "https://x.com/hub" "Germany" new_scraper)
     = Raised.
Proof. by vm_compute. Qed.

Lemma recursive_crawl_total_witness :
  @crawler_enter broken_world = false
  /\ @extract_jobs_from_site cnode test_dom test_lib broken_world
       "https://x.com/hub" "Germany" new_scraper
     = @emergency_extraction cnode test_dom test_lib broken_world
         "https://x.com/hub" (reset_guards new_scraper)
  /\ fst (@extract_jobs_from_site cnode test_dom test_lib broken_world
            "https://x.com/hub" "Germany" new_scraper) = Ok []
  /\ fst (@_recursive_crawl cnode test_dom test_lib broken_world
            "https://x.com/hub" "Germany" 0 new_scraper) = Ok [].
Proof.
  destruct (@recursive_crawl_total cnode test_dom test_lib broken_world
              "https://x.com/hub" "Germany" new_scraper)
    as (_ & Hbranch & _ & _ & Hcrash & _).
  split; [reflexivity|]. split; [by apply Hcrash|].
  split; [rewrite Hcrash by reflexivity; by vm_compute|].
  apply Hbranch; [unfold MAX_DEPTH; lia|set_solver|by vm_compute
                 |set_solver|set_solver|reflexivity].
Defined.

(** C3, counterexample.  From the hub page the crawl follows three
    category links in a row; the third call of [_recursive_crawl] is
    made at depth 3, above [MAX_DEPTH] = 2. *)
Lemma visit_at_depth_three :
  trace (snd (extract_jobs_from_site "https://x.com/hub" "Germany" new_scraper))
  = [EvVisit "https://x.com/c" 3;
     EvLight "https://x.com/b"; EvVisit "https://x.com/b" 2;
     EvLight "https://x.com/a"; EvVisit "https://x.com/a" 1;
     EvLight "https://x.com/hub"; EvVisit "https://x.com/hub" 0;
     EvScan "https://x.com/hub"]
  /\ MAX_DEPTH = 2.
Proof. by vm_compute. Qed.

Lemma recursion_depth_bounded_witness :
  MAX_DEPTH < 3
  /\ _recursive_crawl "https://x.com/c" "Germany" 3 new_scraper
     = (Ok [], log (EvVisit "https://x.com/c" 3) new_scraper).
Proof.
  split; [unfold MAX_DEPTH; lia|].
  apply (recursion_depth_bounded "https://x.com/hub" "Germany" new_scraper).
  unfold MAX_DEPTH; lia.
Defined.

(** C4, counterexample.  The root URL is given to the light tier
    twice, by the scan of the entry point and by [_recursive_crawl]. *)
Lemma root_fetched_twice :
  arun_urls
    (trace (snd (extract_jobs_from_site "https://x.com" "Germany" new_scraper)))
  = ["https://x.com"; "https://x.com"]
  /\ trace (snd (extract_jobs_from_site "https://x.com" "Germany" new_scraper))
     = [EvLight "https://x.com"; EvVisit "https://x.com" 0;
        EvScan "https://x.com"].
Proof. by vm_compute. Qed.



Lemma career_info_hard_stop_witness :
  any_in info_keywords (lower (get_text culture_page)) = true
  /\ length (_find_job_cards culture_page) = 0
  /\ _classify_page_type culture_page "https://x.com/culture"
     = Returns CAREER_INFO
  /\ _recursive_crawl "https://x.com/culture" "Germany" 0 new_scraper
     = (Ok [],
        snd (load_page "https://x.com/culture"
               (add_seen_url "https://x.com/culture"
                  (add_visited_url "https://x.com/culture"
                     (log (EvVisit "https://x.com/culture" 0) new_scraper)))))
  /\ trace (snd (_recursive_crawl "https://x.com/culture" "Germany" 0
                   new_scraper))
     = [EvLight "https://x.com/culture"; EvVisit "https://x.com/culture" 0].
Proof.
  assert (Hm : any_in info_keywords (lower (get_text culture_page)) = true)
    by by vm_compute.
  assert (Hc : length (_find_job_cards culture_page) = 0) by by vm_compute.
  destruct (@career_info_hard_stop cnode test_dom test_lib test_world
              culture_page "https://x.com/culture" Hm Hc) as (H1 & _ & H3).
  split; [exact Hm|]. split; [exact Hc|]. split; [exact H1|].
  assert (Hrun : _recursive_crawl "https://x.com/culture" "Germany" 0 new_scraper
     = (Ok [],
        snd (load_page "https://x.com/culture"
               (add_seen_url "https://x.com/culture"
                  (add_visited_url "https://x.com/culture"
                     (log (EvVisit "https://x.com/culture" 0) new_scraper)))))).
  { apply H3; [unfold MAX_DEPTH; lia|set_solver|by vm_compute
              |set_solver|set_solver|by vm_compute]. }
  split; [exact Hrun|]. rewrite Hrun. by vm_compute.
Defined.

(** C10, counterexample.  The root URL below contains "benefits" and is
    blocked as it stands, but the entry point first cuts it at
    "/apply": it fetches "https://x.com" and returns the record found
    there. *)
Lemma blocked_root_crawled :
  str_in "benefits" (lower "https://x.com/apply/benefits") = true
  /\ should_skip_url "https://x.com/apply/benefits" = true
  /\ fst (extract_jobs_from_site "https://x.com/apply/benefits" "Germany"
            new_scraper) = Ok [posted_job]
  /\ arun_urls
       (trace (snd (extract_jobs_from_site "https://x.com/apply/benefits"
                      "Germany" new_scraper)))
     = ["https://x.com"; "https://x.com"].
Proof. by vm_compute. Qed.

Lemma blocked_terms_stop_crawl_witness :
  In "benefits" ["benefits"; "my-profile"; "candidateexperience"; "skip-to-main"]
  /\ str_in "benefits" (lower "https://x.com/benefits") = true
  /\ should_skip_url "https://x.com/benefits" = true
  /\ extract_jobs_from_site "https://x.com/benefits" "Germany" new_scraper
     = (Ok [], reset_guards new_scraper).
Proof.
  assert (Hterm : In "benefits" ["benefits"; "my-profile";
                                 "candidateexperience"; "skip-to-main"])
    by (by left).
  assert (Hin : str_in "benefits" (lower "https://x.com/benefits") = true)
    by by vm_compute.
  destruct (@blocked_terms_stop_crawl cnode test_dom test_lib test_world
              "https://x.com/benefits" "benefits" Hterm Hin)
    as (Hskip & _ & Hroot).
  split; [exact Hterm|]. split; [exact Hin|]. split; [exact Hskip|].
  apply Hroot. by vm_compute.
Defined.

Lemma matches_target_role_internship_witness :
  matches_target_role "Summer Intern" "internship" = true.
Proof.
  destruct (matches_target_role_internship "Summer Intern") as [[_ Hif] _].
  apply Hif. split.
  - exists "intern". split; [by left|by vm_compute].
  - intros t Ht. simpl in Ht. decompose [or] Ht; subst; by vm_compute.
Defined.

End ConcreteRuns.

(** * Further properties of the code *)

(** ** More on strings *)

Section MoreStringFacts.
Import PyStr.

Lemma lower_char_idem (c : ascii) : lower_char (lower_char c) = lower_char c.
Proof. by destruct c as [[] [] [] [] [] [] [] []]. Qed.

Lemma lower_idem (s : string) : lower (lower s) = lower s.
Proof.
  induction s as [|c s IH]; [done|]. simpl. by rewrite lower_char_idem, IH.
Qed.

Lemma lower_app (a b : string) : lower (a +:+ b) = lower a +:+ lower b.
Proof.
  induction a as [|c a IH]; [done|].
  rewrite str_app_cons. simpl. by rewrite IH.
Qed.

Lemma lower_is_empty (s : string) : is_empty (lower s) = is_empty s.
Proof. by destruct s. Qed.

Lemma str_in_app_l (t a b : string) :
  str_in t a = true -> str_in t (a +:+ b) = true.
Proof.
  intros (x & y & ->)%str_in_split. apply str_in_split.
  exists x, (y +:+ b). by rewrite <- !str_app_assoc.
Qed.

Lemma str_in_app_r (t a b : string) :
  str_in t b = true -> str_in t (a +:+ b) = true.
Proof.
  intros (x & y & ->)%str_in_split. apply str_in_split.
  exists (a +:+ x), y. by rewrite <- !str_app_assoc.
Qed.

Lemma str_in_empty (s : string) : str_in EmptyString s = true.
Proof. destruct s; [done|]. by rewrite str_in_cons, prefix_empty. Qed.

Lemma str_in_of_empty (t : string) :
  t <> EmptyString -> str_in t EmptyString = false.
Proof. intros Ht. rewrite str_in_nil. by destruct t. Qed.

(** A string that is empty or starts with a character that is no white
    space: what [lstrip] leaves alone. *)
Lemma lstrip_clean (s : string) :
  match s with
  | EmptyString => True
  | String c _ => is_space c = false
  end -> lstrip s = s.
Proof. destruct s as [|c s]; [done|]. simpl. by intros ->. Qed.

Lemma rstrip_idem (s : string) : rstrip (rstrip s) = rstrip s.
Proof.
  induction s as [|c s IH]; [done|]. cbn [rstrip].
  destruct (rstrip s) as [|d r] eqn:Hr.
  - destruct (is_space c) eqn:Hc; [done|]. cbn [rstrip]. by rewrite Hc.
  - cbn [rstrip]. fold rstrip. change (rstrip (String d r)) with
      (match rstrip r with
       | EmptyString => if is_space d then EmptyString else String d EmptyString
       | r' => String d r'
       end) in IH.
    change (match rstrip (String d r) with
            | EmptyString => if is_space c then EmptyString else String c EmptyString
            | r' => String c r'
            end = String c (String d r)).
    cbn [rstrip]. rewrite IH. done.
Qed.

Lemma rstrip_head (s : string) (c : ascii) (r : string) :
  rstrip s = String c r -> exists s', s = String c s'.
Proof.
  destruct s as [|d s]; [done|]. cbn [rstrip].
  destruct (rstrip s); [destruct (is_space d)|]; intros [= -> _]; eauto.
Qed.

Lemma lstrip_head (s : string) :
  match lstrip s with
  | EmptyString => True
  | String c _ => is_space c = false
  end.
Proof.
  induction s as [|c s IH]; [done|]. simpl.
  destruct (is_space c) eqn:Hc; [done|]. by simpl.
Qed.

(** [strip] removes all it can: stripping again changes nothing. *)
Lemma strip_idem (s : string) : strip (strip s) = strip s.
Proof.
  unfold strip.
  assert (Hl : lstrip (rstrip (lstrip s)) = rstrip (lstrip s)).
  { apply lstrip_clean. destruct (rstrip (lstrip s)) as [|c r] eqn:Hr; [done|].
    apply rstrip_head in Hr as [s' Hs'].
    pose proof (lstrip_head s) as Hh. by rewrite Hs' in Hh. }
  by rewrite Hl, rstrip_idem.
Qed.

Lemma no_space_nonempty_terms (terms : list string) (t : string) :
  forallb (fun t => no_space t && negb (is_empty t)) terms = true ->
  In t terms -> no_space t = true /\ t <> EmptyString.
Proof.
  rewrite forallb_forall. intros Hall Hin.
  apply Hall, andb_true_iff in Hin as [Hn He].
  split; [done|]. apply is_empty_false. by apply negb_true_iff.
Qed.

Lemma take_length (n : nat) (s : string) : len (take n s) <= n.
Proof.
  unfold take, len. revert n. induction s as [|c s IH]; intros [|n]; simpl; try lia.
  specialize (IH n). lia.
Qed.

End MoreStringFacts.

(** ** More on the filters *)

Section MoreFilterFacts.
Import PyStr ScraperFilters ExpertJobScraper.

(** X1.  A URL that [sanitize_url] accepts starts, in lower case, with
    http:// or https://, has no white space around it, and is accepted
    unchanged when sanitized again. *)
Theorem sanitize_url_accepted (url v : string)
    (Hv : sanitize_url url = Some v) :
  (startswith (lower v) "http://" = true
   \/ startswith (lower v) "https://" = true)
  /\ strip v = v
  /\ v <> EmptyString
  /\ sanitize_url v = Some v.
Proof.
  apply sanitize_url_some in Hv as [-> Hhttp].
  assert (Hs : startswith (lower (strip url)) "http://" = true
               \/ startswith (lower (strip url)) "https://" = true).
  { unfold startswith_any in Hhttp. simpl in Hhttp.
    rewrite orb_false_r in Hhttp. by apply orb_true_iff in Hhttp. }
  assert (Hne : strip url <> EmptyString).
  { intros Heq. rewrite Heq in Hs. by destruct Hs. }
  split; [done|]. split; [apply strip_idem|]. split; [done|].
  unfold sanitize_url. apply is_empty_false in Hne. rewrite Hne, strip_idem.
  destruct (startswith_any (lower (strip url))
              ["mailto:"; "tel:"; "javascript:"; "data:"; "#"]) eqn:Hbad.
  - exfalso. unfold startswith in Hs.
    destruct Hs as [[r Hr]%prefix_split|[r Hr]%prefix_split];
      rewrite Hr in Hbad; by vm_compute in Hbad.
  - by rewrite Hhttp.
Qed.

Lemma sanitize_url_accepted_witness :
  sanitize_url "  HTTPS://x.com/jobs  " = Some "HTTPS://x.com/jobs"
  /\ strip "HTTPS://x.com/jobs" = "HTTPS://x.com/jobs"
  /\ sanitize_url "HTTPS://x.com/jobs" = Some "HTTPS://x.com/jobs".
Proof.
  assert (Hv : sanitize_url "  HTTPS://x.com/jobs  " = Some "HTTPS://x.com/jobs")
    by by vm_compute.
  destruct (sanitize_url_accepted _ _ Hv) as (_ & Hs & _ & Hi).
  by split; [|split].
Defined.

(** X2.  [is_valid_job] rejects a record without title or without
    company, a record whose title or company contains one of the junk
    terms in any letter case, and a record whose description has fewer
    than 50 characters; it accepts a record with a title, a company, no
    junk term in "title company" and a description of 500 characters or
    more. *)
Theorem is_valid_job_rules (j : job) :
  (job_title j = EmptyString \/ company j = EmptyString ->
   is_valid_job j = false)
  /\ (forall t, In t junk_terms ->
        str_in t (lower (job_title j)) = true
        \/ str_in t (lower (company j)) = true ->
        is_valid_job j = false)
  /\ (len (job_description j) < 50 -> is_valid_job j = false)
  /\ (job_title j <> EmptyString -> company j <> EmptyString ->
      any_in junk_terms (lower (job_title j +:+ " " +:+ company j)) = false ->
      500 <= len (job_description j) ->
      is_valid_job j = true).
Proof.
  unfold is_valid_job. cbv zeta. split; [|split; [|split]].
  - intros [->| ->]; [done|]. by rewrite orb_true_r.
  - intros t Ht Hin. destruct (_ || _); [done|].
    assert (any_in junk_terms (lower (job_title j +:+ " " +:+ company j)) = true)
      as ->; [|done].
    apply (any_in_true _ _ t Ht). rewrite !lower_app.
    destruct Hin as [Hin|Hin];
      [by apply str_in_app_l|by apply str_in_app_r, str_in_app_r].
  - intros Hshort. destruct (_ || _); [done|]. destruct (any_in _ _); [done|].
    by destruct (Nat.ltb_spec (len (job_description j)) 50); [|lia].
  - intros Ht%is_empty_false Hc%is_empty_false Hjunk Hlong.
    rewrite Ht, Hc, Hjunk. cbn [orb].
    destruct (Nat.ltb_spec (len (job_description j)) 50); [lia|].
    destruct (Nat.ltb_spec (len (job_description j)) 500); [lia|].
    by rewrite andb_false_r.
Qed.

(** X3.  The role matcher does not depend on the letter case of the
    title; it rejects the empty title in every mode, and in any mode
    other than "internship" it accepts every other title. *)
Theorem matches_target_role_case (title mode : string) :
  matches_target_role (lower title) mode = matches_target_role title mode
  /\ matches_target_role EmptyString mode = false
  /\ (mode <> "internship" -> title <> EmptyString ->
      matches_target_role title mode = true).
Proof.
  unfold matches_target_role. split; [|split].
  - by rewrite lower_is_empty, lower_idem.
  - done.
  - intros Hmode Ht%is_empty_false. rewrite Ht.
    by apply String.eqb_neq in Hmode as ->.
Qed.

Lemma skipped_terms_clean :
  forallb (fun t => no_space t && negb (is_empty t)) skipped_terms = true.
Proof. by vm_compute. Qed.

(** X4.  [should_skip_url] blocks every URL whose lower-case form
    contains any of its twelve terms, and every URL that [sanitize_url]
    rejects (empty, relative, or of another scheme).  A URL it lets
    through is, once stripped, an http or https URL whose lower-case
    form contains none of the terms. *)
Theorem should_skip_url_rules (url : string) :
  (forall t, In t skipped_terms -> str_in t (lower url) = true ->
             should_skip_url url = true)
  /\ (sanitize_url url = None -> should_skip_url url = true)
  /\ (should_skip_url url = false ->
      sanitize_url url = Some (strip url)
      /\ startswith_any (lower (strip url)) ["http://"; "https://"] = true
      /\ forall t, In t skipped_terms ->
                   str_in t (lower (strip url)) = false).
Proof.
  unfold should_skip_url. split; [|split].
  - intros t Ht Hin.
    destruct (no_space_nonempty_terms _ _ skipped_terms_clean Ht) as [Hn He].
    destruct (sanitize_url url) as [u|] eqn:Hu; [|done].
    apply sanitize_url_some in Hu as [-> _].
    destruct (is_empty (strip url)); [done|].
    rewrite lower_strip. apply (any_in_true _ _ t Ht). by apply str_in_strip.
  - by intros ->.
  - destruct (sanitize_url url) as [u|] eqn:Hu; [|done].
    apply sanitize_url_some in Hu as [-> Hhttp].
    destruct (is_empty (strip url)); [done|]. intros Hfree.
    split; [done|]. split; [done|]. by apply any_in_false_iff.
Qed.

Lemma should_skip_url_rules_witness :
  In "sso" skipped_terms
  /\ str_in "sso" (lower "https://x.com/jobs/Associate-Intern") = true
  /\ should_skip_url "https://x.com/jobs/Associate-Intern" = true
  /\ should_skip_url "https://x.com/jobs" = false
  /\ sanitize_url "https://x.com/jobs" = Some (strip "https://x.com/jobs").
Proof.
  assert (Ht : In "sso" skipped_terms) by (unfold skipped_terms; simpl; tauto).
  assert (Hin : str_in "sso" (lower "https://x.com/jobs/Associate-Intern") = true)
    by by vm_compute.
  assert (Hfree : should_skip_url "https://x.com/jobs" = false) by by vm_compute.
  destruct (should_skip_url_rules "https://x.com/jobs/Associate-Intern")
    as (Hblock & _ & _).
  destruct (should_skip_url_rules "https://x.com/jobs") as (_ & _ & Hpass).
  split; [exact Ht|]. split; [exact Hin|].
  split; [exact (Hblock "sso" Ht Hin)|].
  split; [exact Hfree|]. by destruct (Hpass Hfree).
Defined.

(** X5.  [_get_job_detail_url] returns a prefix of its argument that
    never contains "/apply"; it returns the argument itself when that is
    no apply URL.  Its result is no apply URL unless the argument holds
    both "/apply" and "/application". *)
Theorem get_job_detail_url_rules (url : string) :
  (exists rest, url = _get_job_detail_url url +:+ rest)
  /\ str_in "/apply" (_get_job_detail_url url) = false
  /\ (_is_apply_url url = false -> _get_job_detail_url url = url)
  /\ (str_in "/apply" url = false \/ str_in "/application" url = false ->
      _is_apply_url (_get_job_detail_url url) = false).
Proof.
  assert (Hfree : forall sep s,
             str_in sep s = false -> str_in sep (before "/apply" s) = false
             /\ str_in sep (before "/application" s) = false).
  { intros sep s Hs. split; apply not_true_iff_false; intros Hin;
      [destruct (before_is_prefix "/apply" s) as [rest Hrest]
      |destruct (before_is_prefix "/application" s) as [rest Hrest]];
      apply (str_in_app_l _ _ rest) in Hin; rewrite <- Hrest in Hin; congruence. }
  unfold _get_job_detail_url, _is_apply_url.
  destruct (str_in "/apply" url) eqn:Ha; [|destruct (str_in "/application" url) eqn:Hb].
  - split; [apply before_is_prefix|]. split; [by apply before_free|].
    split; [done|]. intros [|Hb]; [done|].
    rewrite before_free by done. by apply Hfree.
  - split; [apply before_is_prefix|]. split; [by apply Hfree|].
    split; [done|]. intros _.
    rewrite before_free by done. rewrite orb_false_r. by apply Hfree.
  - split; [exists EmptyString; clear; induction url as [|c u IH];
            [done|by rewrite str_app_cons, <- IH]|].
    split; [done|]. split; [done|]. intros _. by rewrite Ha, Hb.
Qed.

Lemma get_job_detail_url_rules_witness :
  _is_apply_url "https://x.com/job/7" = false
  /\ _get_job_detail_url "https://x.com/job/7" = "https://x.com/job/7"
  /\ str_in "/application" "https://x.com/job/7/apply" = false
  /\ _is_apply_url (_get_job_detail_url "https://x.com/job/7/apply") = false.
Proof.
  assert (H1 : _is_apply_url "https://x.com/job/7" = false) by by vm_compute.
  assert (H2 : str_in "/application" "https://x.com/job/7/apply" = false)
    by by vm_compute.
  split; [exact H1|].
  split; [by apply (get_job_detail_url_rules "https://x.com/job/7")|].
  split; [exact H2|].
  apply (get_job_detail_url_rules "https://x.com/job/7/apply"). by right.
Defined.

(** X6.  The confidence score of any record lies between -8 and 7. *)
Theorem score_job_bounds (r : job) : (-8 <= _score_job r <= 7)%Z.
Proof.
  unfold _score_job. cbv zeta.
  repeat match goal with
         | |- context [if ?b then _ else _] => destruct b
         end; lia.
Qed.

(** X7.  The country gate passes every record when the country is the
    empty string, does not depend on the letter case of the country,
    and passes every record whose location contains "remote",
    "worldwide" or "not specified" in any letter case. *)
Theorem validate_country_rules (j : job) (country : string) :
  _validate_country j EmptyString = true
  /\ _validate_country j (lower country) = _validate_country j country
  /\ (any_in ["remote"; "not specified"; "worldwide"] (lower (location j)) = true ->
      _validate_country j country = true).
Proof.
  unfold _validate_country. cbv zeta. split; [|split].
  - by rewrite str_in_empty.
  - by rewrite lower_idem.
  - unfold any_in. simpl. rewrite orb_false_r.
    intros [Hr|[Hn|Hw]%orb_true_iff]%orb_true_iff;
      rewrite ?Hr, ?Hn, ?Hw, ?orb_true_r; done.
Qed.

End MoreFilterFacts.

(** ** More on page analysis and extraction *)

Section MorePageFacts.
Import PyStr ScraperFilters ExpertJobScraper Invariants.
Context {node : Type} `{Dom node} `{PyLib}.

Lemma fold_left_invariant {A B : Type} (P : A -> Prop) (f : A -> B -> A)
    (l : list B) (a : A) :
  P a -> (forall a x, x ∈ l -> P a -> P (f a x)) -> P (fold_left f l a).
Proof.
  revert a. induction l as [|x l IH]; intros a Ha Hf; [done|].
  simpl. apply IH.
  - apply Hf; [by left|done].
  - intros a' y Hy. apply Hf. by right.
Qed.

Lemma firstn_length_le {A : Type} (n : nat) (l : list A) :
  length (firstn n l) <= n.
Proof. rewrite length_firstn. lia. Qed.

Lemma firstn_sublist {A : Type} (n : nat) (l : list A) :
  sublist (firstn n l) l.
Proof.
  rewrite <- (firstn_skipn n l) at 2. by apply sublist_inserts_r.
Qed.

Lemma card_step_ok (soup : node) (sel : string) (st : list node * gset string)
    (elem : node) :
  In sel card_selectors -> elem ∈ select soup sel ->
  cards_ok soup st -> cards_ok soup (card_step sel st elem).
Proof.
  intros Hsel Helem [Hall Hnd]. destruct st as [cards seen].
  unfold card_step. destruct (_ && negb _); [done|]. cbv zeta.
  destruct (is_empty (strip (get_text elem))) eqn:He; [done|].
  case_bool_decide as Hseen; [done|].
  destruct (_is_valid_job_card elem) eqn:Hv; [|done].
  cbn [negb andb fst snd] in *. split.
  - apply Forall_app. split.
    + eapply Forall_impl; [exact Hall|]. intros e (Hv' & Hne & Hin & Hfrom).
      split; [done|]. split; [done|]. split; [|done].
      apply elem_of_union. by right.
    + apply Forall_singleton. split; [done|].
      split; [by apply is_empty_false|]. split; [|by exists sel].
      apply elem_of_union. left. by apply elem_of_singleton.
  - cbn [fst]. rewrite map_app. apply NoDup_app. split; [done|]. split.
    + intros t Ht [->|[]%elem_of_nil]%elem_of_cons. apply Hseen.
      apply list_elem_of_fmap in Ht as (e & -> & He').
      rewrite Forall_forall in Hall. by destruct (Hall e He') as (_ & _ & ? & _).
    + apply NoDup_singleton.
Qed.

Lemma find_job_cards_length (soup : node) :
  length (_find_job_cards soup) <= 20.
Proof.
  unfold _find_job_cards. destruct (fold_left _ card_selectors _).
  apply firstn_length_le.
Qed.

(** X8.  [_find_job_cards] returns at most 20 elements; each is the
    result of one of the card selectors, passes [_is_valid_job_card] and
    has a non-empty stripped text, and no two of them have the same
    stripped text. *)
Theorem find_job_cards_rules (soup : node) :
  length (_find_job_cards soup) <= 20
  /\ Forall (fun e => _is_valid_job_card e = true
                      /\ strip (get_text e) <> EmptyString
                      /\ exists sel, In sel card_selectors
                                     /\ e ∈ select soup sel)
       (_find_job_cards soup)
  /\ NoDup (map (fun e => strip (get_text e)) (_find_job_cards soup)).
Proof.
  unfold _find_job_cards.
  assert (Hok : cards_ok soup
            (fold_left
               (fun st sel => fold_left (card_step sel) (select soup sel) st)
               card_selectors ([], ∅))).
  { apply (fold_left_invariant (cards_ok soup)).
    - split; simpl; constructor.
    - intros st sel Hsel Hst.
      apply (fold_left_invariant (cards_ok soup)); [done|].
      intros st' elem Helem Hst'. apply card_step_ok; try done.
      by apply list_elem_of_In. }
  destruct (fold_left _ card_selectors _) as [cards seen].
  destruct Hok as [Hall Hnd]. cbn [fst snd] in *.
  split; [apply firstn_length_le|]. split.
  - apply Forall_forall. intros e He.
    rewrite Forall_forall in Hall.
    destruct (Hall e) as (? & ? & _ & ?); [|done].
    eapply elem_of_sublist; [exact He|apply firstn_sublist].
  - apply (sublist_NoDup _ (map (fun e => strip (get_text e)) cards));
      [exact Hnd|].
    apply (fmap_sublist (fun e => strip (get_text e))), firstn_sublist.
Qed.

Lemma fold_raising_invariant {S A : Type} (P : S -> Prop)
    (step : S -> A -> raising S) (l : list A) (s s' : S) :
  P s ->
  (forall s x s', x ∈ l -> P s -> step s x = Returns s' -> P s') ->
  fold_raising step l s = Returns s' -> P s'.
Proof.
  revert s. induction l as [|x l IH]; intros s Hs Hstep; simpl.
  - by intros [= <-].
  - destruct (step s x) as [s1|] eqn:Hx; [|done]. apply IH.
    + apply (Hstep s x); [by left|done..].
    + intros s2 y s3 Hy. apply Hstep. by right.
Qed.

(** A loop whose step raises on certain elements, whatever the state,
    raises exactly when the list has such an element. *)
Lemma fold_raising_raises {S A : Type} (bad : A -> Prop)
    (step : S -> A -> raising S) (l : list A) (s : S) :
  (forall s x, step s x = Raises <-> bad x) ->
  fold_raising step l s = Raises <-> exists x, x ∈ l /\ bad x.
Proof.
  intros Hbad. revert s. induction l as [|x l IH]; intros s; simpl.
  - split; [done|]. by intros (x & ?%elem_of_nil & _).
  - destruct (step s x) as [s1|] eqn:Hx.
    + rewrite IH. split.
      * intros (y & Hy & Hb). exists y. split; [by right|done].
      * intros (y & [->|Hy]%elem_of_cons & Hb); [|by exists y].
        apply Hbad with (s := s) in Hb. congruence.
    + split; [|done]. intros _. exists x. split; [by left|].
      by apply (Hbad s).
Qed.

(** [urljoin] returns on the empty [href] that stands for a missing
    one. *)
Lemma urljoin_default_raises (base_url : string) (a : node) :
  urljoin base_url (default EmptyString (get_href a)) = Raises <->
  exists href, get_href a = Some href /\ urljoin base_url href = Raises.
Proof.
  destruct (get_href a) as [href|]; cbn [default].
  - split; [intros Hr; by exists href|by intros (h & [= ->] & ?)].
  - split; [|by intros (h & ? & _)]. unfold urljoin.
    by destruct (is_empty base_url).
Qed.

Lemma bad_href_spec (soup : node) (base_url : string) :
  bad_href soup base_url <->
  exists a, a ∈ find_all soup Q_anchor_href
            /\ urljoin base_url (default EmptyString (get_href a)) = Raises.
Proof.
  unfold bad_href. split.
  - intros (a & href & Ha & Hhref & Hr). exists a. split; [done|].
    apply urljoin_default_raises. by exists href.
  - intros (a & Ha & (href & Hhref & Hr)%urljoin_default_raises).
    by exists a, href.
Qed.

Lemma category_step_ok (soup : node) (base_url : string)
    (categories cs' : list category) (link : node) :
  link ∈ find_all soup Q_anchor_href ->
  let ok (cs : list category) :=
    NoDup (map cat_url cs)
    /\ Forall (fun c => exists a href,
                 a ∈ find_all soup Q_anchor_href
                 /\ get_href a = Some href /\ category_href_ok href
                 /\ urljoin base_url href = Returns (cat_url c)) cs in
  ok categories ->
  category_step base_url categories link = Returns cs' -> ok cs'.
Proof.
  intros Hlink ok [Hnd Hall]. unfold category_step. cbv zeta.
  destruct (urljoin _ _) as [full_url|] eqn:Hjoin; [|done].
  intros [= <-]. unfold category_pick. cbv zeta.
  destruct (is_empty (default EmptyString (get_href link))) eqn:He; [done|].
  destruct (String.eqb _ "#") eqn:Hhash; [done|].
  destruct (startswith _ "javascript") eqn:Hjs; [done|]. cbn [orb].
  destruct (any_in _ (lower _)) eqn:Hlegal; [done|].
  destruct (_ && negb (existsb _ categories)) eqn:Hm; [|done].
  apply andb_true_iff in Hm as [_ Hnew]. apply negb_true_iff in Hnew.
  destruct (get_href link) as [href|] eqn:Hhref; [|done]. cbn [default] in *.
  split.
  - rewrite map_app. apply NoDup_app. split; [done|]. split; [|apply NoDup_singleton].
    intros u Hu [->|[]%elem_of_nil]%elem_of_cons.
    apply list_elem_of_fmap in Hu as (c & Hc & Hin).
    apply not_true_iff_false in Hnew. apply Hnew, existsb_exists.
    exists c. split; [by apply list_elem_of_In|]. simpl in Hc.
    rewrite <- Hc. apply String.eqb_refl.
  - apply Forall_app. split; [done|]. apply Forall_singleton.
    exists link, href. split; [done|]. split; [done|]. split; [|done].
    split; [by apply is_empty_false|]. split; [by apply String.eqb_neq|done].
Qed.

(** X9.  When [_find_category_links] returns, it returns at most 8
    links with pairwise distinct URLs; each URL is what [urljoin]
    returns for the base and the [href] of an anchor of the page, an
    [href] that is not empty, not "#", does not start with "javascript"
    and contains none of login, signin, privacy, terms.  It raises
    exactly when [urljoin] raises on the [href] of an anchor of the
    page, a call made before any check of the [href]. *)
Theorem find_category_links_rules (soup : node) (base_url : string) :
  match _find_category_links soup base_url with
  | Returns categories =>
      length categories <= 8
      /\ NoDup (map cat_url categories)
      /\ Forall (fun c => exists a href,
                   a ∈ find_all soup Q_anchor_href
                   /\ get_href a = Some href /\ category_href_ok href
                   /\ urljoin base_url href = Returns (cat_url c))
           categories
  | Raises => bad_href soup base_url
  end
  /\ (_find_category_links soup base_url = Raises <-> bad_href soup base_url).
Proof.
  assert (Hraise : _find_category_links soup base_url = Raises
                   <-> bad_href soup base_url).
  { rewrite bad_href_spec. unfold _find_category_links.
    rewrite <- (fold_raising_raises
                  (fun a => urljoin base_url
                              (default EmptyString (get_href a)) = Raises)
                  (category_step base_url) (find_all soup Q_anchor_href) []).
    - by destruct (fold_raising _ _ _).
    - intros cs a. unfold category_step. cbv zeta.
      by destruct (urljoin _ _). }
  split; [|done].
  destruct (_find_category_links soup base_url) as [categories|] eqn:Hrun;
    [|by apply Hraise].
  unfold _find_category_links in Hrun.
  destruct (fold_raising _ _ _) as [cs|] eqn:Hfold; [|done].
  injection Hrun as <-.
  pose proof (fold_raising_invariant
                (fun cs => NoDup (map cat_url cs)
                   /\ Forall (fun c => exists a href,
                        a ∈ find_all soup Q_anchor_href
                        /\ get_href a = Some href /\ category_href_ok href
                        /\ urljoin base_url href = Returns (cat_url c)) cs)
                (category_step base_url) (find_all soup Q_anchor_href) [] cs)
    as Hinv.
  destruct Hinv as [Hnd Hall]; [split; constructor| |done|].
  { intros cs0 link cs1 Hlink Hcs Hstep.
    by apply (category_step_ok soup base_url cs0 cs1 link). }
  split; [apply firstn_length_le|]. split.
  - apply (sublist_NoDup _ (map cat_url cs)); [exact Hnd|].
    apply (fmap_sublist cat_url), firstn_sublist.
  - apply Forall_forall. intros c Hc. rewrite Forall_forall in Hall.
    apply Hall. eapply elem_of_sublist; [exact Hc|apply firstn_sublist].
Qed.

Lemma detail_url_no_apply (url : string) :
  str_in "/apply" (_get_job_detail_url url) = false.
Proof.
  unfold _get_job_detail_url.
  destruct (str_in "/apply" url) eqn:Ha; [by apply before_free|].
  destruct (str_in "/application" url) eqn:Hb; [|done].
  apply not_true_iff_false. intros Hin.
  destruct (before_is_prefix "/application" url) as [rest Hrest].
  apply (str_in_app_l _ _ rest) in Hin. rewrite <- Hrest in Hin. congruence.
Qed.

(** X10.  When [_find_job_links] returns, it returns at most one link
    per anchor of the page, and none of the links contains "/apply".
    It raises exactly when [urljoin] raises on the [href] of an anchor
    of the page. *)
Theorem find_job_links_rules (soup : node) (base_url : string) :
  match _find_job_links soup base_url with
  | Returns links =>
      length links <= length (find_all soup Q_anchor_href)
      /\ Forall (fun link => str_in "/apply" link = false) links
  | Raises => bad_href soup base_url
  end
  /\ (_find_job_links soup base_url = Raises <-> bad_href soup base_url).
Proof.
  assert (Hraise : _find_job_links soup base_url = Raises
                   <-> bad_href soup base_url).
  { rewrite bad_href_spec. unfold _find_job_links.
    rewrite <- (fold_raising_raises
                  (fun a => urljoin base_url
                              (default EmptyString (get_href a)) = Raises)
                  (job_link_step base_url) (find_all soup Q_anchor_href)
                  ([], ∅)).
    - by destruct (fold_raising _ _ _).
    - intros st a. unfold job_link_step. cbv zeta.
      by destruct (urljoin _ _). }
  split; [|done].
  destruct (_find_job_links soup base_url) as [links|] eqn:Hrun;
    [|by apply Hraise].
  unfold _find_job_links in Hrun.
  assert (Hgen : forall anchors st st',
             Forall (fun link => str_in "/apply" link = false) (fst st) ->
             fold_raising (job_link_step base_url) anchors st = Returns st' ->
             length (fst st') <= length (fst st) + length anchors
             /\ Forall (fun link => str_in "/apply" link = false) (fst st')).
  { induction anchors as [|a anchors IH]; intros st st' Hst; simpl.
    - intros [= <-]. split; [lia|done].
    - destruct (job_link_step base_url st a) as [st1|] eqn:Hstep1; [|done].
      intros Hfold.
      assert (Hstep : length (fst st1) <= S (length (fst st))
                      /\ Forall (fun link => str_in "/apply" link = false)
                           (fst st1)).
      { revert Hstep1. unfold job_link_step. cbv zeta.
        destruct (urljoin _ _) as [url|]; [|done]. intros [= <-].
        destruct st as [links0 seen]. unfold job_link_pick. cbv zeta.
        destruct (bool_decide _); [split; [simpl; lia|done]|].
        destruct (_ || _);
          [|destruct (_ && _); [|split; [simpl; lia|done]]];
          (split; [simpl; rewrite length_app; simpl; lia|];
           apply Forall_app; split; [done|];
           apply Forall_singleton, detail_url_no_apply). }
      destruct Hstep as [Hlen Hall].
      destruct (IH _ _ Hall Hfold) as [Hlen' Hall']. split; [lia|done]. }
  destruct (fold_raising _ _ _) as [st'|] eqn:Hfold; [|done].
  injection Hrun as <-.
  destruct (Hgen (find_all soup Q_anchor_href) ([], ∅) st') as [Hlen Hall];
    [constructor|done|]. simpl in Hlen. done.
Qed.

(** X11.  The responsibilities text that [_extract_responsibilities]
    returns has at most 500 characters. *)
Theorem extract_responsibilities_bound (container : node) :
  len (_extract_responsibilities container) <= 500.
Proof.
  unfold _extract_responsibilities.
  destruct (find_all container Q_resp_headers) as [|header ?];
    [unfold len; simpl; lia|].
  destruct (find_next_block header) as [resp_section|];
    [|unfold len; simpl; lia].
  cbv zeta. destruct (Nat.ltb_spec 500 (len (get_text_sep bullet_sep
                        (parse (get_text_sep bullet_sep resp_section)))));
    [apply take_length|done].
Qed.

(** X12.  A record built from [JobPosting] metadata that has no
    [jobLocation], or a [jobLocation] without [address], has the empty
    string as location, not the "Location not specified" sentinel; the
    validator therefore rejects it for every non-empty country.  With
    such metadata the record is built unless the description is given
    and is no string. *)
Theorem json_ld_without_location (json_data : ld_posting)
    (job_url country : string)
    (Hloc : ld_jobLocation json_data = LocAbsent
            \/ ld_jobLocation json_data = LocDict AddrAbsent)
    (Hcountry : country <> EmptyString) :
  (forall r,
      _create_job_from_json_ld json_data job_url = Returns r ->
      rec_location r = EmptyString
      /\ (forall j, typed r = Some j ->
                    location j = EmptyString
                    /\ _validate_country j country = false
                    /\ _validate_job j country = false)
      /\ (forall j, accepted_job r country = Returns (Some j) -> False))
  /\ (_create_job_from_json_ld json_data job_url = Raises
      <-> exists truth, ld_description json_data = Some (POther truth))
  /\ ((forall truth, ld_description json_data = Some (POther truth) -> False)
      -> exists r, _create_job_from_json_ld json_data job_url = Returns r).
Proof.
  assert (Hlt : ld_location_text (ld_jobLocation json_data)
                = Returns EmptyString).
  { by destruct Hloc as [-> | ->]. }
  assert (Hrej : forall j, location j = EmptyString ->
                   _validate_country j country = false
                   /\ _validate_job j country = false).
  { intros j Hl.
    assert (Hc : _validate_country j country = false).
    { unfold _validate_country. rewrite Hl. cbv zeta.
      change (lower EmptyString) with EmptyString.
      rewrite str_in_of_empty; [done|].
      apply is_empty_false. rewrite lower_is_empty. by apply is_empty_false. }
    split; [done|]. unfold _validate_job. rewrite Hc.
    by repeat destruct (negb _). }
  assert (Hraise : _create_job_from_json_ld json_data job_url = Raises
                   <-> exists truth,
                         ld_description json_data = Some (POther truth)).
  { unfold _create_job_from_json_ld. cbv zeta. rewrite Hlt.
    destruct (ld_description json_data) as [[description|truth]|];
      cbn [default].
    - split; [done|]. by intros [truth ?].
    - split; [|done]. intros _. by exists truth.
    - split; [done|]. by intros [truth ?]. }
  split; [|split; [done|]].
  - intros r Hr.
    assert (Hl : rec_location r = EmptyString).
    { revert Hr. unfold _create_job_from_json_ld. cbv zeta. rewrite Hlt.
      destruct (default _ (ld_description json_data)); [|done].
      by intros [= <-]. }
    assert (Htyped : forall j, typed r = Some j -> location j = EmptyString).
    { intros j. unfold typed. destruct (rec_title r); [|done].
      destruct (rec_company r); [|done]. by intros [= <-]. }
    split; [done|]. split.
    + intros j Hj. split; [by apply Htyped|]. by apply Hrej, Htyped.
    + intros j Hacc. unfold accepted_job in Hacc.
      destruct (typed r) as [j'|] eqn:Ht.
      * destruct (Hrej j' (Htyped j' eq_refl)) as [_ Hv]. by rewrite Hv in Hacc.
      * by destruct (_ || _).
  - intros Hstr.
    destruct (_create_job_from_json_ld json_data job_url) as [r|] eqn:Hr;
      [by exists r|].
    destruct (proj1 Hraise eq_refl) as [truth Hd]. by destruct (Hstr truth).
Qed.

End MorePageFacts.

(** ** More on the fetchers and the extractor *)

Section MoreFetchFacts.
Import PyStr ScraperFilters ExpertJobScraper CrawlSpec Invariants.
Context {node : Type} `{Dom node} `{PyLib} `{World}.

Lemma extract_with_selenium_cases (url : string) (s : scraper) :
  _extract_with_selenium url s = (Ok EmptyString, s)
  \/ (should_skip_url url = false
      /\ used_selenium_for_url s !! url <> Some true
      /\ ((exists html,
              selenium_session (trace s) url = SeleniumReturns html
              /\ _extract_with_selenium url s
                 = (Ok html, log (EvHeavy url) (mark_selenium url s)))
          \/ (selenium_session (trace s) url = SeleniumRaises
              /\ _extract_with_selenium url s
                 = (Raised, log (EvHeavy url) (mark_selenium url s))))).
Proof.
  unfold _extract_with_selenium.
  destruct (should_skip_url url); [by left|].
  case_bool_decide as Hmark; [by left|]. right.
  split; [done|]. split; [done|].
  destruct (selenium_session _ _) as [html|]; [left; by exists html|by right].
Qed.

Lemma extract_with_selenium_state (url : string) (s : scraper) :
  ((exists html, fst (_extract_with_selenium url s) = Ok html)
   \/ fst (_extract_with_selenium url s) = Raised)
  /\ (snd (_extract_with_selenium url s) = s
      \/ snd (_extract_with_selenium url s)
         = log (EvHeavy url) (mark_selenium url s)).
Proof.
  destruct (extract_with_selenium_cases url s)
    as [->|(_ & _ & [(html & _ & ->)|[_ ->]])]; cbn [fst snd].
  - split; [left; eauto|by left].
  - split; [left; eauto|by right].
  - split; [by right|by right].
Qed.

(** X13.  [_extract_with_selenium] launches at most one browser, and
    raises only when the session of that browser ends in an exception,
    as when [driver.quit()] raises under [finally].  After a call for
    a URL, whatever it returned or raised, every further call for that
    URL returns the empty string and leaves the scraper object as it
    is: the page is not loaded again, and what the first call returned
    is not kept. *)
Theorem extract_with_selenium_once (url : string) (s : scraper) :
  ((exists html, fst (_extract_with_selenium url s) = Ok html)
   \/ (fst (_extract_with_selenium url s) = Raised
       /\ selenium_session (trace s) url = SeleniumRaises
       /\ should_skip_url url = false
       /\ used_selenium_for_url s !! url <> Some true
       /\ snd (_extract_with_selenium url s)
          = log (EvHeavy url) (mark_selenium url s)))
  /\ (snd (_extract_with_selenium url s) = s
      \/ snd (_extract_with_selenium url s)
         = log (EvHeavy url) (mark_selenium url s))
  /\ _extract_with_selenium url (snd (_extract_with_selenium url s))
     = (Ok EmptyString, snd (_extract_with_selenium url s)).
Proof.
  assert (Hagain : forall s1,
            should_skip_url url = true
            \/ used_selenium_for_url s1 !! url = Some true ->
            _extract_with_selenium url s1 = (Ok EmptyString, s1)).
  { intros s1 Hs1. unfold _extract_with_selenium.
    destruct (should_skip_url url); [done|]. destruct Hs1 as [|Hs1]; [done|].
    by rewrite (bool_decide_eq_true_2 _ Hs1). }
  assert (Hmarked : used_selenium_for_url
                      (log (EvHeavy url) (mark_selenium url s)) !! url
                    = Some true).
  { simpl. apply lookup_insert_eq. }
  destruct (extract_with_selenium_cases url s)
    as [Hsame|(Hskip & Hnew & [(html & Hsession & Hrun)|[Hsession Hrun]])];
    [rewrite Hsame|rewrite Hrun..]; cbn [fst snd].
  - split; [left; eauto|]. split; [by left|]. done.
  - split; [left; eauto|]. split; [by right|]. apply Hagain. by right.
  - split; [by right|]. split; [by right|]. apply Hagain. by right.
Qed.

Lemma extract_single_job_cases (job_url : string) (soup : node)
    (s : scraper) :
  (job_url ∈ visited_job_urls s
   /\ _extract_single_job job_url soup s = (Ok None, s))
  \/ ((job_url ∉ visited_job_urls s)
      /\ exists o,
           _extract_single_job job_url soup s
           = (o, add_visited_job_url job_url s)
           /\ (_is_apply_page soup = true -> o = Ok None)
           /\ (o = Raised <->
               _is_apply_page soup = false /\ single_job_raises job_url soup)
           /\ o <> NoFuel).
Proof.
  unfold _extract_single_job, single_job_raises, bind, get, modify, ret, lift.
  case_bool_decide as Hv; [by left|]. right. split; [done|].
  destruct (_is_apply_page soup).
  { eexists. split; [done|]. split; [done|]. split; [|done].
    split; [done|by intros [? _]]. }
  cbv zeta. destruct (_extract_json_ld soup) as [json_ld_data|].
  - destruct (_create_job_from_json_ld _ _) as [r|];
      (eexists; split; [done|]; split; [done|]; split; [|done]).
    + split; [done|by intros [_ ?]].
    + done.
  - destruct (_is_invalid_title _).
    { eexists. split; [done|]. split; [done|]. split; [|done].
      split; [done|by intros [_ [? _]]]. }
    destruct (_extract_company _ _) as [name|];
      (eexists; split; [done|]; split; [done|]; split; [|done]).
    + split; [done|by intros [_ [_ ?]]].
    + done.
Qed.


Lemma find_job_links_raises (soup : node) (base_url : string) :
  _find_job_links soup base_url = Raises <-> bad_href soup base_url.
Proof.
  rewrite bad_href_spec. unfold _find_job_links.
  rewrite <- (fold_raising_raises
                (fun a => urljoin base_url
                            (default EmptyString (get_href a)) = Raises)
                (job_link_step base_url) (find_all soup Q_anchor_href)
                ([], ∅)).
  - by destruct (fold_raising _ _ _).
  - intros st a. unfold job_link_step. cbv zeta.
    by destruct (urljoin _ _).
Qed.

(** X15.  The emergency extraction fetches nothing at the light tier
    and launches at most one browser.  When it returns, it returns at
    most 20 records, each with a non-empty company and description and
    without skills, and each either the record of a link found or a
    record with a non-empty source URL.  It raises exactly when the
    browser session does, or when the page gave no card record and
    has an anchor on whose [href] [urljoin] raises. *)
Theorem emergency_extraction_rules (site_url : string) (s : scraper) :
  (snd (emergency_extraction site_url s) = s
   \/ snd (emergency_extraction site_url s)
      = log (EvHeavy (_get_job_detail_url site_url))
          (mark_selenium (_get_job_detail_url site_url) s))
  /\ match fst (emergency_extraction site_url s) with
     | Ok jobs =>
         length jobs <= 20
         /\ Forall (fun j => company j <> EmptyString
                             /\ job_description j <> EmptyString
                             /\ skills j = []
                             /\ (job_title j = "Job Link Found"
                                 \/ source_url j <> EmptyString)) jobs
     | Raised => emergency_raises site_url s
     | NoFuel => False
     end
  /\ (emergency_raises site_url s ->
      fst (emergency_extraction site_url s) = Raised).
Proof.
  unfold emergency_extraction, emergency_raises, bind, lift. cbv zeta.
  destruct (extract_with_selenium_state (_get_job_detail_url site_url) s)
    as (Hout & Hstate).
  destruct (_extract_with_selenium _ s) as [o s'] eqn:Hrun.
  cbn [fst snd] in Hout, Hstate |- *.
  destruct o as [html| |]; cbn [fst snd];
    [|split; [done|]; split; [by left|done]
     |by destruct Hout as [[? ?]|?]].
  destruct (is_empty html) eqn:He; cbn [negb].
  { split; [done|]. split; [split; [simpl; lia|constructor]|].
    intros [?|(h & [= <-] & Hne & _)]; [done|].
    apply is_empty_false in Hne. congruence. }
  set (soup := parse html).
  set (card_jobs := flat_map _ (_find_job_cards soup)).
  assert (Hcards : length card_jobs <= 20
                   /\ Forall (fun j => company j <> EmptyString
                        /\ job_description j <> EmptyString
                        /\ skills j = []
                        /\ (job_title j = "Job Link Found"
                            \/ source_url j <> EmptyString)) card_jobs).
  { subst card_jobs.
    pose proof (find_job_cards_length soup) as Hlen.
    revert Hlen. generalize (_find_job_cards soup). intros cards Hlen.
    assert (Hgen : length (flat_map (fun card =>
                       option_list (emergency_card_job
                                      (_get_job_detail_url site_url) card)) cards)
                   <= length cards
                   /\ Forall (fun j => company j <> EmptyString
                        /\ job_description j <> EmptyString
                        /\ skills j = []
                        /\ (job_title j = "Job Link Found"
                            \/ source_url j <> EmptyString))
                        (flat_map (fun card =>
                           option_list (emergency_card_job
                                          (_get_job_detail_url site_url) card))
                           cards)).
    { clear Hlen. induction cards as [|card cards [IHl IHf]]; simpl.
      - split; [lia|constructor].
      - unfold emergency_card_job at 1 3.
        destruct (_extract_job_url_from_card card _) as [[job_url|]|];
          [|split; [simpl; lia|done]..].
        destruct (is_empty job_url) eqn:He'; [split; [simpl; lia|done]|].
        split; [simpl; lia|]. simpl. constructor; [|done].
        repeat split; try done. right. by apply is_empty_false. }
    destruct Hgen as [Hl Hf]. split; [lia|done]. }
  destruct Hcards as [Hlen Hall].
  destruct (length card_jobs =? 0) eqn:Hz.
  - destruct (_find_job_links soup (_get_job_detail_url site_url))
      as [links|] eqn:Hlinks; cbn [fst snd].
    + split; [done|]. split.
      * split.
        -- rewrite length_map. etrans; [apply firstn_length_le|lia].
        -- apply Forall_forall. intros j (link & -> & _)%list_elem_of_fmap.
           unfold emergency_link_job. simpl. repeat split; try done. by left.
      * intros [?|(h & [= <-] & _ & _ & Hbad)]; [done|].
        apply find_job_links_raises in Hbad. fold soup in Hbad. congruence.
    + split; [done|]. split; [|done]. right. exists html.
      split; [done|]. split; [by apply is_empty_false|]. split.
      * apply Nat.eqb_eq in Hz. change (card_jobs = []).
        by destruct card_jobs.
      * by apply find_job_links_raises.
  - cbn [fst snd]. split; [done|]. split; [done|].
    intros [?|(h & [= <-] & _ & Hnil & _)]; [done|].
    fold soup in Hnil. fold card_jobs in Hnil. by rewrite Hnil in Hz.
Qed.

(** X16.  A list that [extract_jobs_from_site] returns is made of
    records that passed the validator, unless the block under
    [async with] raised; then it is the list of the emergency
    extraction, which is not validated. *)
Theorem extract_jobs_provenance (site_url country : string) (s : scraper)
    (jobs : list job)
    (Hjobs : fst (extract_jobs_from_site site_url country s) = Ok jobs) :
  valid_jobs country jobs
  \/ exists s1,
       async_with_crawler (crawl_site site_url country) (reset_guards s)
         = (Raised, s1)
       /\ fst (emergency_extraction site_url s1) = Ok jobs.
Proof.
  pose proof (crawl_site_triple (fun _ => True) (fun _ => True) country)
    as Hsite.
  destruct (async_with_crawler_run (fun _ => True)
              (crawl_site site_url country) (valid_jobs country)
              (reset_guards s) Logic.I) as [_ Hpost].
  { apply Hsite; done. }
  revert Hjobs. unfold extract_jobs_from_site, bind, modify, try_except.
  destruct (async_with_crawler _ _) as [[jobs'| |] s1]; cbn [fst] in *.
  - intros [= ->]. by left.
  - intros Hem. right. by exists s1.
  - done.
Qed.

End MoreFetchFacts.

(** ** The cost of a listing extraction *)

Section ListingFacts.
Import PyStr ScraperFilters ExpertJobScraper CrawlSpec Invariants.
Context {node : Type} `{Dom node} `{PyLib} `{World}.

Lemma extract_single_job_from_url_run (job_url : string) (s : scraper) :
  exists r s',
    _extract_single_job_from_url job_url s = (Ok r, s')
    /\ trace s' = EvDetail job_url :: trace s
    /\ used_selenium_for_url s' = used_selenium_for_url s
    /\ visited_urls s' = visited_urls s.
Proof.
  unfold _extract_single_job_from_url, try_except, bind, crawler_arun, ret.
  cbv zeta. destruct (arun _ _ _ _) as [|success html].
  { exists None, (log (EvDetail job_url) s). by repeat split. }
  destruct success;
    [|exists None, (log (EvDetail job_url) s); by repeat split].
  destruct (extract_single_job_cases job_url (parse html)
              (log (EvDetail job_url) s))
    as [[_ ->]|(_ & o & -> & _ & _ & Hfuel)].
  - exists None, (log (EvDetail job_url) s). by repeat split.
  - destruct o as [r| |]; [|exists None|done];
      [exists r|];
      exists (add_visited_job_url job_url (log (EvDetail job_url) s));
      by repeat split.
Qed.

Lemma listing_inv_trace (s0 : scraper) (fetched : list string)
    (st : list job * gset string) (s : scraper) :
  listing_inv s0 fetched st s -> listing_trace s0 fetched s.
Proof. intros (? & ? & _ & ? & _ & ? & ?). by repeat split. Qed.

Lemma scrape_candidate_inv (cause : Prop) (country job_url : string)
    (s0 : scraper) (fetched : list string) (st : list job * gset string)
    (s : scraper) :
  (forall s1 r,
      fst (_extract_single_job_from_url job_url s1) = Ok (Some r) ->
      accepted_job r country = Raises -> cause) ->
  listing_inv s0 fetched st s -> job_url ∉ snd st ->
  _is_apply_url job_url = false ->
  listing_step s0 (job_url :: fetched) cause
    (scrape_candidate country job_url st s).
Proof.
  intros Hcause (Ht & Hnd & Hin & Hap & Hlen & Hu & Hv) Hnew Hno.
  destruct st as [jobs visited]. unfold scrape_candidate, bind, lift, ret.
  destruct (extract_single_job_from_url_run job_url s)
    as (r & s' & Hrun & Ht' & Hu' & Hv').
  rewrite Hrun. cbn [fst snd] in *.
  assert (Hnd' : NoDup (job_url :: fetched)).
  { apply NoDup_cons. split; [|done]. intros Hf. by apply Hnew, Hin. }
  assert (Htrace : listing_trace s0 (job_url :: fetched) s').
  { split; [by rewrite Ht', Ht|]. split; [done|].
    split; [by constructor|]. by rewrite Hu', Hv'. }
  assert (Hinv : forall jobs',
             length jobs' <= S (length jobs) ->
             listing_inv s0 (job_url :: fetched)
               (jobs', {[job_url]} ∪ visited) s').
  { intros jobs' Hjobs'. split; [by rewrite Ht', Ht|]. split; [done|].
    split.
    { cbn [snd]. intros u [->|Hu0]%elem_of_cons; apply elem_of_union;
        [left; by apply elem_of_singleton|right; by apply Hin]. }
    split; [by constructor|].
    split; [cbn [fst length]; lia|by rewrite Hu', Hv']. }
  destruct r as [r|].
  - destruct (accepted_job r country) as [[j|]|] eqn:Hacc; cbn [fst snd];
      (split; [done|]).
    + apply Hinv. rewrite length_app. simpl. lia.
    + apply Hinv. lia.
    + apply (Hcause s r); [by rewrite Hrun|done].
  - cbn [fst snd]. split; [done|]. apply Hinv. lia.
Qed.

Lemma scrape_cards_inv (cause : Prop) (site_url country : string)
    (s0 : scraper) (cards : list node) (fetched : list string)
    (st : list job * gset string) (s : scraper) :
  (forall card, card ∈ cards ->
                _extract_job_url_from_card card site_url = Raises -> cause) ->
  (forall job_url s1 r,
      fst (_extract_single_job_from_url job_url s1) = Ok (Some r) ->
      accepted_job r country = Raises -> cause) ->
  listing_inv s0 fetched st s ->
  exists fetched',
    length fetched' <= length fetched + length cards
    /\ listing_step s0 fetched' cause
         (scrape_cards site_url country cards st s).
Proof.
  intros Hcard Hcause. revert fetched st s.
  induction cards as [|card cards IH]; intros fetched st s Hinv.
  { exists fetched. split; [simpl; lia|].
    split; [by apply listing_inv_trace in Hinv|done]. }
  assert (Hcards : forall c, c ∈ cards ->
             _extract_job_url_from_card c site_url = Raises -> cause).
  { intros c Hc. apply Hcard. by right. }
  specialize (IH Hcards).
  assert (Hskip : exists fetched',
             length fetched' <= length fetched + length (card :: cards)
             /\ listing_step s0 fetched' cause
                  (scrape_cards site_url country cards st s)).
  { destruct (IH _ _ _ Hinv) as (f' & ? & ?).
    exists f'. split; [simpl; lia|done]. }
  cbn [scrape_cards]. unfold bind at 1, lift at 1.
  destruct (_extract_job_url_from_card card site_url) as [[job_url|]|] eqn:Hurl;
    [|done|].
  - destruct (is_empty job_url); [done|]. cbn [negb andb].
    case_bool_decide as Hnew; [done|]. cbn [negb andb].
    destruct (_is_apply_url job_url) eqn:Hap; [done|]. cbn [negb].
    pose proof (scrape_candidate_inv cause country job_url s0 fetched st s
                  (Hcause job_url) Hinv Hnew Hap) as [Htrace Hstep].
    unfold bind.
    destruct (scrape_candidate country job_url st s) as [[st1| |] s1];
      cbn [fst snd] in *; [|exists (job_url :: fetched)|done].
    + destruct (IH _ _ _ Hstep) as (f' & ? & ?).
      exists f'. split; [simpl in *; lia|done].
    + split; [simpl; lia|]. by split.
  - exists fetched. split; [simpl; lia|]. split.
    + by apply listing_inv_trace in Hinv.
    + cbn [fst]. apply (Hcard card); [by left|done].
Qed.

Lemma scrape_links_inv (cause : Prop) (country : string) (s0 : scraper)
    (links : list string) (fetched : list string)
    (st : list job * gset string) (s : scraper) :
  (forall job_url s1 r,
      fst (_extract_single_job_from_url job_url s1) = Ok (Some r) ->
      accepted_job r country = Raises -> cause) ->
  listing_inv s0 fetched st s ->
  exists fetched',
    length fetched' <= length fetched + length links
    /\ listing_step s0 fetched' cause (scrape_links country links st s).
Proof.
  intros Hcause. revert fetched st s.
  induction links as [|link links IH]; intros fetched st s Hinv.
  { exists fetched. split; [simpl; lia|].
    split; [by apply listing_inv_trace in Hinv|done]. }
  assert (Hskip : exists fetched',
             length fetched' <= length fetched + length (link :: links)
             /\ listing_step s0 fetched' cause
                  (scrape_links country links st s)).
  { destruct (IH _ _ _ Hinv) as (f' & ? & ?).
    exists f'. split; [simpl; lia|done]. }
  cbn [scrape_links].
  case_bool_decide as Hnew; [done|]. cbn [negb andb].
  destruct (_is_apply_url link) eqn:Hap; [done|]. cbn [negb].
  pose proof (scrape_candidate_inv cause country link s0 fetched st s
                (Hcause link) Hinv Hnew Hap) as [Htrace Hstep].
  unfold bind.
  destruct (scrape_candidate country link st s) as [[st1| |] s1];
    cbn [fst snd] in *; [|exists (link :: fetched)|done].
  - destruct (IH _ _ _ Hstep) as (f' & ? & ?).
    exists f'. split; [simpl in *; lia|done].
  - split; [simpl; lia|]. by split.
Qed.

Lemma extract_from_job_listing_run (site_url country : string)
    (soup : node) (s : scraper) :
  exists fetched,
    length fetched <= 25
    /\ listing_trace s fetched
         (snd (_extract_from_job_listing site_url soup country s))
    /\ match fst (_extract_from_job_listing site_url soup country s) with
       | Ok jobs => length jobs <= length fetched
       | Raised => listing_raise_cause site_url country soup
       | NoFuel => False
       end.
Proof.
  set (cause := listing_raise_cause site_url country soup).
  assert (Hcause : forall job_url s1 r,
             fst (_extract_single_job_from_url job_url s1) = Ok (Some r) ->
             accepted_job r country = Raises -> cause).
  { intros job_url s1 r Hr Hacc. right. right. by exists job_url, s1, r. }
  assert (Hcard : forall card,
             card ∈ firstn 15 (_find_job_cards soup) ->
             _extract_job_url_from_card card site_url = Raises -> cause).
  { intros card Hin Hr. left. exists card. split; [|done].
    eapply elem_of_sublist; [exact Hin|apply firstn_sublist]. }
  assert (Hinit : listing_inv s [] ([], ∅) s).
  { split; [done|]. split; [constructor|]. split; [by intros u ?%elem_of_nil|].
    split; [constructor|]. by split. }
  destruct (scrape_cards_inv cause site_url country s
              (firstn 15 (_find_job_cards soup)) [] _ s Hcard Hcause Hinit)
    as (f1 & Hlen1 & Htrace1 & Hstep1).
  pose proof (firstn_length_le 15 (_find_job_cards soup)) as Hc.
  cbn [length] in Hlen1.
  unfold _extract_from_job_listing, bind, lift, ret. cbv zeta.
  destruct (scrape_cards _ _ _ _ s) as [[st1| |] s1]; cbn [fst snd] in *;
    [|exists f1; split; [lia|by split]|done].
  destruct (length (fst st1) <? 3).
  - destruct (_find_job_links soup site_url) as [links|] eqn:Hlinks.
    + destruct (scrape_links_inv cause country s (firstn 10 links) f1 st1 s1
                  Hcause Hstep1) as (f2 & Hlen2 & Htrace2 & Hstep2).
      pose proof (firstn_length_le 10 links) as Hl.
      destruct (scrape_links _ _ _ s1) as [[st2| |] s2]; cbn [fst snd] in *;
        [|exists f2; split; [lia|by split]|done].
      exists f2. split; [lia|]. split; [done|].
      by destruct Hstep2 as (_ & _ & _ & _ & ? & _).
    + cbn [fst snd]. exists f1. split; [lia|]. split; [done|].
      right. left. by apply find_job_links_raises.
  - cbn [fst snd]. exists f1. split; [lia|]. split; [done|].
    by destruct Hstep1 as (_ & _ & _ & _ & ? & _).
Qed.

(** X17.  One listing extraction launches no browser and fetches at
    most 25 job pages, none twice and none an apply URL, and leaves
    [visited_urls] as it was, whatever its outcome; when it returns,
    it returns at most as many records as it fetched pages.  It has no
    [try] of its own: it raises when [urljoin] raises on the link of a
    card or of an anchor of the page, or when a job page gave a record
    whose title or company is no string, which the validator cannot
    handle; it raises for no other reason. *)
Theorem extract_from_job_listing_cost (site_url country : string)
    (soup : node) (s : scraper) :
  exists fetched,
    trace (snd (_extract_from_job_listing site_url soup country s))
    = map EvDetail fetched ++ trace s
    /\ NoDup fetched
    /\ length fetched <= 25
    /\ Forall (fun u => _is_apply_url u = false) fetched
    /\ used_selenium_for_url
         (snd (_extract_from_job_listing site_url soup country s))
       = used_selenium_for_url s
    /\ visited_urls (snd (_extract_from_job_listing site_url soup country s))
       = visited_urls s
    /\ match fst (_extract_from_job_listing site_url soup country s) with
       | Ok jobs => length jobs <= length fetched
       | Raised => listing_raise_cause site_url country soup
       | NoFuel => False
       end.
Proof.
  destruct (extract_from_job_listing_run site_url country soup s)
    as (fetched & Hlen & (? & ? & ? & ? & ?) & Hout).
  exists fetched. by repeat split.
Qed.

End ListingFacts.

(** ** Gateways across sessions *)

Section GatewayFacts.
Import PyStr ScraperFilters ExpertJobScraper CrawlSpec Invariants.
Context {node : Type} `{Dom node} `{PyLib} `{World}.

(** X18.  [visited_gateways] is not reset with the other guards: a URL
    recorded there before a session is still there after it, and a call
    of [_recursive_crawl] for that URL in the next session on the same
    scraper object returns the empty list without fetching the page or
    launching a browser. *)
Theorem gateways_outlive_session (site_url country url country' : string)
    (depth : nat) (s : scraper)
    (Hgate : url ∈ visited_gateways s) :
  url ∈ visited_gateways (snd (extract_jobs_from_site site_url country s))
  /\ exists s2,
       _recursive_crawl url country' depth
         (reset_guards (snd (extract_jobs_from_site site_url country s)))
       = (Ok [], s2)
       /\ arun_urls (trace s2) = [] /\ heavy_urls (trace s2) = [].
Proof.
  assert (Hkept : url ∈ visited_gateways
                          (snd (extract_jobs_from_site site_url country s))).
  { destruct (extract_jobs_from_site_run
                (fun s' => url ∈ visited_gateways s') (fun _ => True) country)
      with (site_url := site_url) (s := s) as [Hin _]; try done.
    intros s' u Hs'. simpl. apply elem_of_union. by right. }
  split; [done|].
  set (s1 := reset_guards _).
  destruct (crawl_body_stopped (crawl (S MAX_DEPTH - depth) country') url
              country' depth s1) as (s2 & Hrun & Hs2).
  { do 4 right. done. }
  exists s2. split; [by rewrite recursive_crawl_unfold|].
  by destruct Hs2 as [-> | ->].
Qed.

End GatewayFacts.

(** ** The cost of a session *)

Section CostFacts.
Import PyStr ScraperFilters ExpertJobScraper CrawlSpec Invariants.
Context {node : Type} `{Dom node} `{PyLib} `{World}.

Lemma arun_urls_app (t1 t2 : list event) :
  arun_urls (t1 ++ t2) = arun_urls t1 ++ arun_urls t2.
Proof. induction t1 as [|[] t1 IH]; simpl; by rewrite ?IH. Qed.

Lemma heavy_urls_app (t1 t2 : list event) :
  heavy_urls (t1 ++ t2) = heavy_urls t1 ++ heavy_urls t2.
Proof. induction t1 as [|[] t1 IH]; simpl; by rewrite ?IH. Qed.

Lemma arun_urls_detail (urls : list string) :
  arun_urls (map EvDetail urls) = urls.
Proof. induction urls as [|u urls IH]; simpl; by rewrite ?IH. Qed.

Lemma heavy_urls_detail (urls : list string) :
  heavy_urls (map EvDetail urls) = [].
Proof. by induction urls. Qed.

Lemma costs_weaken {A : Type} (m : M A) (a h a' h' : nat) :
  costs m a h -> a <= a' -> h <= h' -> costs m a' h'.
Proof.
  intros Hm Ha Hh s. destruct (Hm s) as (new & ? & ? & ?).
  exists new. split; [done|]. lia.
Qed.

Lemma costs_same {A : Type} (m : M A) (a h : nat) :
  (forall s, trace (snd (m s)) = trace s) -> costs m a h.
Proof. intros Hm s. exists []. rewrite Hm. simpl. split; [done|]. lia. Qed.

Lemma costs_ret {A : Type} (x : A) (a h : nat) : costs (ret x) a h.
Proof. by apply costs_same. Qed.

Lemma costs_get (a h : nat) : costs get a h.
Proof. by apply costs_same. Qed.

Lemma costs_lift {A : Type} (r : raising A) (a h : nat) : costs (lift r) a h.
Proof. apply costs_same. intros s. unfold lift. by destruct r. Qed.

Lemma costs_visit (url : string) (depth : nat) (a h : nat) :
  costs (modify (log (EvVisit url depth))) a h.
Proof. intros s. exists [EvVisit url depth]. simpl. split; [done|]. lia. Qed.

Lemma costs_bind {A B : Type} (m : M A) (k : A -> M B)
    (a1 h1 a2 h2 a h : nat) :
  costs m a1 h1 -> (forall x, costs (k x) a2 h2) ->
  a1 + a2 <= a -> h1 + h2 <= h -> costs (bind m k) a h.
Proof.
  intros Hm Hk Ha Hh s. destruct (Hm s) as (n1 & Ht1 & Ha1 & Hh1).
  unfold bind. destruct (m s) as [[x| |] s1]; cbn [snd] in *.
  - destruct (Hk x s1) as (n2 & Ht2 & Ha2 & Hh2). exists (n2 ++ n1).
    rewrite Ht2, Ht1, app_assoc, arun_urls_app, heavy_urls_app, !length_app.
    split; [done|]. lia.
  - exists n1. split; [done|]. lia.
  - exists n1. split; [done|]. lia.
Qed.

Lemma costs_try_except {A : Type} (body handler : M A)
    (a1 h1 a2 h2 a h : nat) :
  costs body a1 h1 -> costs handler a2 h2 ->
  a1 + a2 <= a -> h1 + h2 <= h -> costs (try_except body handler) a h.
Proof.
  intros Hb Hh' Ha Hh s. destruct (Hb s) as (n1 & Ht1 & Ha1 & Hh1).
  unfold try_except. destruct (body s) as [[x| |] s1]; cbn [snd] in *.
  - exists n1. split; [done|]. lia.
  - destruct (Hh' s1) as (n2 & Ht2 & Ha2 & Hh2). exists (n2 ++ n1).
    rewrite Ht2, Ht1, app_assoc, arun_urls_app, heavy_urls_app, !length_app.
    split; [done|]. lia.
  - exists n1. split; [done|]. lia.
Qed.

Lemma costs_arun (site : string -> event) (url : string) (spa : bool)
    (threshold : nat) (a h : nat) :
  (forall u, length (arun_urls [site u]) <= 1) ->
  (forall u, heavy_urls [site u] = []) ->
  1 <= a -> costs (crawler_arun site url spa threshold) a h.
Proof.
  intros Hsite Hheavy Ha s. exists [site url].
  split; [unfold crawler_arun; by destruct (arun _ _ _ _)|].
  specialize (Hsite url). rewrite Hheavy. split; [lia|]. simpl. lia.
Qed.

Lemma costs_selenium (url : string) (a h : nat) :
  1 <= h -> costs (_extract_with_selenium url) a h.
Proof.
  intros Hh s.
  destruct (extract_with_selenium_state url s) as [_ [-> | ->]].
  - exists []. simpl. split; [done|]. lia.
  - exists [EvHeavy url]. simpl. split; [done|]. lia.
Qed.

Lemma costs_async {A : Type} (body : M A) (a h : nat) :
  costs body a h -> costs (async_with_crawler body) a h.
Proof.
  intros Hb s. unfold async_with_crawler.
  destruct crawler_enter; [|exists []; simpl; split; [done|lia]].
  destruct (Hb s) as (new & Ht & ? & ?). exists new.
  split; [|done]. destruct (body s) as [[x| |] s1]; [|done..].
  by destruct (crawler_exit _).
Qed.

Lemma costs_extract_single_job (job_url : string) (soup : node) (a h : nat) :
  costs (_extract_single_job job_url soup) a h.
Proof.
  apply costs_same. intros s.
  by destruct (extract_single_job_cases job_url soup s)
    as [[_ ->]|(_ & o & -> & _)].
Qed.

Lemma costs_listing (site_url country : string) (soup : node) (a h : nat) :
  25 <= a -> costs (_extract_from_job_listing site_url soup country) a h.
Proof.
  intros Ha s.
  destruct (extract_from_job_listing_run site_url country soup s)
    as (fetched & Hlen & (Ht & _) & _).
  exists (map EvDetail fetched).
  rewrite arun_urls_detail, heavy_urls_detail. split; [done|]. simpl. lia.
Qed.

Lemma find_category_links_length (soup : node) (base_url : string)
    (category_links : list category) :
  _find_category_links soup base_url = Returns category_links ->
  length category_links <= 8.
Proof.
  unfold _find_category_links. destruct (fold_raising _ _ _); [|done].
  intros [= <-]. apply firstn_length_le.
Qed.

Lemma costs_categories (self : string -> nat -> M (list job)) (depth : nat)
    (category_links : list category) (all_jobs : list job) (a h : nat) :
  (forall u, costs (self u (depth + 1)) a h) ->
  costs (crawl_categories self depth category_links all_jobs)
    (length category_links * a) (length category_links * h).
Proof.
  intros Hself. revert all_jobs.
  induction category_links as [|cat rest IH]; intros all_jobs.
  { apply costs_ret. }
  cbn [crawl_categories length].
  apply (costs_bind _ _ 0 0 (a + length rest * a) (h + length rest * h));
    [apply costs_get| |lia..].
  intros s. destruct (negb _).
  - apply (costs_bind _ _ a h (length rest * a) (length rest * h));
      [apply Hself| |lia..].
    intros jobs. apply IH.
  - eapply costs_weaken; [apply IH|lia..].
Qed.

Lemma costs_category_crawl (self : string -> nat -> M (list job))
    (url : string) (depth : nat) (soup : node) (jobs : list job)
    (a h : nat) :
  (forall u, costs (self u (depth + 1)) a h) ->
  costs (category_links <- lift (_find_category_links soup url) ;;
         if 0 <? length category_links then
           all_jobs <- crawl_categories self depth category_links [] ;;
           ret (_deduplicate_jobs all_jobs)
         else ret jobs) (8 * a) (8 * h).
Proof.
  intros Hself s. unfold bind at 1, lift.
  destruct (_find_category_links soup url) as [category_links|] eqn:Hlinks;
    [|exists []; simpl; split; [done|lia]].
  apply find_category_links_length in Hlinks.
  destruct (0 <? _); [|apply costs_ret].
  apply (costs_bind _ _ (8 * a) (8 * h) 0 0);
    [|intros; apply costs_ret|lia..].
  eapply costs_weaken; [apply costs_categories, Hself|nia..].
Qed.

Lemma costs_dispatch (self : string -> nat -> M (list job))
    (url country : string) (depth : nat) (soup : node) (a h : nat) :
  (forall u, costs (self u (depth + 1)) a h) ->
  costs (crawl_dispatch self url country depth soup) (25 + 8 * a) (8 * h).
Proof.
  intros Hself. unfold crawl_dispatch.
  apply (costs_bind _ _ 0 0 (25 + 8 * a) (8 * h));
    [apply costs_lift| |lia..].
  intros page_type. destruct page_type.
  - apply (costs_bind _ _ 0 0 0 0);
      [apply costs_extract_single_job| |lia..].
    intros [job_data|]; [|apply costs_ret].
    apply (costs_bind _ _ 0 0 0 0); [apply costs_lift| |lia..].
    intros [j|]; apply costs_ret.
  - apply (costs_bind _ _ 25 0 (8 * a) (8 * h));
      [by apply costs_listing| |lia..].
    intros jobs. destruct (length jobs =? 0); [|apply costs_ret].
    by apply costs_category_crawl.
  - apply (costs_bind _ _ 0 0 (25 + 8 * a) (8 * h)); [|intros ?; cbv beta|lia..].
    + apply costs_same. by intros s.
    + intros s. unfold bind at 1, lift.
      destruct (_find_category_links soup url) as [category_links|] eqn:Hlinks;
        [|exists []; simpl; split; [done|lia]].
      apply find_category_links_length in Hlinks.
      apply (costs_bind _ _ (8 * a) (8 * h) 25 0); [| |lia..].
      * eapply costs_weaken; [apply costs_categories, Hself|nia..].
      * intros all_jobs.
        apply (costs_bind _ _ 25 0 0 0);
          [by apply costs_listing|intros; apply costs_ret|lia..].
  - apply costs_listing; lia.
  - apply costs_ret.
  - apply (costs_bind _ _ 25 0 (8 * a) (8 * h));
      [by apply costs_listing| |lia..].
    intros jobs. destruct (length jobs =? 0); [|apply costs_ret].
    by apply costs_category_crawl.
Qed.

Lemma costs_load_page (url : string) : costs (load_page url) 1 1.
Proof.
  unfold load_page. cbv zeta.
  apply (costs_bind _ _ 1 0 0 1); [by apply costs_arun| |lia..].
  intros [success html]. destruct (negb success); [apply costs_ret|].
  destruct (_ || _ || _ || _); [|apply costs_ret].
  apply (costs_bind _ _ 0 1 0 0); [by apply costs_selenium| |lia..].
  intros selenium_html. destruct (negb _); [apply costs_ret|].
  destruct (_ <? 50); apply costs_ret.
Qed.

Lemma costs_crawl_body (self : string -> nat -> M (list job))
    (url country : string) (depth : nat) (a h : nat) :
  (forall u, costs (self u (depth + 1)) a h) ->
  costs (crawl_body self url country depth) (26 + 8 * a) (1 + 8 * h).
Proof.
  intros Hself. unfold crawl_body.
  apply (costs_bind _ _ 0 0 (26 + 8 * a) (1 + 8 * h));
    [apply costs_visit|intros ?; cbv beta|lia..].
  destruct (MAX_DEPTH <? depth); [apply costs_ret|].
  apply (costs_bind _ _ 0 0 (26 + 8 * a) (1 + 8 * h));
    [apply costs_get|intros s; cbv beta|lia..].
  case_bool_decide; [apply costs_ret|].
  apply (costs_bind _ _ 0 0 (26 + 8 * a) (1 + 8 * h)); [|intros ?; cbv beta|lia..].
  { apply costs_same. by intros s'. }
  destruct (should_skip_url url); [apply costs_ret|].
  destruct (3 <? depth); [apply costs_ret|].
  apply (costs_bind _ _ 0 0 (26 + 8 * a) (1 + 8 * h));
    [apply costs_get|intros s'; cbv beta|lia..].
  destruct (_ || _); [apply costs_ret|].
  apply (costs_bind _ _ 0 0 (26 + 8 * a) (1 + 8 * h)); [|intros ?; cbv beta|lia..].
  { apply costs_same. by intros s''. }
  apply (costs_try_except _ _ (26 + 8 * a) (1 + 8 * h) 0 0);
    [|apply costs_ret|lia..].
  apply (costs_bind _ _ 1 1 (25 + 8 * a) (8 * h));
    [apply costs_load_page| |lia..].
  intros [soup|]; [by apply costs_dispatch|apply costs_ret].
Qed.

Lemma costs_crawl (fuel : nat) (country url : string) (depth : nat) :
  costs (crawl fuel country url depth)
    (26 * pages (S MAX_DEPTH - depth)) (pages (S MAX_DEPTH - depth)).
Proof.
  revert url depth. induction fuel as [|fuel IH]; intros url depth.
  { apply costs_same. by intros s. }
  cbn [crawl]. destruct (Nat.le_gt_cases depth MAX_DEPTH) as [Hd|Hd].
  - eapply costs_weaken;
      [apply costs_crawl_body; intros u; apply IH| |].
    + replace (S MAX_DEPTH - depth) with (S (S MAX_DEPTH - (depth + 1)))
        by lia.
      cbn [pages]. lia.
    + replace (S MAX_DEPTH - depth) with (S (S MAX_DEPTH - (depth + 1)))
        by lia.
      cbn [pages]. lia.
  - intros s. rewrite crawl_body_deep by done.
    exists [EvVisit url depth]. simpl. split; [done|]. lia.
Qed.

Lemma costs_recursive_crawl (url country : string) (depth : nat) :
  costs (_recursive_crawl url country depth) 1898 73.
Proof.
  eapply costs_weaken; [apply costs_crawl| |].
  - assert (Hm : forall n m, n <= m -> pages n <= pages m).
    { intros n m Hnm. induction Hnm; [done|]. cbn [pages]. lia. }
    specialize (Hm (S MAX_DEPTH - depth) 3). unfold MAX_DEPTH in *.
    change (pages 3) with 73 in Hm. lia.
  - assert (Hm : forall n m, n <= m -> pages n <= pages m).
    { intros n m Hnm. induction Hnm; [done|]. cbn [pages]. lia. }
    specialize (Hm (S MAX_DEPTH - depth) 3). unfold MAX_DEPTH in *.
    change (pages 3) with 73 in Hm. lia.
Qed.

Lemma costs_crawl_from (scan_soup : node) (clean_url country : string) :
  costs (crawl_from scan_soup clean_url country) 3796 146.
Proof.
  unfold crawl_from.
  apply (costs_bind _ _ 0 0 3796 146); [apply costs_lift| |lia..].
  intros [search_url|];
    [|eapply costs_weaken; [apply costs_recursive_crawl|lia..]].
  apply (costs_bind _ _ 1898 73 1898 73);
    [apply costs_recursive_crawl| |lia..].
  intros jobs. destruct (length jobs =? 0);
    [apply costs_recursive_crawl|apply costs_ret].
Qed.

Lemma costs_bind_post {A B : Type} (Q : A -> Prop) (m : M A)
    (k : A -> M B) (a1 h1 a2 h2 a h : nat) :
  costs m a1 h1 -> (forall s, may_raise Q (fst (m s)) \/ fst (m s) = NoFuel) ->
  (forall x, Q x -> costs (k x) a2 h2) ->
  a1 + a2 <= a -> h1 + h2 <= h -> costs (bind m k) a h.
Proof.
  intros Hm HQ Hk Ha Hh s. destruct (Hm s) as (n1 & Ht1 & Ha1 & Hh1).
  specialize (HQ s). unfold bind.
  destruct (m s) as [[x| |] s1]; cbn [fst snd] in *.
  - destruct HQ as [HQ|]; [|done].
    destruct (Hk x HQ s1) as (n2 & Ht2 & Ha2 & Hh2). exists (n2 ++ n1).
    rewrite Ht2, Ht1, app_assoc, arun_urls_app, heavy_urls_app, !length_app.
    split; [done|]. lia.
  - exists n1. split; [done|]. lia.
  - exists n1. split; [done|]. lia.
Qed.

Lemma costs_crawl_site (site_url country : string) :
  costs (crawl_site site_url country) 3797 147.
Proof.
  unfold crawl_site. cbv zeta.
  destruct (should_skip_url _); [apply costs_ret|].
  apply (costs_bind _ _ 1 0 3796 147); [by apply costs_arun| |lia..].
  intros [success html]. destruct success.
  - apply (costs_bind_post is_Some _ _ 0 1 3796 146); [| | |lia..].
    + destruct (_ || _ || _ || _); [|apply costs_ret].
      apply (costs_bind _ _ 0 1 0 0); [by apply costs_selenium| |lia..].
      intros selenium_html. destruct (negb _); apply costs_ret.
    + intros s. left. destruct (_ || _ || _ || _); [|by eexists].
      unfold bind.
      destruct (extract_with_selenium_state (_get_job_detail_url site_url) s)
        as [Hout _].
      destruct (_extract_with_selenium _ s) as [[html'| |] s1];
        cbn [fst] in *; [|done|by destruct Hout as [[? ?]|?]].
      destruct (negb _); by eexists.
    + intros scan_soup [soup ->]. apply costs_crawl_from.
  - apply (costs_bind _ _ 0 0 3796 147); [apply costs_ret| |lia..].
    intros [scan_soup|];
      [eapply costs_weaken; [apply costs_crawl_from|lia..]|].
    apply (costs_bind _ _ 0 1 3796 146); [by apply costs_selenium| |lia..].
    intros selenium_html.
    destruct (negb _); [apply costs_crawl_from|apply costs_ret].
Qed.

(** X19.  A call of [_recursive_crawl], at any depth and from any
    state, gives at most 1898 URLs to [crawler.arun] and launches at
    most 73 browsers; a whole session gives at most 3797 URLs to
    [crawler.arun] and launches at most 148 browsers, whatever the
    pages hold. *)
Theorem session_cost (site_url country url : string) (depth : nat)
    (s : scraper) :
  costs (_recursive_crawl url country depth) 1898 73
  /\ length (arun_urls
               (trace (snd (extract_jobs_from_site site_url country s))))
     <= 3797
  /\ length (heavy_urls
               (trace (snd (extract_jobs_from_site site_url country s))))
     <= 148.
Proof.
  split; [apply costs_recursive_crawl|].
  assert (Hrun : costs (try_except
                          (async_with_crawler (crawl_site site_url country))
                          (emergency_extraction site_url)) 3797 148).
  { apply (costs_try_except _ _ 3797 147 0 1);
      [apply costs_async, costs_crawl_site| |lia..].
    unfold emergency_extraction. cbv zeta.
    apply (costs_bind _ _ 0 1 0 0); [by apply costs_selenium| |lia..].
    intros selenium_html. destruct (negb _); [|apply costs_ret].
    destruct (_ =? 0); [|apply costs_ret].
    apply (costs_bind _ _ 0 0 0 0); [apply costs_lift| |lia..].
    intros links. apply costs_ret. }
  destruct (Hrun (reset_guards s)) as (new & Ht & Ha & Hh).
  unfold extract_jobs_from_site, bind, modify. cbv beta iota.
  destruct (try_except _ _ (reset_guards s)) as [[jobs| |] s'];
    cbn [snd] in *; rewrite Ht; cbn [reset_guards trace];
    by rewrite app_nil_r.
Qed.

End CostFacts.

(** ** The job table *)

Section DatabaseFacts.
Import PyStr ScraperFilters JobDatabase EnhancedJobExtractionAgent.
Context `{Clock}.

Lemma same_job_spec (job_id company : string) (r : row) :
  same_job job_id company r = true <-> row_key r = (job_id, company).
Proof.
  unfold same_job, row_key. rewrite andb_true_iff, !String.eqb_eq.
  split; [by intros [-> ->]|by intros [= -> ->]].
Qed.

Lemma same_job_key (job : job_data) (r : row) :
  same_job (jd_job_id job) (jd_company job) r = true <-> row_key r = job_key job.
Proof. apply same_job_spec. Qed.

Lemma update_row_key (job : job_data) (country date : string) (now : nat)
    (r : row) :
  row_key (update_row job country date now r) = row_key r.
Proof. unfold update_row. by destruct (same_job _ _ r). Qed.

Lemma update_rows_keys (job : job_data) (country date : string) (now : nat)
    (rows : list row) :
  map row_key (map (update_row job country date now) rows) = map row_key rows.
Proof.
  rewrite map_map. apply map_ext. intros r. apply update_row_key.
Qed.

Lemma find_none_key (job : job_data) (rows : list row) :
  List.find (same_job (jd_job_id job) (jd_company job)) rows = None ->
  job_key job ∉ map row_key rows.
Proof.
  intros Hnone (r & Hk & Hr)%list_elem_of_fmap.
  apply list_elem_of_In in Hr.
  pose proof (find_none _ _ Hnone r Hr) as Hf.
  symmetry in Hk. apply same_job_key in Hk. congruence.
Qed.

Lemma find_some_key (job : job_data) (rows : list row) (r : row) :
  List.find (same_job (jd_job_id job) (jd_company job)) rows = Some r ->
  r ∈ rows /\ row_key r = job_key job.
Proof.
  intros [Hin Hk]%find_some. split; [by apply list_elem_of_In|].
  by apply same_job_key.
Qed.

(** What one iteration of [save_jobs] does to the table. *)
Lemma save_job_cases (country date : string) (saved updated : nat)
    (db : database) (job : job_data) :
  ((job_key job ∈ map row_key (jobs db))
   /\ (save_job country date (saved, updated, db) job
       = (saved, updated + 1,
          {| jobs := map (update_row job country date (instant db)) (jobs db);
             sqlite_sequence := sqlite_sequence db; instant := S (instant db) |})))
  \/ ((job_key job ∉ map row_key (jobs db))
      /\ (save_job country date (saved, updated, db) job
          = (saved + 1, updated,
             {| jobs := jobs db
                        ++ [insert_row job country date (S (sqlite_sequence db))
                              (instant db)];
                sqlite_sequence := S (sqlite_sequence db); instant := S (instant db) |}))).
Proof.
  unfold save_job. cbv zeta.
  destruct (List.find _ (jobs db)) as [r|] eqn:Hfind.
  - left. split; [|done]. apply find_some_key in Hfind as [Hin Hk].
    apply list_elem_of_fmap. by exists r.
  - right. split; [|done]. by apply find_none_key.
Qed.

Lemma stored_key (job : job_data) (country : string) (r : row) :
  stored job country r -> row_key r = job_key job.
Proof. intros (Hid & Hc & _). unfold row_key, job_key. by rewrite Hid, Hc. Qed.

Lemma update_row_stored (job : job_data) (country date : string) (now : nat)
    (r : row) :
  row_key r = job_key job ->
  stored job country (update_row job country date now r).
Proof.
  intros Hk. unfold update_row.
  rewrite (proj2 (same_job_key job r) Hk).
  injection Hk as Hid Hc. by repeat split.
Qed.

Lemma update_row_other (job : job_data) (country date : string) (now : nat)
    (r : row) :
  row_key r <> job_key job -> update_row job country date now r = r.
Proof.
  intros Hk. unfold update_row.
  destruct (same_job _ _ r) eqn:Hs; [|done].
  by apply same_job_key in Hs.
Qed.

Lemma insert_row_stored (job : job_data) (country date : string)
    (new_id now : nat) :
  stored job country (insert_row job country date new_id now).
Proof. by repeat split. Qed.

(** The state of the table in the loop of [save_jobs], [db0] being the
    database at its start and [done] the jobs gone through. *)
Lemma save_jobs_loop (country date : string) (job_list : list job_data)
    (saved updated : nat) (db : database) :
  NoDup (map row_key (jobs db)) ->
  exists saved' updated' db' added,
    fold_left (save_job country date) job_list (saved, updated, db)
    = (saved', updated', db')
    /\ NoDup (map row_key (jobs db'))
    /\ map row_key (jobs db') = map row_key (jobs db) ++ added
    /\ map col_id (jobs db') = map col_id (jobs db) ++ seq_ids (sqlite_sequence db) (length added)
    /\ saved' = saved + length added
    /\ saved' + updated' = saved + updated + length job_list
    /\ sqlite_sequence db' = sqlite_sequence db + length added.
Proof.
  revert saved updated db.
  induction job_list as [|job rest IH]; intros saved updated db Hnd.
  { exists saved, updated, db, []. simpl. rewrite !app_nil_r.
    repeat split; try done; lia. }
  cbn [fold_left].
  destruct (save_job_cases country date saved updated db job)
    as [[Hin ->]|[Hnew ->]].
  - destruct (IH saved (updated + 1)
                {| jobs := map (update_row job country date (instant db))
                             (jobs db);
                   sqlite_sequence := sqlite_sequence db; instant := S (instant db) |})
      as (saved' & updated' & db' & added & Hrun & Hnd' & Hk & Hid & Hs & Hu & Hq).
    { cbn [jobs]. by rewrite update_rows_keys. }
    cbn [jobs sqlite_sequence] in *. rewrite update_rows_keys in Hk.
    exists saved', updated', db', added.
    split; [done|]. split; [done|]. split; [done|].
    split; [|split; [done|split; [simpl; lia|done]]].
    rewrite Hid. f_equal. rewrite map_map. apply map_ext.
    intros r. unfold update_row. by destruct (same_job _ _ r).
  - destruct (IH (saved + 1) updated
                {| jobs := jobs db
                           ++ [insert_row job country date (S (sqlite_sequence db))
                                 (instant db)];
                   sqlite_sequence := S (sqlite_sequence db); instant := S (instant db) |})
      as (saved' & updated' & db' & added & Hrun & Hnd' & Hk & Hid & Hs & Hu & Hq).
    { cbn [jobs]. rewrite map_app. apply NoDup_app. split; [done|].
      split; [|apply NoDup_singleton].
      intros k Hk [->|[]%elem_of_nil]%elem_of_cons. by apply Hnew. }
    cbn [jobs sqlite_sequence] in *. rewrite map_app in Hk, Hid. cbn [map] in Hk, Hid.
    exists saved', updated', db', (job_key job :: added).
    split; [done|]. split; [done|].
    split; [by rewrite Hk, <- app_assoc|].
    split; [by rewrite Hid, <- app_assoc|].
    simpl. lia.
Qed.

(** X20.  On a table whose pairs [(job_id, company)] are distinct, as
    the [UNIQUE] constraint has them, [save_jobs] keeps them distinct.
    It removes and reorders nothing and leaves the key and the [id] of
    every row as they are; the rows it inserts come last, with the
    identifiers that follow the last one given; it returns the number
    of rows inserted, at most the number of jobs it was given. *)
Theorem save_jobs_rules (job_list : list job_data) (country : string)
    (db : database)
    (Hunique : NoDup (map row_key (jobs db))) :
  NoDup (map row_key (jobs (snd (save_jobs job_list country db))))
  /\ (exists added,
        map row_key (jobs (snd (save_jobs job_list country db)))
        = map row_key (jobs db) ++ added
        /\ length added = fst (save_jobs job_list country db))
  /\ map col_id (jobs (snd (save_jobs job_list country db)))
     = map col_id (jobs db)
       ++ seq_ids (sqlite_sequence db) (fst (save_jobs job_list country db))
  /\ fst (save_jobs job_list country db) <= length job_list.
Proof.
  unfold save_jobs. cbv zeta.
  destruct (save_jobs_loop country (strftime_now (instant db)) job_list 0 0
              {| jobs := jobs db; sqlite_sequence := sqlite_sequence db; instant := S (instant db) |}
              Hunique)
    as (saved' & updated' & db' & added & -> & Hnd & Hk & Hid & Hs & Hu & _).
  cbn [fst snd jobs sqlite_sequence] in *. subst saved'.
  split; [done|]. split; [by exists added|]. split; [done|]. lia.
Qed.

Lemma save_job_writes (country date : string) (saved updated : nat)
    (db : database) (job : job_data) :
  let db' := snd (save_job country date (saved, updated, db) job) in
  (exists r, r ∈ jobs db' /\ row_key r = job_key job)
  /\ Forall (fun r => row_key r = job_key job -> stored job country r)
       (jobs db').
Proof.
  destruct (save_job_cases country date saved updated db job)
    as [[Hin ->]|[Hnew ->]]; cbn [snd jobs].
  - split.
    + apply list_elem_of_fmap in Hin as (r & Hk & Hr).
      exists (update_row job country date (instant db) r).
      split; [by apply list_elem_of_fmap_2|]. by rewrite update_row_key.
    + apply Forall_forall. intros r' (r & -> & Hr)%list_elem_of_fmap Hk.
      rewrite update_row_key in Hk. by apply update_row_stored.
  - split.
    + eexists. split; [apply elem_of_app; right; apply list_elem_of_singleton;
                       reflexivity|done].
    + apply Forall_app. split; [|by apply Forall_singleton].
      apply Forall_forall. intros r Hr Hk. exfalso. apply Hnew.
      apply list_elem_of_fmap. by exists r.
Qed.

Lemma save_job_keeps (country date : string) (saved updated : nat)
    (db : database) (job other : job_data) (country' : string) :
  job_key other <> job_key job ->
  let db' := snd (save_job country date (saved, updated, db) other) in
  (exists r, r ∈ jobs db /\ row_key r = job_key job) ->
  Forall (fun r => row_key r = job_key job -> stored job country' r)
    (jobs db) ->
  (exists r, r ∈ jobs db' /\ row_key r = job_key job)
  /\ Forall (fun r => row_key r = job_key job -> stored job country' r)
       (jobs db').
Proof.
  intros Hother db' [r [Hr Hk]] Hall. subst db'.
  rewrite Forall_forall in Hall.
  destruct (save_job_cases country date saved updated db other)
    as [[Hin ->]|[Hnew ->]]; cbn [snd jobs].
  - split.
    + exists r. split; [|done]. apply list_elem_of_fmap. exists r.
      split; [|done]. symmetry. apply update_row_other. congruence.
    + apply Forall_forall. intros r' (r0 & -> & Hr0)%list_elem_of_fmap Hk0.
      rewrite update_row_key in Hk0.
      rewrite update_row_other by congruence. by apply Hall.
  - split.
    + exists r. split; [|done]. apply elem_of_app. by left.
    + apply Forall_app. split; [by apply Forall_forall|].
      apply Forall_singleton. intros Hk0. by destruct Hother.
Qed.

(** X21.  After [save_jobs], the table has a row for the pair
    [(job_id, company)] of every job given, and each row with that pair
    holds the fields of the last job in the list that has it, and the
    country of the call: a row stored before for another country has
    changed country. *)
Theorem save_jobs_last_wins (before after : list job_data) (job : job_data)
    (country : string) (db : database)
    (Hlast : Forall (fun j => job_key j <> job_key job) after) :
  (exists r, r ∈ jobs (snd (save_jobs (before ++ job :: after) country db))
             /\ row_key r = job_key job)
  /\ Forall (fun r => row_key r = job_key job -> stored job country r)
       (jobs (snd (save_jobs (before ++ job :: after) country db))).
Proof.
  unfold save_jobs. cbv zeta. rewrite fold_left_app. cbn [fold_left].
  destruct (fold_left _ before _) as [[saved updated] db1].
  pose proof (save_job_writes country (strftime_now (instant db)) saved
                updated db1 job) as Hjob. cbv zeta in Hjob.
  destruct (save_job _ _ (saved, updated, db1) job) as [[saved2 updated2] db2].
  cbn [snd] in Hjob. clear db1 saved updated.
  revert saved2 updated2 db2 Hjob.
  induction Hlast as [|other rest Hother _ IH]; intros saved updated db2 Hjob.
  { by cbn [fold_left snd]. }
  cbn [fold_left].
  pose proof (save_job_keeps country (strftime_now (instant db)) saved
                updated db2 job other country Hother) as Hkeep.
  cbv zeta in Hkeep.
  destruct (save_job _ _ (saved, updated, db2) other)
    as [[saved3 updated3] db3].
  apply IH. cbn [snd] in Hkeep. destruct Hjob as [Hex Hall]. by apply Hkeep.
Qed.

Lemma save_jobs_one (job : job_data) (country : string) (db : database) :
  ((job_key job ∈ map row_key (jobs db))
   /\ (save_jobs [job] country db
       = (0, {| jobs := map (update_row job country
                               (strftime_now (instant db)) (S (instant db)))
                          (jobs db);
                sqlite_sequence := sqlite_sequence db; instant := S (S (instant db)) |})))
  \/ ((job_key job ∉ map row_key (jobs db))
      /\ (save_jobs [job] country db
          = (1, {| jobs := jobs db
                           ++ [insert_row job country
                                 (strftime_now (instant db)) (S (sqlite_sequence db))
                                 (S (instant db))];
                   sqlite_sequence := S (sqlite_sequence db); instant := S (S (instant db)) |}))).
Proof.
  unfold save_jobs. cbv zeta. cbn [fold_left].
  destruct (save_job_cases country (strftime_now (instant db)) 0 0
              {| jobs := jobs db; sqlite_sequence := sqlite_sequence db; instant := S (instant db) |}
              job) as [[Hin ->]|[Hnew ->]]; [by left|by right].
Qed.

(** What [_save_job_profiles] has made of the table [jobs db] when its
    loop has gone through [profiles], all of them among [every]. *)
Lemma save_profiles_loop (country : string) (every profiles : list job)
    (n : nat) (db : database) :
  (forall p, p ∈ profiles -> p ∈ every) ->
  exists n' db' old new,
    fold_left (save_profile country) profiles (n, db) = (n', db')
    /\ jobs db' = old ++ new
    /\ n' = n + length new
    /\ Forall2 (fun r r' => row_key r' = row_key r /\ col_id r' = col_id r
                            /\ (r' = r \/ from_profile country every r'))
         (jobs db) old
    /\ Forall (from_profile country every) new
    /\ (NoDup (map row_key (jobs db)) -> NoDup (map row_key (jobs db'))).
Proof.
  revert n db. induction profiles as [|p rest IH]; intros n db Hsub.
  { exists n, db, (jobs db), []. rewrite app_nil_r. simpl.
    split; [done|]. split; [done|]. split; [lia|].
    split; [|by split]. apply Forall2_same_length_lookup_2; [done|].
    intros i r r' Hr Hr'. assert (r' = r) as -> by congruence.
    split; [done|]. split; [done|]. by left. }
  assert (Hrest : forall q, q ∈ rest -> q ∈ every).
  { intros q Hq. apply Hsub. by apply elem_of_cons; right. }
  assert (Hp : p ∈ every) by (apply Hsub; by apply elem_of_cons; left).
  cbn [fold_left]. unfold save_profile at 2.
  destruct (is_valid_job p) eqn:Hvalid; [|by apply IH]. cbn [negb].
  cbv zeta.
  destruct (matches_target_role (job_title p) "internship") eqn:Hrole;
    [|by apply IH]. cbn [negb].
  assert (Hfrom : forall r, stored (job_data_of p) country r ->
                            from_profile country every r).
  { intros r Hr. by exists p. }
  destruct (save_jobs_one (job_data_of p) country db)
    as [[Hin ->]|[Hnew ->]].
  - cbv beta iota.
    match goal with
    | |- context [fold_left _ rest (?n1, ?d1)] =>
        destruct (IH n1 d1 Hrest)
          as (n' & db' & old & new & Hrun & Hjobs & Hn & Hold & Hnew & Hnd)
    end.
    cbn [jobs] in *. exists n', db', old, new.
    split; [done|]. split; [done|]. split; [lia|]. split; [|split; [done|]].
    + apply Forall2_fmap_l in Hold.
      eapply Forall2_impl; [exact Hold|].
      intros r r' (Hk & Hid & Hr'). cbn [compose] in *.
      rewrite update_row_key in Hk. split; [done|].
      split; [rewrite Hid; unfold update_row; by destruct (same_job _ _ r)|].
      destruct Hr' as [->|Hr']; [|by right].
      destruct (decide (row_key r = job_key (job_data_of p))) as [Hk'|Hk'].
      * right. by apply Hfrom, update_row_stored.
      * left. by apply update_row_other.
    + intros Hu. apply Hnd. by rewrite update_rows_keys.
  - cbv beta iota.
    match goal with
    | |- context [fold_left _ rest (?n1, ?d1)] =>
        destruct (IH n1 d1 Hrest)
          as (n' & db' & old & new & Hrun & Hjobs & Hn & Hold & Hnew' & Hnd)
    end.
    cbn [jobs] in *.
    apply Forall2_app_inv_l in Hold as (old1 & old2 & Hold1 & Hold2 & ->).
    apply Forall2_cons_inv_l in Hold2 as (r' & tl & (_ & _ & Hr') & Htl & ->).
    apply Forall2_nil_inv_l in Htl as ->.
    exists n', db', old1, (r' :: new).
    split; [done|]. split; [by rewrite Hjobs, <- app_assoc|].
    split; [simpl; lia|]. split; [done|]. split.
    + constructor; [|done]. destruct Hr' as [->|Hr']; [|done].
      apply Hfrom, insert_row_stored.
    + intros Hu. apply Hnd. rewrite map_app. apply NoDup_app.
      split; [done|]. split; [|apply NoDup_singleton].
      intros k Hk [->|[]%elem_of_nil]%elem_of_cons. by apply Hnew.
Qed.

Lemma from_profile_blank (country : string) (profiles : list job) (r : row) :
  from_profile country profiles r ->
  col_experience r = EmptyString /\ col_job_type r = EmptyString
  /\ col_apply_link r = EmptyString /\ col_country r = country.
Proof.
  intros (p & _ & _ & _ & Hst).
  destruct Hst as (_ & _ & _ & _ & He & Ht & _ & _ & Hl & Hc).
  by rewrite He, Ht, Hl, Hc.
Qed.

(** X22.  [_save_job_profiles] leaves every row as it is or overwrites
    it, key and [id] unchanged, for a profile that passes [is_valid_job]
    and the internship check; the rows it inserts come last, each for
    such a profile, and it returns their number.  No row it writes
    holds an experience, a job type or an apply link: a record of the
    scraper has no [employment_type] and no [apply_url]. *)
Theorem save_job_profiles_rows (profiles : list job) (country : string)
    (db : database) :
  exists old new,
    jobs (snd (_save_job_profiles profiles country db)) = old ++ new
    /\ fst (_save_job_profiles profiles country db) = length new
    /\ Forall2 (fun r r' => row_key r' = row_key r /\ col_id r' = col_id r
                            /\ (r' = r
                                \/ (from_profile country profiles r'
                                    /\ col_experience r' = EmptyString
                                    /\ col_job_type r' = EmptyString
                                    /\ col_apply_link r' = EmptyString)))
         (jobs db) old
    /\ Forall (fun r => from_profile country profiles r
                        /\ col_experience r = EmptyString
                        /\ col_job_type r = EmptyString
                        /\ col_apply_link r = EmptyString) new.
Proof.
  unfold _save_job_profiles.
  destruct (save_profiles_loop country profiles profiles 0 db)
    as (n' & db' & old & new & -> & Hjobs & -> & Hold & Hnew & _); [done|].
  exists old, new. cbn [fst snd]. split; [done|]. split; [done|]. split.
  - eapply Forall2_impl; [exact Hold|].
    intros r r' (Hk & Hid & [->|Hr']); repeat split; try done;
      [by left|right].
    destruct (from_profile_blank _ _ _ Hr') as (? & ? & ? & _). done.
  - eapply Forall_impl; [exact Hnew|]. intros r Hr.
    destruct (from_profile_blank _ _ _ Hr) as (? & ? & ? & _). done.
Qed.

(** X23.  For profiles without a [job_id], which is every record of the
    scraper, [_save_job_profiles] inserts at most one row for each
    company name among them, however many profiles carry that name:
    the profiles of one company are written one over the other. *)
Theorem save_job_profiles_one_per_company (profiles : list job)
    (country : string) (db : database)
    (Hunique : NoDup (map row_key (jobs db)))
    (Hno_id : Forall (fun p => job_id p = None) profiles) :
  fst (_save_job_profiles profiles country db)
  <= length (remove_dups (map company profiles)).
Proof.
  unfold _save_job_profiles.
  destruct (save_profiles_loop country profiles profiles 0 db)
    as (n' & db' & old & new & -> & Hjobs & -> & _ & Hnew & Hnd); [done|].
  cbn [fst]. specialize (Hnd Hunique). rewrite Hjobs, map_app in Hnd.
  apply NoDup_app in Hnd as (_ & _ & Hnd).
  assert (Hkeys : map row_key new
                  = map (pair EmptyString) (map col_company new)).
  { rewrite map_map. apply Forall_fmap_ext_1.
    eapply Forall_impl; [exact Hnew|].
    intros r (p & Hp & _ & _ & Hid & Hc & _). unfold row_key.
    rewrite Forall_forall in Hno_id. rewrite Hid. cbn [job_data_of jd_job_id].
    by rewrite (Hno_id p Hp). }
  rewrite Hkeys in Hnd. apply NoDup_fmap_1 in Hnd.
  change (0 + length new) with (length new).
  rewrite <- (length_map col_company new).
  apply submseteq_length, NoDup_submseteq; [done|].
  intros c (r & -> & Hr)%list_elem_of_fmap. apply elem_of_remove_dups.
  rewrite Forall_forall in Hnew.
  destruct (Hnew r Hr) as (p & Hp & _ & _ & _ & Hc & _).
  apply list_elem_of_fmap. exists p. split; [|done]. by rewrite Hc.
Qed.

(** X24.  After [clear_all_jobs_for_country] and [_save_job_profiles]
    for the same country, as [auto_extract_jobs] calls them, no row of
    that country is left from earlier runs: each holds a profile of
    this run, one that passed both checks. *)
Theorem clear_then_save (profiles : list job) (country : string)
    (db : database) :
  Forall (fun r => col_country r = country ->
                   from_profile country profiles r)
    (jobs (snd (_save_job_profiles profiles country
                  (snd (clear_all_jobs_for_country country db))))).
Proof.
  unfold _save_job_profiles.
  destruct (save_profiles_loop country profiles profiles 0
              (snd (clear_all_jobs_for_country country db)))
    as (n' & db' & old & new & -> & Hjobs & _ & Hold & Hnew & _); [done|].
  cbn [snd clear_all_jobs_for_country jobs] in *. rewrite Hjobs.
  apply Forall_app. split; [|by eapply Forall_impl; [exact Hnew|]].
  apply Forall_forall. intros r' Hr' Hc.
  apply list_elem_of_lookup in Hr' as [i Hi].
  destruct (Forall2_lookup_r _ _ _ _ _ Hold Hi)
    as (r & Hr & _ & _ & [->|Hfrom]); [|done].
  apply list_elem_of_lookup_2, list_elem_of_In, filter_In in Hr as [_ Hne].
  apply negb_true_iff, String.eqb_neq in Hne. done.
Qed.

End DatabaseFacts.

(** ** The company search *)

Section SearchFacts.
Import PyStr EnhancedJobExtractionAgent.
Context `{PyLib} `{Serper}.

Lemma result_step_inv (base_query : string) (limit : Z) (calls : nat)
    (num start : Z) (organic : list (string * string)) (st : search_state)
    (result : string * string) :
  post_search calls base_query num start = Some organic ->
  result ∈ organic ->
  search_inv base_query limit st ->
  search_inv base_query limit (result_step limit st result).
Proof.
  intros Hpost Hin (Hnd & Hseen & Hok & Hlen). unfold result_step.
  destruct (raised st); [done|].
  destruct (Z.leb_spec limit (Z.of_nat (length (companies st)))); [done|].
  destruct result as [link title].
  destruct (urlparse link) as [parsed|] eqn:Hparse; [|done].
  cbv zeta. case_bool_decide as Hnew; [done|]. cbn [negb andb].
  destruct (_is_career_site title link) eqn:Hsite; [|done].
  unfold search_inv. cbn [companies seen_domains].
  rewrite map_app, length_app. cbn [map length co_domain].
  split.
  { apply NoDup_app. split; [done|]. split; [|apply NoDup_singleton].
    intros d Hd [->|[]%elem_of_nil]%elem_of_cons. by apply Hnew, Hseen. }
  split.
  { intros d [Hd| ->%list_elem_of_singleton]%elem_of_app;
      apply elem_of_union; [right; by apply Hseen|left].
    by apply elem_of_singleton. }
  split; [|lia].
  apply Forall_app. split; [done|]. apply Forall_singleton.
  exists calls, num, start, organic, title, parsed. by repeat split.
Qed.

Lemma result_loop_inv (base_query : string) (limit : Z) (calls : nat)
    (num start : Z) (organic rest : list (string * string))
    (st : search_state) :
  post_search calls base_query num start = Some organic ->
  (forall result, result ∈ rest -> result ∈ organic) ->
  search_inv base_query limit st ->
  search_inv base_query limit (fold_left (result_step limit) rest st).
Proof.
  intros Hpost. revert st.
  induction rest as [|result rest IH]; intros st Hrest Hst; [done|].
  cbn [fold_left]. apply IH.
  - intros r Hr. apply Hrest. by right.
  - apply (result_step_inv base_query limit calls num start organic);
      [done|apply Hrest; by left|done].
Qed.

(** The loop returns, within the fuel that [_find_companies] gives it,
    and what it returns satisfies the invariant. *)
Lemma search_loop_spec (fuel : nat) (base_query : string) (limit : Z)
    (calls : nat) (start : Z) (found : list company_site)
    (seen : gset string) :
  search_inv base_query limit
    {| companies := found; seen_domains := seen;
       new_companies_found := false; raised := false |} ->
  (Z.max 0 (limit * 5 - start) + 2 <= Z.of_nat fuel * 2)%Z ->
  exists cs calls',
    search_loop fuel base_query limit calls start found seen
    = Some (cs, calls')
    /\ NoDup (map co_domain cs) /\ Forall (site_from base_query) cs
    /\ (Z.of_nat (length cs) <= Z.max 0 limit)%Z
    /\ calls <= calls'
    /\ ((limit <= Z.of_nat (length found))%Z -> calls' = calls)
    /\ (Z.of_nat (calls' - calls) * 2 <= Z.max 0 (limit * 5 - start) + 2)%Z.
Proof.
  revert calls start found seen.
  induction fuel as [|fuel IH]; intros calls start found seen Hinv Hfuel;
    [lia|].
  assert (Hstop : forall st,
            search_inv base_query limit st ->
            (Z.of_nat (length found) < limit)%Z ->
            exists cs calls',
              Some (companies st, S calls) = Some (cs, calls')
              /\ NoDup (map co_domain cs) /\ Forall (site_from base_query) cs
              /\ (Z.of_nat (length cs) <= Z.max 0 limit)%Z
              /\ calls <= calls'
              /\ ((limit <= Z.of_nat (length found))%Z -> calls' = calls)
              /\ (Z.of_nat (calls' - calls) * 2
                  <= Z.max 0 (limit * 5 - start) + 2)%Z).
  { intros st (Hnd & _ & Hok & Hlen) Hlt. exists (companies st), (S calls).
    split; [done|]. split; [done|]. split; [done|]. split; [done|].
    split; [lia|]. split; lia. }
  cbn [search_loop].
  destruct (Z.ltb_spec (Z.of_nat (length found)) limit) as [Hlt|Hge].
  2:{ destruct Hinv as (Hnd & _ & Hok & Hlen). exists found, calls.
      cbn [companies] in *. split; [done|]. split; [done|]. split; [done|].
      split; [done|]. split; [lia|]. split; [done|]. lia. }
  cbv zeta.
  destruct (post_search calls base_query _ start) as [organic|] eqn:Hpost;
    [|by apply (Hstop _ Hinv)].
  pose proof (result_loop_inv base_query limit calls _ start organic organic
                _ Hpost (fun _ Hr => Hr) Hinv) as Hst.
  set (st := fold_left _ organic _) in *.
  destruct (raised st); [by apply Hstop|].
  destruct (negb _ && _); [by apply Hstop|].
  destruct (Z.ltb_spec (limit * 5)
              (start + Z.min ((limit - Z.of_nat (length found)) * 2) 20))
    as [Hover|Hin]; [by apply Hstop|].
  destruct (IH (S calls)
              (start + Z.min ((limit - Z.of_nat (length found)) * 2) 20)%Z
              (companies st) (seen_domains st))
    as (cs & calls' & Hrun & Hnd & Hok & Hlen & Hcalls & _ & Hbound).
  { destruct Hst as (? & ? & ? & ?). by repeat split. }
  { lia. }
  exists cs, calls'. split; [done|]. split; [done|]. split; [done|].
  split; [done|]. split; [lia|]. split; lia.
Qed.

(** X25.  [_find_companies] returns: the loop ends.  It returns at most
    [limit] companies, no two with the same domain; each has the link
    of a result that one of the requests made for the query of the
    country returned, a link that [urlparse] accepts and that
    [_is_career_site] accepts with the title of that result; its
    domain is the lower-case host of the link and its name is taken
    from that domain and title.  It makes at most [(5 * limit + 2) / 2]
    requests, none when [limit] is not positive. *)
Theorem find_companies_rules (country : string) (limit : Z) :
  exists cs calls,
    _find_companies country limit = Some (cs, calls)
    /\ (Z.of_nat (length cs) <= Z.max 0 limit)%Z
    /\ NoDup (map co_domain cs)
    /\ Forall (site_from ("jobs careers hiring " +:+ country
                          +:+ " site:careers OR site:jobs")) cs
    /\ (Z.of_nat calls * 2 <= Z.max 0 (limit * 5 + 2))%Z
    /\ ((limit <= 0)%Z -> calls = 0).
Proof.
  unfold _find_companies. cbv zeta.
  destruct (search_loop_spec (S (Z.to_nat (limit * 5)))
              ("jobs careers hiring " +:+ country
               +:+ " site:careers OR site:jobs") limit 0 0%Z [] ∅)
    as (cs & calls & Hrun & Hnd & Hok & Hlen & _ & Hzero & Hbound).
  { split; [constructor|]. split; [by intros d ?%elem_of_nil|].
    split; [constructor|]. simpl. lia. }
  { lia. }
  exists cs, calls. split; [done|]. split; [done|]. split; [done|].
  split; [done|]. cbn [length] in Hzero.
  destruct (Z.le_gt_cases limit 0) as [Hle|Hgt].
  - rewrite (Hzero Hle). split; [lia|done].
  - split; lia.
Qed.

End SearchFacts.

(** ** Further concrete runs *)

Section MoreConcreteRuns.
Import PyStr ScraperFilters ExpertJobScraper CrawlSpec Invariants.
Import JobDatabase EnhancedJobExtractionAgent TestWeb TestTable.

Lemma json_ld_without_location_witness :
  ld_jobLocation bare_posting = LocAbsent
  /\ (exists r,
        _create_job_from_json_ld bare_posting "https://x.com/bare" = Returns r
        /\ rec_location r = EmptyString
        /\ accepted_job r "Germany" = Returns None).
Proof.
  assert (Hloc : ld_jobLocation bare_posting = LocAbsent) by reflexivity.
  split; [exact Hloc|].
  destruct (json_ld_without_location bare_posting "https://x.com/bare"
              "Germany")
    as (Hempty & _ & Hbuilt); [by left|done|].
  destruct Hbuilt as [r Hr]; [done|].
  exists r. split; [exact Hr|].
  destruct (Hempty r Hr) as (Hl & _ & _). split; [exact Hl|].
  revert Hr. vm_compute. by intros [= <-].
Defined.

Lemma extract_jobs_provenance_witness :
  fst (extract_jobs_from_site "https://x.com" "Germany" new_scraper)
  = Ok [posted_job]
  /\ (valid_jobs "Germany" [posted_job]
      \/ exists s1,
           async_with_crawler (crawl_site "https://x.com" "Germany")
             (reset_guards new_scraper) = (Raised, s1)
           /\ fst (emergency_extraction "https://x.com" s1) = Ok [posted_job]).
Proof.
  assert (Hrun : fst (extract_jobs_from_site "https://x.com" "Germany"
                        new_scraper) = Ok [posted_job]) by by vm_compute.
  split; [exact Hrun|].
  exact (extract_jobs_provenance "https://x.com" "Germany" new_scraper
           [posted_job] Hrun).
Defined.

Lemma gateways_outlive_session_witness :
  "https://x.com/hub"
  ∈ visited_gateways (add_visited_gateway "https://x.com/hub" new_scraper)
  /\ "https://x.com/hub"
     ∈ visited_gateways
         (snd (extract_jobs_from_site "https://x.com" "Germany"
                 (add_visited_gateway "https://x.com/hub" new_scraper))).
Proof.
  assert (Hgate : "https://x.com/hub"
                  ∈ visited_gateways
                      (add_visited_gateway "https://x.com/hub" new_scraper)).
  { simpl. apply elem_of_union. left. by apply elem_of_singleton. }
  split; [exact Hgate|].
  by destruct (gateways_outlive_session "https://x.com" "Germany"
                 "https://x.com/hub" "Germany" 0 _ Hgate) as [Hkept _].
Defined.

Lemma save_jobs_rules_witness :
  NoDup (map row_key (jobs empty_database))
  /\ fst (save_jobs [job_data_of posted_job; job_data_of second_posted_job]
            "Germany" empty_database) <= 2.
Proof.
  assert (Hunique : NoDup (map row_key (jobs empty_database)))
    by constructor.
  split; [exact Hunique|].
  by destruct (save_jobs_rules
                 [job_data_of posted_job; job_data_of second_posted_job]
                 "Germany" empty_database Hunique) as (_ & _ & _ & Hcount).
Defined.

Lemma save_jobs_last_wins_witness :
  Forall (fun j => job_key j <> job_key (job_data_of second_posted_job)) []
  /\ Forall (fun r => row_key r = job_key (job_data_of second_posted_job) ->
                      stored (job_data_of second_posted_job) "Germany" r)
       (jobs (snd (save_jobs
                     [job_data_of posted_job; job_data_of second_posted_job]
                     "Germany" empty_database))).
Proof.
  assert (Hlast : Forall (fun j => job_key j
                                   <> job_key (job_data_of second_posted_job))
                    []) by constructor.
  split; [exact Hlast|].
  by destruct (save_jobs_last_wins [job_data_of posted_job] []
                 (job_data_of second_posted_job) "Germany" empty_database
                 Hlast) as [_ Hall].
Defined.

Lemma save_job_profiles_one_per_company_witness :
  Forall (fun p => job_id p = None) [posted_job; second_posted_job]
  /\ is_valid_job second_posted_job = true
  /\ matches_target_role (job_title second_posted_job) "internship" = true
  /\ fst (_save_job_profiles [posted_job; second_posted_job] "Germany"
            empty_database) <= 1.
Proof.
  assert (Hno_id : Forall (fun p => job_id p = None)
                     [posted_job; second_posted_job])
    by (by repeat constructor).
  assert (Hunique : NoDup (map row_key (jobs empty_database)))
    by constructor.
  split; [exact Hno_id|]. split; [by vm_compute|]. split; [by vm_compute|].
  exact (save_job_profiles_one_per_company [posted_job; second_posted_job]
           "Germany" empty_database Hunique Hno_id).
Defined.

End MoreConcreteRuns.
